(** * Vita3K OpenGL renderer: per-draw state synchronisation

    A shallow embedding of [renderer::gl::sync_texture] and
    [renderer::gl::sync_vertex_streams_and_attributes]
    (vita3k/renderer/src/gl/sync_state.cpp), with the calls issued to the
    host backend and to the caches recorded as a trace. *)

From Stdlib Require Import ZArith Lia.
From stdpp Require Import base option list gmap strings.

Local Open Scope Z_scope.

(** ** Fixed-width integers *)

Definition wrap (bits x : Z) : Z := x mod 2 ^ bits.
Definition u8 : Z -> Z := wrap 8.
Definition u16 : Z -> Z := wrap 16.
Definition u32 : Z -> Z := wrap 32.
Definition u64 : Z -> Z := wrap 64.

(** ** OpenGL enumerants used by the two routines (values of the GL headers) *)

Definition GL_ZERO : Z := 0.
Definition GL_ONE : Z := 1.
Definition GL_INT : Z := 0x1404.
Definition GL_RED : Z := 0x1903.
Definition GL_GREEN : Z := 0x1904.
Definition GL_BLUE : Z := 0x1905.
Definition GL_ALPHA : Z := 0x1906.
Definition GL_TEXTURE_2D : Z := 0x0DE1.
Definition GL_NEAREST : Z := 0x2600.
Definition GL_TEXTURE_MAG_FILTER : Z := 0x2800.
Definition GL_TEXTURE_MIN_FILTER : Z := 0x2801.
Definition GL_TEXTURE0 : Z := 0x84C0.
Definition GL_ARRAY_BUFFER : Z := 0x8892.
Definition GL_TEXTURE_SWIZZLE_R : Z := 0x8E42.
Definition GL_TEXTURE_SWIZZLE_RGBA : Z := 0x8E46.

(** ** Data *)

(** A [const GLint *] to four channel selectors. *)
Record swizzle4 := Swizzle { sw_r : Z; sw_g : Z; sw_b : Z; sw_a : Z }.

Definition sw_at (s : swizzle4) (i : Z) : Z :=
  match i with
  | 0 => sw_r s
  | 1 => sw_g s
  | 2 => sw_b s
  | _ => sw_a s
  end.

(** [std::memcmp(a, b, 16) == 0] on two arrays of four [GLint]. *)
Definition memcmp16_equal (a b : swizzle4) : bool :=
  (sw_r a =? sw_r b) && (sw_g a =? sw_g b) && (sw_b a =? sw_b b) && (sw_a a =? sw_a b).

Definition default_rgba : swizzle4 := Swizzle GL_RED GL_GREEN GL_BLUE GL_ALPHA.

Inductive SceGxmTextureType :=
| SCE_GXM_TEXTURE_SWIZZLED
| SCE_GXM_TEXTURE_CUBE
| SCE_GXM_TEXTURE_LINEAR
| SCE_GXM_TEXTURE_TILED
| SCE_GXM_TEXTURE_SWIZZLED_ARBITRARY
| SCE_GXM_TEXTURE_LINEAR_STRIDED
| SCE_GXM_TEXTURE_CUBE_ARBITRARY.

(** The texture descriptor. [data_addr] and [palette_addr] are the bit-fields
    [sync_texture] reads itself, [texture_type] is the descriptor's method
    of that name; the remaining control words are read only through the
    accessors of the gxm module. *)
Record SceGxmTexture := {
  data_addr : Z;
  palette_addr : Z;
  texture_type : SceGxmTextureType;
  control_words : list Z
}.

Record Config := {
  texture_cache : bool;
  dump_textures : bool
}.

(** The part of [GLContext] that [sync_texture] touches.
    [self_sampling_indices] is a vector of [GLuint]. *)
Record GLContext := {
  color_surface_address : Z;      (* record.color_surface.data.address() *)
  color_surface_colorFormat : Z;  (* record.color_surface.colorFormat *)
  current_color_attachment : Z;   (* std::uint64_t *)
  self_sampling_indices : list Z;
  fragment_textures : list Z;     (* shader_hints.fragment_textures *)
  vertex_textures : list Z        (* shader_hints.vertex_textures *)
}.

(** Calls that leave the two routines, in program order. *)
Inductive Call :=
| LOG_WARN (msg : string)
| LOG_ERROR (msg : string)
| LOG_TRACE (msg : string)
| glActiveTexture (unit : Z)
| glBindTexture (target handle : Z)
| glTexParameteri (target pname param : Z)
| glTexParameteriv (target pname : Z) (params : swizzle4)
| surface_cache_color_lookup (width height stride_in_pixels format address : Z)
| surface_cache_depth_stencil_lookup (depth_address width height : Z) (read_only : bool)
| texture_cache_upload (cached : bool) (texture : SceGxmTexture)
| texture_dump (texture : SceGxmTexture) (index : Z)
| ring_buffer_allocate (size : Z)
| memcpy_to_ring (offset source size : Z)
| glBindBuffer (target handle : Z)
| glVertexAttribIPointer (location size type stride : Z) (pointer : option Z)
| glVertexAttribPointer (location size type : Z) (normalised : bool) (stride : Z)
    (pointer : option Z)
| glEnableVertexAttribArray (location : Z)
| glVertexAttribDivisor (location divisor : Z).

Definition set_self_sampling_indices (context : GLContext) (l : list Z) : GLContext :=
  {| color_surface_address := color_surface_address context;
     color_surface_colorFormat := color_surface_colorFormat context;
     current_color_attachment := current_color_attachment context;
     self_sampling_indices := l;
     fragment_textures := fragment_textures context;
     vertex_textures := vertex_textures context |}.

Definition set_fragment_textures (context : GLContext) (l : list Z) : GLContext :=
  {| color_surface_address := color_surface_address context;
     color_surface_colorFormat := color_surface_colorFormat context;
     current_color_attachment := current_color_attachment context;
     self_sampling_indices := self_sampling_indices context;
     fragment_textures := l;
     vertex_textures := vertex_textures context |}.

Definition set_vertex_textures (context : GLContext) (l : list Z) : GLContext :=
  {| color_surface_address := color_surface_address context;
     color_surface_colorFormat := color_surface_colorFormat context;
     current_color_attachment := current_color_attachment context;
     self_sampling_indices := self_sampling_indices context;
     fragment_textures := fragment_textures context;
     vertex_textures := l |}.

Definition is_surface_cache_lookup (c : Call) : bool :=
  match c with
  | surface_cache_color_lookup _ _ _ _ _ => true
  | surface_cache_depth_stencil_lookup _ _ _ _ => true
  | _ => false
  end.

Definition is_backend_call (c : Call) : bool :=
  match c with
  | LOG_WARN _ | LOG_ERROR _ | LOG_TRACE _ => false
  | _ => true
  end.

(** ** Collaborators of [sync_texture] that live in other modules *)

Class TextureCollaborators := {
  MemState : Type;
  GLState : Type;
  SCE_GXM_MAX_TEXTURE_UNITS : Z;
  SCE_GXM_TEXTURE_BASE_FORMAT_X8U24 : Z;
  (* renderer::texture, gxm and mem *)
  texture_size : SceGxmTexture -> Z;
  is_valid_addr_range : MemState -> Z -> Z -> bool;
  get_format : SceGxmTexture -> Z;
  get_base_format : Z -> Z;
  is_paletted_format : Z -> bool;
  get_width : SceGxmTexture -> Z;
  get_height : SceGxmTexture -> Z;
  get_stride_in_bytes : SceGxmTexture -> Z;
  bits_per_pixel : Z -> Z;
  (* the bool result and the out-parameter, as an option *)
  convert_base_texture_format_to_base_color_format : Z -> option Z;
  (* color::translate_swizzle and texture::translate_swizzle; None is nullptr *)
  color_translate_swizzle : Z -> option swizzle4;
  texture_translate_swizzle : Z -> option swizzle4;
  is_write_surface_non_linearity_filtering : Z -> bool;
  (* surface cache: handle, swizz_raw out-parameter, cache afterwards *)
  retrieve_color_surface_texture_handle :
    GLState -> Z -> Z -> Z -> Z -> Z -> Z * Z * GLState;
  retrieve_depth_stencil_texture_handle :
    GLState -> MemState -> Z -> Z -> Z -> bool -> Z * GLState;
  (* renderer::texture::cache_and_bind_texture and texture::bind_texture *)
  cache_and_bind_texture : GLState -> SceGxmTexture -> MemState -> GLState;
  bind_texture : GLState -> SceGxmTexture -> MemState -> GLState
}.

(** Modelled from the spec: util/align.h is not among the sources; the spec
    describes [align(x, a)] as x rounded up to a multiple of a. *)
Definition align (x a : Z) : Z := (x + (a - 1)) / a * a.

(** ** [std::find], [push_back] and [erase] on the self-sampling vector *)

Fixpoint find_index (x : Z) (l : list Z) : option nat :=
  match l with
  | [] => None
  | y :: l' => if y =? x then Some O else S <$> find_index x l'
  end.

Definition erase_at (pos : nat) (l : list Z) : list Z := delete pos l.

Section Texture.
Context `{TextureCollaborators}.

(** Lines 326-340: the row stride, in pixels, used as surface-cache key.
    The stride is a uint16_t. Dividing by a byte size of zero is undefined
    in the source; the model's division gives 0 there. *)
Definition stride_in_pixels (texture : SceGxmTexture) (base_format width : Z) : Z :=
  match texture_type texture with
  | SCE_GXM_TEXTURE_LINEAR_STRIDED =>
      u16 (u16 (get_stride_in_bytes texture)
           / Z.shiftr (bits_per_pixel base_format + 7) 3)
  | SCE_GXM_TEXTURE_LINEAR => u16 (align width 8)
  | SCE_GXM_TEXTURE_TILED => u16 (align width 32)
  | _ => width
  end.

(** What lines 301-363 leave in the three locals. *)
Record Resolved := {
  texture_as_surface : Z;
  swizzle_surface : option swizzle4;
  only_nearest : bool
}.

(** Lines 305-312: the texture is the colour surface being rendered. *)
Definition resolve_self_sample (context : GLContext) (index : Z)
  : GLContext * Resolved :=
  let indices := self_sampling_indices context in
  let indices' :=
    match find_index index indices with
    | None => indices ++ [u32 index]
    | Some _ => indices
    end in
  (set_self_sampling_indices context indices',
   {| texture_as_surface := current_color_attachment context;
      swizzle_surface := color_translate_swizzle (color_surface_colorFormat context);
      only_nearest := false |}).

(** Lines 325-350: the colour-surface lookup, made only when the base
    format has a colour base format. *)
Definition lookup_color_surface (state : GLState) (texture : SceGxmTexture)
    (base_format address width height : Z) : GLState * Resolved * list Call :=
  match convert_base_texture_format_to_base_color_format base_format with
  | Some format_target_of_texture =>
      let stride := stride_in_pixels texture base_format width in
      let '(handle, swizz_raw, state) :=
        retrieve_color_surface_texture_handle state width height stride
          format_target_of_texture address in
      (state,
       {| texture_as_surface := handle;
          swizzle_surface :=
            color_translate_swizzle (Z.lor format_target_of_texture swizz_raw);
          only_nearest :=
            is_write_surface_non_linearity_filtering format_target_of_texture |},
       [surface_cache_color_lookup width height stride format_target_of_texture
          address])
  | None =>
      (state,
       {| texture_as_surface := 0; swizzle_surface := None; only_nearest := false |},
       [])
  end.

(** Lines 313-363: drop the unit from the self-sampling vector, then ask
    the surface cache for a colour surface and, failing that, for a
    depth-stencil surface at the texture's address. *)
Definition resolve_alias (state : GLState) (context : GLContext) (mem : MemState)
    (index : Z) (texture : SceGxmTexture) (base_format address : Z)
  : GLState * GLContext * Resolved * list Call :=
  let indices := self_sampling_indices context in
  let context :=
    match find_index (u32 index) indices with
    | Some res => set_self_sampling_indices context (erase_at res indices)
    | None => context
    end in
  let width := u16 (get_width texture) in
  let height := u16 (get_height texture) in
  let '(state, r, lookups) :=
    lookup_color_surface state texture base_format address width height in
  if texture_as_surface r =? 0 then
    let '(handle, state) :=
      retrieve_depth_stencil_texture_handle state mem address width height true in
    (state, context,
     {| texture_as_surface := handle;
        swizzle_surface := swizzle_surface r;
        only_nearest := if handle =? 0 then only_nearest r else true |},
     lookups ++ [surface_cache_depth_stencil_lookup address width height true])
  else (state, context, r, lookups).

(** Lines 305-363. *)
Definition resolve_surface (state : GLState) (context : GLContext) (mem : MemState)
    (index : Z) (texture : SceGxmTexture) (base_format address : Z)
  : GLState * GLContext * Resolved * list Call :=
  if color_surface_address context =? address then
    let '(context, r) := resolve_self_sample context index in
    (state, context, r, [])
  else resolve_alias state context mem index texture base_format address.

(** Lines 380-391: one output channel of the reversed swizzle. *)
Definition remap_channel (swizzle surface : swizzle4) (i : Z) : list Call :=
  if (sw_at swizzle i <? GL_RED) || (GL_ALPHA <? sw_at swizzle i) then
    [glTexParameteri GL_TEXTURE_2D (GL_TEXTURE_SWIZZLE_R + i) (sw_at swizzle i)]
  else
    match List.find (fun j => sw_at swizzle i =? sw_at surface j) [0; 1; 2; 3] with
    | Some j => [glTexParameteri GL_TEXTURE_2D (GL_TEXTURE_SWIZZLE_R + i) (GL_RED + j)]
    | None => []
    end.

(** Lines 376-399, for a non-null texture swizzle. *)
Definition reconcile_swizzle (swizzle : swizzle4) (surface : option swizzle4)
  : list Call :=
  match surface with
  | Some surface =>
      if negb (memcmp16_equal surface swizzle) then
        flat_map (remap_channel swizzle surface) [0; 1; 2; 3]
      else [glTexParameteriv GL_TEXTURE_2D GL_TEXTURE_SWIZZLE_RGBA default_rgba]
  | None =>
      [LOG_TRACE "No surface swizzle found, use default texture swizzle";
       glTexParameteriv GL_TEXTURE_2D GL_TEXTURE_SWIZZLE_RGBA swizzle]
  end.

(** Lines 365-408. *)
Definition bind_resolved (state : GLState) (mem : MemState) (texture : SceGxmTexture)
    (config : Config) (format base_format : Z) (r : Resolved)
  : GLState * list Call :=
  if negb (texture_as_surface r =? 0) then
    (state,
     [glBindTexture GL_TEXTURE_2D (u32 (texture_as_surface r))]
     ++ (if only_nearest r then
           [glTexParameteri GL_TEXTURE_2D GL_TEXTURE_MIN_FILTER GL_NEAREST;
            glTexParameteri GL_TEXTURE_2D GL_TEXTURE_MAG_FILTER GL_NEAREST]
         else [])
     ++ (if negb (base_format =? SCE_GXM_TEXTURE_BASE_FORMAT_X8U24) then
           match texture_translate_swizzle format with
           | Some swizzle => reconcile_swizzle swizzle (swizzle_surface r)
           | None => []
           end
         else []))
  else if texture_cache config then
    (cache_and_bind_texture state texture mem, [texture_cache_upload true texture])
  else
    (bind_texture state texture mem, [texture_cache_upload false texture]).

(** Lines 292-297. The arrays are indexed without a bounds check in the
    source; an index past the end leaves the model's array as it is. *)
Definition set_shader_hint (context : GLContext) (index format : Z) : GLContext :=
  if SCE_GXM_MAX_TEXTURE_UNITS <=? index then
    set_vertex_textures context
      (<[Z.to_nat (index - SCE_GXM_MAX_TEXTURE_UNITS) := format]> (vertex_textures context))
  else
    set_fragment_textures context
      (<[Z.to_nat index := format]> (fragment_textures context)).

Definition sync_texture (state : GLState) (context : GLContext) (mem : MemState)
    (index : Z) (texture : SceGxmTexture) (config : Config)
  : GLState * GLContext * list Call :=
  let address := u32 (Z.shiftl (data_addr texture) 2) in
  let size := texture_size texture in
  if negb (is_valid_addr_range mem address (address + size)) then
    (state, context, [LOG_WARN "Texture has freed data."])
  else
    let format := get_format texture in
    let base_format := get_base_format format in
    if is_paletted_format base_format && (palette_addr texture =? 0) then
      (state, context, [LOG_WARN "Ignoring null palette texture"])
    else
      let context := set_shader_hint context index format in
      let '(state, context, r, lookups) :=
        resolve_surface state context mem index texture base_format address in
      let '(state, binds) := bind_resolved state mem texture config format base_format r in
      (state, context,
       [glActiveTexture (u32 (GL_TEXTURE0 + index))]
       ++ lookups ++ binds
       ++ (if dump_textures config then [texture_dump texture index] else [])
       ++ [glActiveTexture GL_TEXTURE0]).

(** The two guards of lines 280-290, as one test. *)
Definition aborts_early (mem : MemState) (texture : SceGxmTexture) : bool :=
  let address := u32 (Z.shiftl (data_addr texture) 2) in
  negb (is_valid_addr_range mem address (address + texture_size texture))
  || (is_paletted_format (get_base_format (get_format texture))
      && (palette_addr texture =? 0)).
End Texture.

Definition is_texture_upload (c : Call) : bool :=
  match c with
  | texture_cache_upload _ _ => true
  | _ => false
  end.

(** Calls that neither query the surface cache nor upload a texture. *)
Definition quiet (c : Call) : Prop :=
  is_surface_cache_lookup c = false ∧ is_texture_upload c = false.

(** ** Vertex streams and attributes *)

Inductive SceGxmParameterType :=
| SCE_GXM_PARAMETER_TYPE_F32
| SCE_GXM_PARAMETER_TYPE_F16
| SCE_GXM_PARAMETER_TYPE_C10
| SCE_GXM_PARAMETER_TYPE_U32
| SCE_GXM_PARAMETER_TYPE_S32
| SCE_GXM_PARAMETER_TYPE_U16
| SCE_GXM_PARAMETER_TYPE_S16
| SCE_GXM_PARAMETER_TYPE_U8
| SCE_GXM_PARAMETER_TYPE_S8
| SCE_GXM_PARAMETER_TYPE_AGGREGATE.

(** Modelled from the spec: shader::usse::AttributeInformation is declared
    outside the sources; the spec gives an attribute a derived location and
    a register-formatted flag, and the routine reads [location()],
    [gxm_type()] and [regformat]. *)
Record AttributeInformation := {
  location : Z;
  gxm_type : SceGxmParameterType;
  regformat : bool
}.

Record SceGxmVertexAttribute := {
  streamIndex : Z;     (* uint16_t *)
  offset : Z;          (* uint16_t *)
  format : Z;          (* uint8_t *)
  componentCount : Z;  (* uint8_t *)
  regIndex : Z         (* uint16_t *)
}.

Record SceGxmVertexStream := {
  stride : Z;
  indexSource : Z
}.

(** One entry of [GxmRecordState::vertex_streams]; a null [data] is 0. *)
Record VertexStreamData := {
  data : Z;
  size : Z
}.

Record SceGxmVertexProgram := {
  attributes : list SceGxmVertexAttribute;
  streams : list SceGxmVertexStream;
  (* primary_reg_count of the program body, None for a null program *)
  program_primary_reg_count : option Z
}.

Record GLVertexProgram := {
  attribute_infos : gmap Z AttributeInformation;
  stripped_symbols_checked : bool
}.

Class VertexCollaborators := {
  RingBuffer : Type;
  SCE_GXM_ATTRIBUTE_FORMAT_UNTYPED : Z;
  (* the write pointer is null (None) on failure, else the offset is given *)
  allocate : RingBuffer -> Z -> option Z * RingBuffer;
  handle : RingBuffer -> Z;
  attribute_format_to_gl_type : Z -> Z;
  attribute_format_normalised : Z -> bool;
  attribute_format_size : Z -> Z;
  is_stream_instancing : Z -> bool
}.

(** [std::map::emplace]: an existing key keeps its value. *)
Definition emplace (k : Z) (v : AttributeInformation)
    (m : gmap Z AttributeInformation) : gmap Z AttributeInformation :=
  match m !! k with
  | Some _ => m
  | None => <[k := v]> m
  end.

Section Vertex.
Context `{VertexCollaborators}.

(** Lines 458-468. *)
Fixpoint emplace_stripped (i : Z) (attrs : list SceGxmVertexAttribute)
    (m : gmap Z AttributeInformation) : gmap Z AttributeInformation :=
  match attrs with
  | [] => m
  | a :: attrs =>
      emplace_stripped (i + 1) attrs
        (emplace (regIndex a)
           {| location := u16 i; gxm_type := SCE_GXM_PARAMETER_TYPE_F32;
              regformat := false |} m)
  end.

Definition check_stripped_symbols (vertex_program : SceGxmVertexProgram)
    (glvert : GLVertexProgram) : GLVertexProgram :=
  if negb (stripped_symbols_checked glvert) then
    {| attribute_infos :=
         match program_primary_reg_count vertex_program with
         | Some primary_reg_count =>
             if negb (primary_reg_count =? 0) then
               emplace_stripped 0 (attributes vertex_program) (attribute_infos glvert)
             else attribute_infos glvert
         | None => attribute_infos glvert
         end;
       stripped_symbols_checked := true |}
  else glvert.

(** Lines 474-487, one stream: the ring and the stream afterwards, the
    entry of [offset_in_buffer] and the calls. The entry is written with
    the allocated offset only when the allocation succeeds; otherwise it
    stays indeterminate: [None]. *)
Definition stage_stream (ring : RingBuffer) (s : VertexStreamData)
  : RingBuffer * VertexStreamData * option Z * list Call :=
  if negb (data s =? 0) then
    let '(result, ring) := allocate ring (size s) in
    (ring, {| data := 0; size := 0 |}, result,
     ring_buffer_allocate (size s)
     :: match result with
        | None => [LOG_ERROR "Failed to allocate vertex stream data from GPU!"]
        | Some off => [memcpy_to_ring off (data s) (size s)]
        end)
  else (ring, s, Some 0, []).

(** Lines 472-488. *)
Fixpoint stage_streams (ring : RingBuffer) (vertex_streams : list VertexStreamData)
  : RingBuffer * list VertexStreamData * list (option Z) * list Call :=
  match vertex_streams with
  | [] => (ring, [], [], [])
  | s :: rest =>
      let '(ring, s, entry, calls) := stage_stream ring s in
      let '(ring, rest, offset_in_buffer, calls') := stage_streams ring rest in
      (ring, s :: rest, entry :: offset_in_buffer, calls ++ calls')
  end.

(** What lines 510-539 leave in the locals. *)
Record Layout := {
  component_count : Z;
  gl_type : Z;
  upload_integral : bool;
  array_size : Z;
  array_element_size : Z
}.

Definition attribute_layout (info : AttributeInformation)
    (attribute : SceGxmVertexAttribute) : Layout :=
  let attribute_format := format attribute in
  if regformat info then
    let comp_size := attribute_format_size attribute_format in
    let component_count := u8 ((comp_size * componentCount attribute + 3) ÷ 4) in
    if 4 <? component_count then
      {| component_count := 4; gl_type := GL_INT; upload_integral := true;
         array_size := u32 ((component_count + 3) ÷ 4); array_element_size := 16 |}
    else
      {| component_count := component_count; gl_type := GL_INT;
         upload_integral := true; array_size := 1; array_element_size := 0 |}
  else
    {| component_count := componentCount attribute;
       gl_type := attribute_format_to_gl_type attribute_format;
       upload_integral :=
         match gxm_type info with
         | SCE_GXM_PARAMETER_TYPE_U8 | SCE_GXM_PARAMETER_TYPE_S8
         | SCE_GXM_PARAMETER_TYPE_U16 | SCE_GXM_PARAMETER_TYPE_S16
         | SCE_GXM_PARAMETER_TYPE_U32 | SCE_GXM_PARAMETER_TYPE_S32 => true
         | _ => false
         end;
       array_size := 1; array_element_size := 0 |}.

(** Lines 544-548: the pointer-setting call. *)
Definition set_attribute_pointer (attribute : SceGxmVertexAttribute)
    (stream : SceGxmVertexStream) (l : Layout) (attrib_location : Z)
    (pointer : option Z) : Call :=
  if upload_integral l || (format attribute =? SCE_GXM_ATTRIBUTE_FORMAT_UNTYPED) then
    glVertexAttribIPointer attrib_location (component_count l) (gl_type l)
      (stride stream) pointer
  else
    glVertexAttribPointer attrib_location (component_count l) (gl_type l)
      (attribute_format_normalised (format attribute)) (stride stream) pointer.

(** Lines 543-557: the calls for array element [i] of one attribute. The
    pointer is indeterminate ([None]) when the stream's entry of
    [offset_in_buffer] is. *)
Definition bind_location (info : AttributeInformation)
    (attribute : SceGxmVertexAttribute) (stream : SceGxmVertexStream)
    (base : option Z) (l : Layout) (i : Z) : list Call :=
  let pointer :=
    (fun b => u64 (u32 (u32 (i * array_element_size l) + offset attribute) + b))
      <$> base in
  let attrib_location := u32 (location info + i) in
  [ set_attribute_pointer attribute stream l attrib_location pointer;
    glEnableVertexAttribArray attrib_location;
    glVertexAttribDivisor attrib_location
      (if is_stream_instancing (indexSource stream) then 1 else 0) ].

(** Lines 492-558, one attribute. Indexing [streams] or [offset_in_buffer]
    out of range is undefined in the source: [None]. *)
Definition bind_attribute (glvert : GLVertexProgram)
    (vertex_program : SceGxmVertexProgram) (offset_in_buffer : list (option Z))
    (attribute : SceGxmVertexAttribute) : option (list Call) :=
  match attribute_infos glvert !! regIndex attribute with
  | None => Some []
  | Some info =>
      stream ← streams vertex_program !! Z.to_nat (streamIndex attribute);
      base ← offset_in_buffer !! Z.to_nat (streamIndex attribute);
      let l := attribute_layout info attribute in
      Some (flat_map (bind_location info attribute stream base l)
              (seqZ 0 (array_size l)))
  end.

Fixpoint bind_attributes (glvert : GLVertexProgram)
    (vertex_program : SceGxmVertexProgram) (offset_in_buffer : list (option Z))
    (attrs : list SceGxmVertexAttribute) : option (list Call) :=
  match attrs with
  | [] => Some []
  | a :: attrs =>
      calls ← bind_attribute glvert vertex_program offset_in_buffer a;
      calls' ← bind_attributes glvert vertex_program offset_in_buffer attrs;
      Some (calls ++ calls')
  end.

Definition sync_vertex_streams_and_attributes (ring : RingBuffer)
    (vertex_streams : list VertexStreamData) (vertex_program : SceGxmVertexProgram)
    (glvert : GLVertexProgram)
  : option (RingBuffer * list VertexStreamData * GLVertexProgram * list Call) :=
  let glvert := check_stripped_symbols vertex_program glvert in
  let '(ring, vertex_streams, offset_in_buffer, staging) :=
    stage_streams ring vertex_streams in
  calls ← bind_attributes glvert vertex_program offset_in_buffer
             (attributes vertex_program);
  Some (ring, vertex_streams, glvert,
        staging ++ [glBindBuffer GL_ARRAY_BUFFER (handle ring)] ++ calls
        ++ [glBindBuffer GL_ARRAY_BUFFER 0]).
End Vertex.

(** ** Notions used to state the properties of the vertex routine *)

(** A stream carries data for this draw when its data pointer is not null. *)
Definition pending (s : VertexStreamData) : bool := negb (data s =? 0).

(** The sizes requested from the ring allocator, in call order. *)
Definition allocations (calls : list Call) : list Z :=
  omap (λ c, match c with ring_buffer_allocate n => Some n | _ => None end) calls.

(** The (source, size) of the copies into the ring, in call order. *)
Definition copies (calls : list Call) : list (Z * Z) :=
  omap (λ c, match c with memcpy_to_ring _ src n => Some (src, n) | _ => None end) calls.

(** The location and pointer of a call that sets an attribute pointer. *)
Definition pointer_of (c : Call) : option (Z * option Z) :=
  match c with
  | glVertexAttribIPointer loc _ _ _ p => Some (loc, p)
  | glVertexAttribPointer loc _ _ _ _ p => Some (loc, p)
  | _ => None
  end.

(** Field values within their C types: [offset] is a uint16_t,
    [componentCount] a uint8_t, [location()] a 16-bit field and a ring
    offset a size_t that is not near the end of the address space. *)
Definition attribute_in_range (a : SceGxmVertexAttribute) : Prop :=
  0 ≤ offset a < 2 ^ 16 ∧ 0 ≤ componentCount a < 2 ^ 8.

Definition info_in_range (info : AttributeInformation) : Prop :=
  0 ≤ location info < 2 ^ 16.

Definition base_in_range (base : option Z) : Prop :=
  ∀ b, base = Some b → 0 ≤ b < 2 ^ 63.

(** ** A small instance of the collaborators

    Enough of a memory, a surface cache and a ring allocator to run the two
    routines on concrete inputs. Memory is mapped from address 1 up to the
    value of the memory state; the surface cache holds one colour surface
    and one depth-stencil surface as (address, handle); the control words of
    a descriptor are its format, width, height, stride in bytes and size;
    the ring is a cursor and a capacity. *)
Module Fixture.
Definition word (n : nat) (t : SceGxmTexture) : Z := nth n (control_words t) 0.

Record Cache := { colour : Z * Z; depth_stencil : Z * Z }.

Definition U8U8U8U8 : Z := 0x0C000000.
Definition P8 : Z := 0x95000000.

Definition textures : TextureCollaborators := {|
  MemState := Z;
  GLState := Cache;
  SCE_GXM_MAX_TEXTURE_UNITS := 16;
  SCE_GXM_TEXTURE_BASE_FORMAT_X8U24 := 0x15000000;
  texture_size := word 4;
  is_valid_addr_range := fun mem a b => (0 <? a) && (b <=? mem);
  get_format := word 0;
  get_base_format := fun f => Z.land f 0xFF000000;
  is_paletted_format := fun b => b =? P8;
  get_width := word 1;
  get_height := word 2;
  get_stride_in_bytes := word 3;
  bits_per_pixel := fun b => if b =? U8U8U8U8 then 32 else 8;
  convert_base_texture_format_to_base_color_format :=
    fun b => if b =? U8U8U8U8 then Some 0 else None;
  color_translate_swizzle :=
    fun f => if Z.land f 0x100000 =? 0 then Some (Swizzle GL_RED GL_GREEN GL_BLUE GL_ALPHA)
             else Some (Swizzle GL_BLUE GL_GREEN GL_RED GL_ALPHA);
  texture_translate_swizzle :=
    fun f => if Z.land f 0xF000 =? 0 then Some (Swizzle GL_RED GL_GREEN GL_BLUE GL_ALPHA)
             else Some (Swizzle GL_BLUE GL_GREEN GL_RED GL_ONE);
  is_write_surface_non_linearity_filtering := fun _ => false;
  retrieve_color_surface_texture_handle :=
    fun cache _ _ _ _ a => (if a =? (colour cache).1 then (colour cache).2 else 0, 0, cache);
  retrieve_depth_stencil_texture_handle :=
    fun cache _ a _ _ _ =>
      (if a =? (depth_stencil cache).1 then (depth_stencil cache).2 else 0, cache);
  cache_and_bind_texture := fun cache _ _ => cache;
  bind_texture := fun cache _ _ => cache
|}.

Definition vertices : VertexCollaborators := {|
  RingBuffer := Z * Z;
  SCE_GXM_ATTRIBUTE_FORMAT_UNTYPED := 10;
  allocate := fun ring n =>
    if ring.1 + n <=? ring.2 then (Some ring.1, (ring.1 + n, ring.2)) else (None, ring);
  handle := fun _ => 7;
  attribute_format_to_gl_type := fun f => 0x1400 + f;
  attribute_format_normalised := fun f => (4 <=? f) && (f <=? 7);
  attribute_format_size :=
    fun f => if (f =? 0) || (f =? 1) || (f =? 4) || (f =? 5) then 1
             else if 9 <=? f then 4 else 2;
  is_stream_instancing := fun source => 2 <=? source
|}.

Definition cache : Cache := {| colour := (0x2000, 11); depth_stencil := (0x3000, 12) |}.

Definition context (attachment : Z) (self_sampling : list Z) : GLContext :=
  {| color_surface_address := 0x1000;
     color_surface_colorFormat := 0;
     current_color_attachment := attachment;
     self_sampling_indices := self_sampling;
     fragment_textures := replicate 16 0;
     vertex_textures := replicate 16 0 |}.

Definition texture (address_words palette format : Z) (type : SceGxmTextureType)
  : SceGxmTexture :=
  {| data_addr := address_words;
     palette_addr := palette;
     texture_type := type;
     control_words := [format; 60; 30; 256; 64] |}.

Definition config : Config := {| texture_cache := true; dump_textures := false |}.

(** A position attribute of three floats on stream 0, a register-formatted
    attribute of five floats (20 bytes) on the instanced stream 1, and an
    attribute on a register the program does not declare. *)
Definition position : SceGxmVertexAttribute :=
  {| streamIndex := 0; offset := 4; format := 9; componentCount := 3; regIndex := 0 |}.

Definition matrix : SceGxmVertexAttribute :=
  {| streamIndex := 1; offset := 8; format := 9; componentCount := 5; regIndex := 4 |}.

Definition undeclared : SceGxmVertexAttribute :=
  {| streamIndex := 0; offset := 16; format := 0; componentCount := 4; regIndex := 12 |}.

Definition vertex_program : SceGxmVertexProgram :=
  {| attributes := [position; matrix; undeclared];
     streams := [ {| stride := 32; indexSource := 0 |};
                  {| stride := 28; indexSource := 2 |} ];
     program_primary_reg_count := Some 0 |}.

Definition position_info : AttributeInformation :=
  {| location := 0; gxm_type := SCE_GXM_PARAMETER_TYPE_F32; regformat := false |}.

Definition matrix_info : AttributeInformation :=
  {| location := 1; gxm_type := SCE_GXM_PARAMETER_TYPE_F32; regformat := true |}.

Definition glvert : GLVertexProgram :=
  {| attribute_infos := {[ 0 := position_info; 4 := matrix_info ]};
     stripped_symbols_checked := true |}.

Definition vertex_streams : list VertexStreamData :=
  [ {| data := 0x5000; size := 96 |}; {| data := 0x6000; size := 56 |};
    {| data := 0; size := 0 |}; {| data := 0; size := 0 |} ].

Definition ring : Z * Z := (64, 1024).
End Fixture.

(** ** Notions used to state further properties of the two routines *)

Definition is_active_texture (c : Call) : bool :=
  match c with
  | glActiveTexture _ => true
  | _ => false
  end.

Definition is_bind_texture (c : Call) : bool :=
  match c with
  | glBindTexture _ _ => true
  | _ => false
  end.

(** A call that sets the swizzle of the bound texture: [glTexParameteriv]
    is only used for it, and the swizzle names are the [glTexParameteri]
    names from GL_TEXTURE_SWIZZLE_R on. *)
Definition is_swizzle_parameter (c : Call) : bool :=
  match c with
  | glTexParameteri _ pname _ => GL_TEXTURE_SWIZZLE_R <=? pname
  | glTexParameteriv _ _ _ => true
  | _ => false
  end.

Definition is_filter_parameter (c : Call) : bool :=
  match c with
  | glTexParameteri _ pname _ =>
      (pname =? GL_TEXTURE_MIN_FILTER) || (pname =? GL_TEXTURE_MAG_FILTER)
  | _ => false
  end.

Definition is_vertex_attribute_call (c : Call) : bool :=
  match c with
  | glVertexAttribIPointer _ _ _ _ _ | glVertexAttribPointer _ _ _ _ _ _
  | glEnableVertexAttribArray _ | glVertexAttribDivisor _ _ => true
  | _ => false
  end.

(** A call that sets a parameter of the bound texture, or the trace line
    that goes with it. *)
Definition is_texture_setting (c : Call) : bool :=
  match c with
  | glTexParameteri _ _ _ | glTexParameteriv _ _ _ | LOG_TRACE _ => true
  | _ => false
  end.

(** How many calls of a kind a trace holds. *)
Definition count (kind : Call → bool) (calls : list Call) : nat :=
  length (List.filter kind calls).

(** The parameter name of a [glTexParameteri] call. *)
Definition parameter_name (c : Call) : option Z :=
  match c with
  | glTexParameteri _ pname _ => Some pname
  | _ => None
  end.

(** The position of the first attribute that reads register [k]. *)
Fixpoint first_attribute (k : Z) (attrs : list SceGxmVertexAttribute) : option Z :=
  match attrs with
  | [] => None
  | a :: attrs => if regIndex a =? k then Some 0 else Z.succ <$> first_attribute k attrs
  end.

(** The parameter types that line 527-535 upload as integers. *)
Definition is_integer_type (t : SceGxmParameterType) : bool :=
  match t with
  | SCE_GXM_PARAMETER_TYPE_U8 | SCE_GXM_PARAMETER_TYPE_S8
  | SCE_GXM_PARAMETER_TYPE_U16 | SCE_GXM_PARAMETER_TYPE_S16
  | SCE_GXM_PARAMETER_TYPE_U32 | SCE_GXM_PARAMETER_TYPE_S32 => true
  | _ => false
  end.

(** The entry that line 463 makes for the attribute at position [i]. *)
Definition stripped_entry (i : Z) : AttributeInformation :=
  {| location := u16 i; gxm_type := SCE_GXM_PARAMETER_TYPE_F32; regformat := false |}.

(** The attribute reads a register that has an entry in [attribute_infos]. *)
Definition known (glvert : GLVertexProgram) (a : SceGxmVertexAttribute) : Prop :=
  is_Some (attribute_infos glvert !! regIndex a).

(** ** Fixed-function state: comparison functions and stencil operations *)

Definition GL_NEVER : Z := 0x0200.
Definition GL_LESS : Z := 0x0201.
Definition GL_EQUAL : Z := 0x0202.
Definition GL_LEQUAL : Z := 0x0203.
Definition GL_GREATER : Z := 0x0204.
Definition GL_NOTEQUAL : Z := 0x0205.
Definition GL_GEQUAL : Z := 0x0206.
Definition GL_ALWAYS : Z := 0x0207.
Definition GL_FRONT : Z := 0x0404.
Definition GL_BACK : Z := 0x0405.
Definition GL_CULL_FACE : Z := 0x0B44.
Definition GL_INVERT : Z := 0x150A.
Definition GL_KEEP : Z := 0x1E00.
Definition GL_REPLACE : Z := 0x1E01.
Definition GL_INCR : Z := 0x1E02.
Definition GL_DECR : Z := 0x1E03.
Definition GL_INCR_WRAP : Z := 0x8507.
Definition GL_DECR_WRAP : Z := 0x8508.

(** The guest enumerations, with one more constructor each for a value
    that is none of the enumerators (the switches have no default and fall
    through to the statement after them). *)
Inductive SceGxmDepthFunc :=
| SCE_GXM_DEPTH_FUNC_NEVER
| SCE_GXM_DEPTH_FUNC_LESS
| SCE_GXM_DEPTH_FUNC_EQUAL
| SCE_GXM_DEPTH_FUNC_LESS_EQUAL
| SCE_GXM_DEPTH_FUNC_GREATER
| SCE_GXM_DEPTH_FUNC_NOT_EQUAL
| SCE_GXM_DEPTH_FUNC_GREATER_EQUAL
| SCE_GXM_DEPTH_FUNC_ALWAYS
| SCE_GXM_DEPTH_FUNC_unnamed.

Inductive SceGxmStencilOp :=
| SCE_GXM_STENCIL_OP_KEEP
| SCE_GXM_STENCIL_OP_ZERO
| SCE_GXM_STENCIL_OP_REPLACE
| SCE_GXM_STENCIL_OP_INCR
| SCE_GXM_STENCIL_OP_DECR
| SCE_GXM_STENCIL_OP_INVERT
| SCE_GXM_STENCIL_OP_INCR_WRAP
| SCE_GXM_STENCIL_OP_DECR_WRAP
| SCE_GXM_STENCIL_OP_unnamed.

Inductive SceGxmStencilFunc :=
| SCE_GXM_STENCIL_FUNC_NEVER
| SCE_GXM_STENCIL_FUNC_LESS
| SCE_GXM_STENCIL_FUNC_EQUAL
| SCE_GXM_STENCIL_FUNC_LESS_EQUAL
| SCE_GXM_STENCIL_FUNC_GREATER
| SCE_GXM_STENCIL_FUNC_NOT_EQUAL
| SCE_GXM_STENCIL_FUNC_GREATER_EQUAL
| SCE_GXM_STENCIL_FUNC_ALWAYS
| SCE_GXM_STENCIL_FUNC_unnamed.

Inductive SceGxmCullMode :=
| SCE_GXM_CULL_NONE
| SCE_GXM_CULL_CW
| SCE_GXM_CULL_CCW
| SCE_GXM_CULL_unnamed.

Definition translate_depth_func (depth_func : SceGxmDepthFunc) : Z :=
  match depth_func with
  | SCE_GXM_DEPTH_FUNC_NEVER => GL_NEVER
  | SCE_GXM_DEPTH_FUNC_LESS => GL_LESS
  | SCE_GXM_DEPTH_FUNC_EQUAL => GL_EQUAL
  | SCE_GXM_DEPTH_FUNC_LESS_EQUAL => GL_LEQUAL
  | SCE_GXM_DEPTH_FUNC_GREATER => GL_GREATER
  | SCE_GXM_DEPTH_FUNC_NOT_EQUAL => GL_NOTEQUAL
  | SCE_GXM_DEPTH_FUNC_GREATER_EQUAL => GL_GEQUAL
  | SCE_GXM_DEPTH_FUNC_ALWAYS => GL_ALWAYS
  | SCE_GXM_DEPTH_FUNC_unnamed => GL_ALWAYS
  end.

Definition translate_stencil_op (stencil_op : SceGxmStencilOp) : Z :=
  match stencil_op with
  | SCE_GXM_STENCIL_OP_KEEP => GL_KEEP
  | SCE_GXM_STENCIL_OP_ZERO => GL_ZERO
  | SCE_GXM_STENCIL_OP_REPLACE => GL_REPLACE
  | SCE_GXM_STENCIL_OP_INCR => GL_INCR
  | SCE_GXM_STENCIL_OP_DECR => GL_DECR
  | SCE_GXM_STENCIL_OP_INVERT => GL_INVERT
  | SCE_GXM_STENCIL_OP_INCR_WRAP => GL_INCR_WRAP
  | SCE_GXM_STENCIL_OP_DECR_WRAP => GL_DECR_WRAP
  | SCE_GXM_STENCIL_OP_unnamed => GL_KEEP
  end.

Definition translate_stencil_func (stencil_func : SceGxmStencilFunc) : Z :=
  match stencil_func with
  | SCE_GXM_STENCIL_FUNC_NEVER => GL_NEVER
  | SCE_GXM_STENCIL_FUNC_LESS => GL_LESS
  | SCE_GXM_STENCIL_FUNC_EQUAL => GL_EQUAL
  | SCE_GXM_STENCIL_FUNC_LESS_EQUAL => GL_LEQUAL
  | SCE_GXM_STENCIL_FUNC_GREATER => GL_GREATER
  | SCE_GXM_STENCIL_FUNC_NOT_EQUAL => GL_NOTEQUAL
  | SCE_GXM_STENCIL_FUNC_GREATER_EQUAL => GL_GEQUAL
  | SCE_GXM_STENCIL_FUNC_ALWAYS => GL_ALWAYS
  | SCE_GXM_STENCIL_FUNC_unnamed => GL_ALWAYS
  end.

(** Calls of the fixed-function routines. *)
Inductive StateCall :=
| glEnable (cap : Z)
| glDisable (cap : Z)
| glCullFace (face : Z)
| glDepthFunc (func : Z)
| glStencilOpSeparate (face sfail dpfail dppass : Z)
| glStencilFuncSeparate (face func ref mask : Z)
| glStencilMaskSeparate (face mask : Z).


Record GxmStencilStateOp := {
  func : SceGxmStencilFunc;
  stencil_fail : SceGxmStencilOp;
  depth_fail : SceGxmStencilOp;
  depth_pass : SceGxmStencilOp
}.

Record GxmStencilStateValues := {
  ref : Z;
  compare_mask : Z;
  write_mask : Z
}.

(** Lines 178-193. *)
Definition sync_cull (cull_mode : SceGxmCullMode) : list StateCall :=
  match cull_mode with
  | SCE_GXM_CULL_CCW => [glEnable GL_CULL_FACE; glCullFace GL_BACK]
  | SCE_GXM_CULL_CW => [glEnable GL_CULL_FACE; glCullFace GL_FRONT]
  | SCE_GXM_CULL_NONE => [glDisable GL_CULL_FACE]
  | SCE_GXM_CULL_unnamed => []
  end.

(** Lines 195-198. *)
Definition sync_depth_func (func : SceGxmDepthFunc) (is_front : bool) : list StateCall :=
  if is_front then [glDepthFunc (translate_depth_func func)] else [].

(** Lines 217-226. *)
Definition sync_stencil_func (state_op : GxmStencilStateOp)
    (state_vals : GxmStencilStateValues) (is_back_stencil : bool) : list StateCall :=
  let face := if is_back_stencil then GL_BACK else GL_FRONT in
  [ glStencilOpSeparate face
      (translate_stencil_op (stencil_fail state_op))
      (translate_stencil_op (depth_fail state_op))
      (translate_stencil_op (depth_pass state_op));
    glStencilFuncSeparate face (translate_stencil_func (func state_op))
      (ref state_vals) (compare_mask state_vals);
    glStencilMaskSeparate face (write_mask state_vals) ].

(** ** More sample inputs *)
Module Samples.
(** A program whose four attributes read registers 0, 4, 12 and 4 again,
    with a body that uses primary registers, and a host program that has
    not been through the check of stripped symbols. *)
Definition program : SceGxmVertexProgram :=
  {| attributes :=
       [ Fixture.position; Fixture.matrix; Fixture.undeclared;
         {| streamIndex := 1; offset := 0; format := 9; componentCount := 2;
            regIndex := 4 |} ];
     streams := [ {| stride := 32; indexSource := 0 |};
                  {| stride := 28; indexSource := 2 |} ];
     program_primary_reg_count := Some 3 |}.

Definition unchecked : GLVertexProgram :=
  {| attribute_infos := ∅; stripped_symbols_checked := false |}.

(** An attribute on a stream the program does not have. *)
Definition stray : SceGxmVertexAttribute :=
  {| streamIndex := 7; offset := 0; format := 9; componentCount := 1; regIndex := 0 |}.

Definition stray_program : SceGxmVertexProgram :=
  {| attributes := [Fixture.position; stray];
     streams := [ {| stride := 32; indexSource := 0 |} ];
     program_primary_reg_count := Some 0 |}.
End Samples.

(** ** Notions used to state properties of the two routines as a whole *)

(** The pointers of the pointer-setting calls of a trace, in call order. *)
Definition pointers (calls : list Call) : list (option Z) :=
  omap (λ c, snd <$> pointer_of c) calls.

(** The address of the texture that each unit has bound. [sync_texture]
    keeps no such record; it is the history of its own bindings: a
    resolution that passes the two guards binds a texture for the
    descriptor (a surface or an upload, lines 365-408), and one that
    returns at a guard leaves the unit's previous binding in place. *)
Definition bound_after {X : TextureCollaborators} (bound : gmap Z Z) (mem : MemState)
    (index : Z) (texture : SceGxmTexture) : gmap Z Z :=
  if aborts_early mem texture then bound
  else <[index := u32 (Z.shiftl (data_addr texture) 2)]> bound.

(** The self-sampling vector has no duplicates and holds only units whose
    bound texture is at the colour surface's address. *)
Definition self_sampling_consistent (context : GLContext) (bound : gmap Z Z) : Prop :=
  NoDup (self_sampling_indices context)
  ∧ ∀ j, j ∈ self_sampling_indices context →
         bound !! j = Some (color_surface_address context).

(** A run of resolutions, each with its memory, unit and descriptor. *)
Fixpoint resolve_units {X : TextureCollaborators} (state : GLState) (context : GLContext)
    (bound : gmap Z Z) (config : Config) (units : list (MemState * Z * SceGxmTexture))
  : GLState * GLContext * gmap Z Z :=
  match units with
  | [] => (state, context, bound)
  | (mem, index, texture) :: units =>
      let out := sync_texture state context mem index texture config in
      resolve_units out.1.1 out.1.2 (bound_after bound mem index texture) config units
  end.

(** * Properties *)

(** ** Arithmetic of the fixed-width types *)

Lemma wrap_small bits x : 0 ≤ x < 2 ^ bits → wrap bits x = x.
Proof. intros Hx. unfold wrap. by apply Z.mod_small. Qed.

Lemma wrap_range bits x : 0 ≤ bits → 0 ≤ wrap bits x < 2 ^ bits.
Proof. intros Hb. unfold wrap. apply Z.mod_pos_bound. by apply Z.pow_pos_nonneg. Qed.

Lemma u32_small x : 0 ≤ x < 2 ^ 32 → u32 x = x.
Proof. apply wrap_small. Qed.

Lemma u16_small x : 0 ≤ x < 2 ^ 16 → u16 x = x.
Proof. apply wrap_small. Qed.

(** [align x a] is the least multiple of [a] that is not below [x]. *)
Lemma align_round_up x a :
  0 < a → align x a mod a = 0 ∧ x ≤ align x a < x + a.
Proof.
  intros Ha. unfold align. split.
  - by apply Z.mod_mul; lia.
  - pose proof (Z.div_mod (x + (a - 1)) a ltac:(lia)) as Hdm.
    pose proof (Z.mod_pos_bound (x + (a - 1)) a Ha) as Hb.
    lia.
Qed.

Lemma round_up_unique x a s t :
  0 < a → s mod a = 0 → x ≤ s < x + a → t mod a = 0 → x ≤ t < x + a → s = t.
Proof.
  intros Ha Hs Hsx Ht Htx.
  apply Z.mod_divide in Hs as [p ->]; [|lia].
  apply Z.mod_divide in Ht as [q ->]; [|lia].
  assert (p = q) by nia. by subst.
Qed.

(** ** The self-sampling vector *)

Lemma find_index_None x l : find_index x l = None ↔ x ∉ l.
Proof.
  induction l as [|y l IH]; simpl.
  - split; [intros _; apply not_elem_of_nil | done].
  - destruct (Z.eqb_spec y x) as [->|Hne].
    + split; [done | intros Hn; exfalso; apply Hn; left].
    + rewrite not_elem_of_cons, <- IH.
      destruct (find_index x l); simpl; split; try done; intros [? ?]; done.
Qed.

Lemma find_index_Some x l i : find_index x l = Some i → l !! i = Some x.
Proof.
  revert i. induction l as [|y l IH]; intros i; simpl; [done|].
  destruct (Z.eqb_spec y x) as [->|Hne].
  - by intros [= <-].
  - destruct (find_index x l) as [j|]; simpl; [|done].
    intros [= <-]. by apply IH.
Qed.

Lemma erase_at_gone (l : list Z) i x :
  NoDup l → l !! i = Some x → x ∉ erase_at i l.
Proof.
  intros Hnd Hi. unfold erase_at.
  rewrite (delete_Permutation l i x Hi) in Hnd.
  by apply NoDup_cons in Hnd as [? _].
Qed.

Lemma erase_at_other (l : list Z) i x y :
  l !! i = Some x → y ≠ x → y ∈ erase_at i l ↔ y ∈ l.
Proof.
  intros Hi Hne. unfold erase_at.
  rewrite (delete_Permutation l i x Hi) at 2.
  rewrite elem_of_cons. split; [by right | by intros [?|?]].
Qed.

Lemma erase_at_NoDup (l : list Z) i : NoDup l → NoDup (erase_at i l).
Proof. intros Hnd. unfold erase_at. eapply sublist_NoDup; [done|]. apply sublist_delete. Qed.

(** ** Texture resolution *)

Section TextureFacts.
Context {X : TextureCollaborators}.
Implicit Types (state : GLState) (context : GLContext) (mem : MemState).
Implicit Types (index : Z) (texture : SceGxmTexture) (config : Config).

Lemma sync_texture_aborted state context mem index texture config :
  aborts_early mem texture = true →
  ∃ msg, sync_texture state context mem index texture config
         = (state, context, [LOG_WARN msg]).
Proof.
  unfold aborts_early, sync_texture. intros Habort.
  destruct (is_valid_addr_range _ _ _); simpl in *; [|by eexists].
  rewrite Habort. by eexists.
Qed.

(** Past the two guards the routine is its three stages in sequence. *)
Lemma sync_texture_resolved state context mem index texture config :
  aborts_early mem texture = false →
  let address := u32 (Z.shiftl (data_addr texture) 2) in
  let format := get_format texture in
  let base_format := get_base_format format in
  let resolved :=
    resolve_surface state (set_shader_hint context index format) mem index texture
      base_format address in
  let bound :=
    bind_resolved resolved.1.1.1 mem texture config format base_format resolved.1.2 in
  sync_texture state context mem index texture config
  = (bound.1, resolved.1.1.2,
     [glActiveTexture (u32 (GL_TEXTURE0 + index))]
     ++ resolved.2 ++ bound.2
     ++ (if dump_textures config then [texture_dump texture index] else [])
     ++ [glActiveTexture GL_TEXTURE0]).
Proof.
  unfold aborts_early, sync_texture. intros Hpass.
  apply orb_false_iff in Hpass as [Hvalid Hpal].
  rewrite Hvalid, Hpal. cbv zeta.
  destruct (resolve_surface _ _ _ _ _ _ _) as [[[state1 context1] r] lookups].
  simpl. by destruct (bind_resolved _ _ _ _ _ _ _) as [state2 binds].
Qed.

Lemma set_shader_hint_keeps context index format :
  self_sampling_indices (set_shader_hint context index format)
  = self_sampling_indices context
  ∧ color_surface_address (set_shader_hint context index format)
    = color_surface_address context
  ∧ current_color_attachment (set_shader_hint context index format)
    = current_color_attachment context.
Proof. unfold set_shader_hint. by destruct (_ <=? _). Qed.

Lemma resolve_alias_context state context mem index texture base_format address :
  let r := resolve_alias state context mem index texture base_format address in
  r.1.1.2
  = match find_index (u32 index) (self_sampling_indices context) with
    | Some res =>
        set_self_sampling_indices context (erase_at res (self_sampling_indices context))
    | None => context
    end.
Proof.
  unfold resolve_alias.
  destruct (lookup_color_surface _ _ _ _ _ _) as [[state1 r] lookups].
  destruct (texture_as_surface r =? 0); [|done].
  by destruct (retrieve_depth_stencil_texture_handle _ _ _ _ _ _).
Qed.

(** C7: a descriptor whose address range is not valid, and a paletted
    descriptor with a null palette address, make the resolution return
    after a single warning: no call reaches the backend or a cache, and
    the context (shader hints, self-sampling vector) and the renderer
    state come back as they were. *)
Theorem sync_texture_abort_untouched state context mem index texture config :
  let address := u32 (Z.shiftl (data_addr texture) 2) in
  is_valid_addr_range mem address (address + texture_size texture) = false
  ∨ (is_paletted_format (get_base_format (get_format texture)) = true
     ∧ palette_addr texture = 0) →
  ∃ msg, sync_texture state context mem index texture config
         = (state, context, [LOG_WARN msg])
         ∧ Forall (λ c, is_backend_call c = false) [LOG_WARN msg].
Proof.
  intros address Hbad.
  destruct (sync_texture_aborted state context mem index texture config) as [msg Hrun].
  - unfold aborts_early. fold address.
    destruct Hbad as [-> | [-> ->]]; [done|].
    by rewrite orb_true_r.
  - exists msg. split; [done|]. by repeat constructor.
Qed.
End TextureFacts.

Lemma sync_texture_abort_untouched_witness :
  ∃ msg,
    @sync_texture Fixture.textures Fixture.cache (Fixture.context 5 [3]) 0x100 3
      (Fixture.texture 0xC00 0 Fixture.U8U8U8U8 SCE_GXM_TEXTURE_TILED) Fixture.config
    = (Fixture.cache, Fixture.context 5 [3], [LOG_WARN msg])
    ∧ Forall (λ c, is_backend_call c = false) [LOG_WARN msg].
Proof.
  apply (@sync_texture_abort_untouched Fixture.textures).
  left. reflexivity.
Defined.

Section SelfSampling.
Context {X : TextureCollaborators}.
Implicit Types (state : GLState) (context : GLContext) (mem : MemState).
Implicit Types (index : Z) (texture : SceGxmTexture) (config : Config).

Lemma remap_channel_quiet swizzle surface i :
  Forall quiet (remap_channel swizzle surface i).
Proof.
  unfold remap_channel. destruct (_ || _); [by repeat constructor|].
  destruct (List.find _ _); by repeat constructor.
Qed.

Lemma reconcile_swizzle_quiet swizzle surface :
  Forall quiet (reconcile_swizzle swizzle surface).
Proof.
  unfold reconcile_swizzle. destruct surface as [surface|]; [|by repeat constructor].
  destruct (negb _); [|by repeat constructor].
  simpl. rewrite app_nil_r. repeat (apply Forall_app; split); apply remap_channel_quiet.
Qed.

Lemma bind_resolved_surface state mem texture config format base_format r :
  texture_as_surface r ≠ 0 →
  ∃ rest,
    bind_resolved state mem texture config format base_format r
    = (state, glBindTexture GL_TEXTURE_2D (u32 (texture_as_surface r)) :: rest)
    ∧ Forall quiet rest.
Proof.
  intros Hsurface. unfold bind_resolved.
  apply Z.eqb_neq in Hsurface. rewrite Hsurface. simpl.
  eexists. split; [done|].
  apply Forall_app. split.
  - destruct (only_nearest r); by repeat constructor.
  - destruct (negb _); [|constructor].
    destruct (texture_translate_swizzle format); [|constructor].
    apply reconcile_swizzle_quiet.
Qed.

Lemma bind_resolved_no_lookup state mem texture config format base_format r :
  Forall (λ c, is_surface_cache_lookup c = false)
    (bind_resolved state mem texture config format base_format r).2.
Proof.
  destruct (decide (texture_as_surface r = 0)) as [Hz|Hnz].
  - unfold bind_resolved. rewrite Hz. simpl.
    destruct (texture_cache config); by repeat constructor.
  - destruct (bind_resolved_surface state mem texture config format base_format r Hnz)
      as (rest & -> & Hrest).
    simpl. constructor; [done|].
    eapply Forall_impl; [exact Hrest|]. by intros c [? _].
Qed.

Lemma resolve_self_sample_indices context index :
  0 ≤ index < 2 ^ 32 →
  self_sampling_indices (resolve_self_sample context index).1
  = if decide (index ∈ self_sampling_indices context)
    then self_sampling_indices context
    else self_sampling_indices context ++ [index].
Proof.
  intros Hindex. unfold resolve_self_sample. simpl.
  destruct (find_index index (self_sampling_indices context)) as [pos|] eqn:Hfind.
  - apply find_index_Some in Hfind.
    rewrite decide_True; [done|]. by eapply list_elem_of_lookup_2.
  - apply find_index_None in Hfind.
    rewrite decide_False by done. by rewrite u32_small.
Qed.

(** C1, as the code has it: when the resolution passes both guards and the
    descriptor's address is that of the colour surface, the unit index is
    appended to the self-sampling vector unless it is already there and
    no call goes to the surface cache; when moreover the current colour
    attachment is not the null handle, the handle (as a GLuint) is bound
    right after the unit is selected and the texture cache is not asked
    to upload anything. *)
Theorem sync_texture_self_sample state context mem index texture config :
  let address := u32 (Z.shiftl (data_addr texture) 2) in
  let out := sync_texture state context mem index texture config in
  aborts_early mem texture = false →
  color_surface_address context = address →
  0 ≤ index < 2 ^ 32 →
  self_sampling_indices out.1.2
  = (if decide (index ∈ self_sampling_indices context)
     then self_sampling_indices context
     else self_sampling_indices context ++ [index])
  ∧ Forall (λ c, is_surface_cache_lookup c = false) out.2
  ∧ (current_color_attachment context ≠ 0 →
     ∃ rest,
       out.2 = glActiveTexture (u32 (GL_TEXTURE0 + index))
               :: glBindTexture GL_TEXTURE_2D (u32 (current_color_attachment context))
               :: rest
       ∧ Forall (λ c, is_texture_upload c = false) rest).
Proof.
  intros address out Hpass Hsame Hindex. subst out.
  rewrite (sync_texture_resolved _ _ _ _ _ _ Hpass). cbv zeta. fold address.
  pose proof (set_shader_hint_keeps context index (get_format texture))
    as (Hkeep & Haddr & Hattach).
  unfold resolve_surface. rewrite Haddr, Hsame, Z.eqb_refl.
  set (hinted := set_shader_hint context index (get_format texture)) in *.
  pose proof (resolve_self_sample_indices hinted index Hindex) as Hset.
  destruct (resolve_self_sample hinted index) as [context1 r] eqn:Hself.
  simpl in *. rewrite Hkeep in Hset. split; [exact Hset|].
  assert (texture_as_surface r = current_color_attachment context) as Hhandle.
  { unfold resolve_self_sample in Hself. injection Hself as _ <-. simpl. done. }
  split.
  - constructor; [done|]. apply Forall_app. split; [apply bind_resolved_no_lookup|].
    apply Forall_app. split; [destruct (dump_textures config)|]; by repeat constructor.
  - intros Hnz.
    destruct (bind_resolved_surface state mem texture config (get_format texture)
                (get_base_format (get_format texture)) r) as (rest & -> & Hrest).
    { by rewrite Hhandle. }
    simpl. rewrite Hhandle. eexists. split; [done|].
    apply Forall_app. split.
    + eapply Forall_impl; [exact Hrest|]. by intros c [_ ?].
    + apply Forall_app. split; [destruct (dump_textures config)|]; by repeat constructor.
Qed.
End SelfSampling.

Lemma sync_texture_self_sample_witness :
  let context := Fixture.context 5 [1] in
  let texture := Fixture.texture 0x400 0 Fixture.U8U8U8U8 SCE_GXM_TEXTURE_LINEAR in
  let out :=
    @sync_texture Fixture.textures Fixture.cache context 0x100000 3 texture Fixture.config in
  self_sampling_indices out.1.2
  = (if decide (3 ∈ self_sampling_indices context)
     then self_sampling_indices context
     else self_sampling_indices context ++ [3])
  ∧ Forall (λ c, is_surface_cache_lookup c = false) out.2
  ∧ (current_color_attachment context ≠ 0 →
     ∃ rest,
       out.2 = glActiveTexture (u32 (GL_TEXTURE0 + 3))
               :: glBindTexture GL_TEXTURE_2D (u32 (current_color_attachment context))
               :: rest
       ∧ Forall (λ c, is_texture_upload c = false) rest).
Proof.
  apply (@sync_texture_self_sample Fixture.textures); [reflexivity | reflexivity | lia].
Defined.

(** C1 as stated fails on two inputs whose address is that of the colour
    surface: a paletted descriptor with a null palette (the resolution
    returns at the guard: nothing is bound and unit 3 is not recorded), and
    a context whose colour attachment is the null handle (the texture cache
    uploads instead and no surface is bound). *)
Lemma self_sample_not_for_every_matching_address :
  let paletted := Fixture.texture 0x400 0 Fixture.P8 SCE_GXM_TEXTURE_LINEAR in
  let plain := Fixture.texture 0x400 0 Fixture.U8U8U8U8 SCE_GXM_TEXTURE_LINEAR in
  let guarded :=
    @sync_texture Fixture.textures Fixture.cache (Fixture.context 5 []) 0x100000 3
      paletted Fixture.config in
  let unattached :=
    @sync_texture Fixture.textures Fixture.cache (Fixture.context 0 []) 0x100000 3
      plain Fixture.config in
  (color_surface_address (Fixture.context 5 []) = u32 (Z.shiftl (data_addr paletted) 2)
   ∧ (glBindTexture GL_TEXTURE_2D 5 ∉ guarded.2)
   ∧ (3 ∉ self_sampling_indices guarded.1.2))
  ∧ (color_surface_address (Fixture.context 0 []) = u32 (Z.shiftl (data_addr plain) 2)
     ∧ (unattached.2
        = [glActiveTexture (GL_TEXTURE0 + 3); texture_cache_upload true plain;
           glActiveTexture GL_TEXTURE0])).
Proof.
  vm_compute. repeat split.
  - intros Hin. apply list_elem_of_singleton in Hin. discriminate.
  - apply not_elem_of_nil.
Qed.

Section SelfSamplingInvariant.
Context {X : TextureCollaborators}.
Implicit Types (state : GLState) (context : GLContext) (mem : MemState).
Implicit Types (index : Z) (texture : SceGxmTexture) (config : Config).

(** One resolution: a resolution that returns at one of the two
    guards leaves the self-sampling vector as it was; a resolution that
    passes them leaves the resolved unit in the vector exactly when the
    descriptor's address is that of the colour surface, changes the
    membership of no other unit and keeps the vector free of duplicates. *)
Theorem self_sampling_after_resolution state context mem index texture config :
  let address := u32 (Z.shiftl (data_addr texture) 2) in
  let context' := (sync_texture state context mem index texture config).1.2 in
  NoDup (self_sampling_indices context) →
  0 ≤ index < 2 ^ 32 →
  (aborts_early mem texture = true →
   self_sampling_indices context' = self_sampling_indices context)
  ∧ (aborts_early mem texture = false →
     (index ∈ self_sampling_indices context'
      ↔ color_surface_address context' = address)
     ∧ (∀ j, j ≠ index →
             j ∈ self_sampling_indices context' ↔ j ∈ self_sampling_indices context)
     ∧ NoDup (self_sampling_indices context')).
Proof.
  intros address context' Hnodup Hindex. subst context'. split.
  - intros Habort.
    destruct (sync_texture_aborted state context mem index texture config Habort)
      as [msg ->].
    done.
  - intros Hpass.
    rewrite (sync_texture_resolved _ _ _ _ _ _ Hpass). cbv zeta. fold address. simpl.
    pose proof (set_shader_hint_keeps context index (get_format texture))
      as (Hkeep & Haddr & _).
    set (hinted := set_shader_hint context index (get_format texture)) in *.
    unfold resolve_surface.
    destruct (Z.eqb_spec (color_surface_address hinted) address) as [Heq|Hne].
    + pose proof (resolve_self_sample_indices hinted index Hindex) as Hset.
      destruct (resolve_self_sample hinted index) as [context1 r] eqn:Hself.
      assert (color_surface_address context1 = address) as Haddr1.
      { unfold resolve_self_sample in Hself. injection Hself as <- _. done. }
      simpl in *. rewrite Hset, Hkeep. clear Hset.
      destruct (decide (index ∈ self_sampling_indices context)) as [Hin|Hnin].
      * split_and!; [done | done | done].
      * split_and!.
        -- split; [done|]. intros _. apply elem_of_app. right. by left.
        -- intros j Hj. rewrite elem_of_app, list_elem_of_singleton.
           split; [by intros [?|?] | by left].
        -- apply NoDup_app. split_and!; [done | | apply NoDup_singleton].
           intros y Hy Hy'. apply list_elem_of_singleton in Hy'. by subst.
    + rewrite resolve_alias_context. rewrite Hkeep, (u32_small index Hindex).
      destruct (find_index index (self_sampling_indices context)) as [res|] eqn:Hfind.
      * apply find_index_Some in Hfind. simpl. split_and!.
        -- split; [|by intros ?].
           intros Hin. by apply (erase_at_gone _ res index Hnodup Hfind) in Hin.
        -- intros j Hj. by apply (erase_at_other _ res index).
        -- by apply erase_at_NoDup.
      * apply find_index_None in Hfind. rewrite Hkeep. split_and!; [|done|done].
        split; [done | by intros ?].
Qed.
End SelfSamplingInvariant.

Lemma self_sampling_after_resolution_witness :
  let context := Fixture.context 5 [3; 1] in
  let texture := Fixture.texture 0x800 0 Fixture.U8U8U8U8 SCE_GXM_TEXTURE_LINEAR in
  let context' :=
    (@sync_texture Fixture.textures Fixture.cache context 0x100000 3 texture
       Fixture.config).1.2 in
  (@aborts_early Fixture.textures 0x100000 texture = true →
   self_sampling_indices context' = self_sampling_indices context)
  ∧ (@aborts_early Fixture.textures 0x100000 texture = false →
     (3 ∈ self_sampling_indices context'
      ↔ color_surface_address context' = u32 (Z.shiftl (data_addr texture) 2))
     ∧ (∀ j, j ≠ 3 →
             j ∈ self_sampling_indices context' ↔ j ∈ self_sampling_indices context)
     ∧ NoDup (self_sampling_indices context')).
Proof.
  apply (@self_sampling_after_resolution Fixture.textures); [|lia].
  vm_compute. apply NoDup_cons. split.
  - intros Hin. apply list_elem_of_singleton in Hin. discriminate.
  - apply NoDup_singleton.
Defined.

(** ** Swizzle reconciliation *)

Lemma memcmp16_equal_spec a b : memcmp16_equal a b = true ↔ a = b.
Proof.
  destruct a as [ar ag ab aa], b as [br bg bb ba]. unfold memcmp16_equal. simpl.
  rewrite !andb_true_iff, !Z.eqb_eq. split.
  - by intros [[[-> ->] ->] ->].
  - by intros [= -> -> -> ->].
Qed.

Lemma find_first_position v surface j :
  0 ≤ j < 4 →
  sw_at surface j = v →
  (∀ k, 0 ≤ k < j → sw_at surface k ≠ v) →
  List.find (λ j, v =? sw_at surface j) [0; 1; 2; 3] = Some j.
Proof.
  intros Hj Hat Hfirst.
  assert (∀ k, 0 ≤ k < j → (v =? sw_at surface k) = false) as Hmiss.
  { intros k Hk. apply Z.eqb_neq. intros ->. by apply (Hfirst k). }
  assert ((v =? sw_at surface j) = true) as Hhit by (by apply Z.eqb_eq).
  assert (j = 0 ∨ j = 1 ∨ j = 2 ∨ j = 3) as [-> | [-> | [-> | ->]]] by lia;
    cbn [List.find]; rewrite ?(Hmiss 0), ?(Hmiss 1), ?(Hmiss 2), ?Hhit by lia; done.
Qed.

(** The reconciliation itself: with a surface swizzle at hand, identical swizzles give the identity
    mapping RED, GREEN, BLUE, ALPHA; otherwise the four output channels are
    set in turn, a declared selector outside RED..ALPHA being passed on as
    it is and a colour selector becoming RED plus the first position of the
    surface swizzle that holds it. *)
Theorem reconcile_swizzle_surface_alias (swizzle surface : swizzle4) :
  (surface = swizzle →
   reconcile_swizzle swizzle (Some surface)
   = [glTexParameteriv GL_TEXTURE_2D GL_TEXTURE_SWIZZLE_RGBA
        (Swizzle GL_RED GL_GREEN GL_BLUE GL_ALPHA)])
  ∧ (surface ≠ swizzle →
     reconcile_swizzle swizzle (Some surface)
     = remap_channel swizzle surface 0 ++ remap_channel swizzle surface 1
       ++ remap_channel swizzle surface 2 ++ remap_channel swizzle surface 3
     ∧ ∀ i, 0 ≤ i < 4 →
         (¬ (GL_RED ≤ sw_at swizzle i ≤ GL_ALPHA) →
          remap_channel swizzle surface i
          = [glTexParameteri GL_TEXTURE_2D (GL_TEXTURE_SWIZZLE_R + i) (sw_at swizzle i)])
         ∧ (GL_RED ≤ sw_at swizzle i ≤ GL_ALPHA →
            ∀ j, 0 ≤ j < 4 →
              sw_at surface j = sw_at swizzle i →
              (∀ k, 0 ≤ k < j → sw_at surface k ≠ sw_at swizzle i) →
              remap_channel swizzle surface i
              = [glTexParameteri GL_TEXTURE_2D (GL_TEXTURE_SWIZZLE_R + i) (GL_RED + j)])).
Proof.
  split.
  - intros Hsame. apply memcmp16_equal_spec in Hsame.
    unfold reconcile_swizzle. by rewrite Hsame.
  - intros Hdiff.
    assert (memcmp16_equal surface swizzle = false) as Hcmp.
    { apply not_true_iff_false. by rewrite memcmp16_equal_spec. }
    split.
    + unfold reconcile_swizzle. rewrite Hcmp. simpl. by rewrite app_nil_r.
    + intros i Hi. unfold remap_channel. split.
      * intros Hfixed.
        assert ((sw_at swizzle i <? GL_RED) || (GL_ALPHA <? sw_at swizzle i) = true) as ->;
          [|done].
        apply orb_true_iff. rewrite !Z.ltb_lt. lia.
      * intros Hcolour j Hj Hat Hfirst.
        assert ((sw_at swizzle i <? GL_RED) || (GL_ALPHA <? sw_at swizzle i) = false) as ->.
        { apply orb_false_iff. rewrite !Z.ltb_ge. lia. }
        by rewrite (find_first_position _ surface j Hj Hat Hfirst).
Qed.

Lemma reconcile_swizzle_surface_alias_witness :
  reconcile_swizzle (Swizzle GL_BLUE GL_GREEN GL_RED GL_ONE)
    (Some (Swizzle GL_RED GL_GREEN GL_BLUE GL_ALPHA))
  = remap_channel (Swizzle GL_BLUE GL_GREEN GL_RED GL_ONE)
      (Swizzle GL_RED GL_GREEN GL_BLUE GL_ALPHA) 0
    ++ remap_channel (Swizzle GL_BLUE GL_GREEN GL_RED GL_ONE)
         (Swizzle GL_RED GL_GREEN GL_BLUE GL_ALPHA) 1
    ++ remap_channel (Swizzle GL_BLUE GL_GREEN GL_RED GL_ONE)
         (Swizzle GL_RED GL_GREEN GL_BLUE GL_ALPHA) 2
    ++ remap_channel (Swizzle GL_BLUE GL_GREEN GL_RED GL_ONE)
         (Swizzle GL_RED GL_GREEN GL_BLUE GL_ALPHA) 3
  ∧ remap_channel (Swizzle GL_BLUE GL_GREEN GL_RED GL_ONE)
      (Swizzle GL_RED GL_GREEN GL_BLUE GL_ALPHA) 0
    = [glTexParameteri GL_TEXTURE_2D (GL_TEXTURE_SWIZZLE_R + 0) (GL_RED + 2)]
  ∧ remap_channel (Swizzle GL_BLUE GL_GREEN GL_RED GL_ONE)
      (Swizzle GL_RED GL_GREEN GL_BLUE GL_ALPHA) 3
    = [glTexParameteri GL_TEXTURE_2D (GL_TEXTURE_SWIZZLE_R + 3) GL_ONE].
Proof.
  destruct (reconcile_swizzle_surface_alias (Swizzle GL_BLUE GL_GREEN GL_RED GL_ONE)
              (Swizzle GL_RED GL_GREEN GL_BLUE GL_ALPHA)) as [_ Hremap].
  destruct Hremap as [Hall Hchannel]; [discriminate|].
  split; [exact Hall|]. split.
  - apply (proj2 (Hchannel 0 ltac:(lia)));
      [simpl; unfold GL_RED, GL_BLUE, GL_ALPHA; lia | lia | reflexivity |].
    intros k Hk. assert (k = 0 ∨ k = 1) as [-> | ->] by lia; discriminate.
  - apply (proj1 (Hchannel 3 ltac:(lia))). simpl. unfold GL_RED, GL_ONE. lia.
Defined.

(** ** Surface-alias lookups *)

Section SurfaceAlias.
Context {X : TextureCollaborators}.
Implicit Types (state : GLState) (context : GLContext) (mem : MemState).
Implicit Types (index : Z) (texture : SceGxmTexture) (config : Config).

Lemma stride_linear_strided texture base_format width :
  texture_type texture = SCE_GXM_TEXTURE_LINEAR_STRIDED →
  0 ≤ get_stride_in_bytes texture < 2 ^ 16 →
  0 < bits_per_pixel base_format →
  stride_in_pixels texture base_format width
  = get_stride_in_bytes texture / ((bits_per_pixel base_format + 7) / 8).
Proof.
  intros Htype Hstride Hbits. unfold stride_in_pixels. rewrite Htype.
  rewrite (u16_small (get_stride_in_bytes texture)) by done.
  rewrite Z.shiftr_div_pow2 by lia. change (2 ^ 3) with 8.
  assert (1 ≤ (bits_per_pixel base_format + 7) / 8) as Hbytes.
  { apply Z.div_le_lower_bound; lia. }
  apply u16_small. split.
  - apply Z.div_pos; lia.
  - eapply Z.le_lt_trans; [|apply Hstride].
    apply Z.div_le_upper_bound; nia.
Qed.

Lemma stride_aligned texture base_format width a :
  (a = 8 ∧ texture_type texture = SCE_GXM_TEXTURE_LINEAR)
  ∨ (a = 32 ∧ texture_type texture = SCE_GXM_TEXTURE_TILED) →
  0 ≤ width ≤ 2 ^ 16 - a →
  let stride := stride_in_pixels texture base_format width in
  stride mod a = 0 ∧ width ≤ stride < width + a.
Proof.
  intros Hcase Hwidth stride. subst stride. unfold stride_in_pixels.
  assert (0 < a) as Ha by (destruct Hcase as [[-> _]|[-> _]]; lia).
  pose proof (align_round_up width a Ha) as [Hmod Hnear].
  assert (stride_in_pixels texture base_format width = align width a) as Hstride.
  { unfold stride_in_pixels.
    destruct Hcase as [[-> ->]|[-> ->]]; apply u16_small; lia. }
  unfold stride_in_pixels in Hstride. by rewrite Hstride.
Qed.

Lemma resolve_alias_lookup state context mem index texture base_format address :
  let width := u16 (get_width texture) in
  let height := u16 (get_height texture) in
  ∃ rest,
    (resolve_alias state context mem index texture base_format address).2
    = (lookup_color_surface state texture base_format address width height).2 ++ rest.
Proof.
  intros width height. unfold resolve_alias. fold width height.
  destruct (lookup_color_surface _ _ _ _ _ _) as [[state1 r] lookups]. simpl.
  destruct (texture_as_surface r =? 0).
  - destruct (retrieve_depth_stencil_texture_handle _ _ _ _ _ _). by eexists.
  - exists []. by rewrite app_nil_r.
Qed.

(** C6: when the descriptor is looked up as a cached colour surface, the
    row stride handed to the surface cache is, for a linear-strided
    texture, the stride in bytes divided by the bytes per pixel of the
    base format; for a linear texture, the width rounded up to a multiple
    of 8; for a tiled texture, the width rounded up to a multiple of 32
    (the values being those of a 16-bit unsigned stride). *)
Theorem alias_lookup_stride state context mem index texture config target :
  let address := u32 (Z.shiftl (data_addr texture) 2) in
  let base_format := get_base_format (get_format texture) in
  let width := get_width texture in
  aborts_early mem texture = false →
  color_surface_address context ≠ address →
  convert_base_texture_format_to_base_color_format base_format = Some target →
  ∃ stride,
    surface_cache_color_lookup (u16 width) (u16 (get_height texture)) stride target
      address
    ∈ (sync_texture state context mem index texture config).2
    ∧ (texture_type texture = SCE_GXM_TEXTURE_LINEAR_STRIDED →
       0 ≤ get_stride_in_bytes texture < 2 ^ 16 →
       0 < bits_per_pixel base_format →
       stride = get_stride_in_bytes texture / ((bits_per_pixel base_format + 7) / 8))
    ∧ (texture_type texture = SCE_GXM_TEXTURE_LINEAR →
       0 ≤ width ≤ 2 ^ 16 - 8 →
       stride mod 8 = 0 ∧ width ≤ stride < width + 8)
    ∧ (texture_type texture = SCE_GXM_TEXTURE_TILED →
       0 ≤ width ≤ 2 ^ 16 - 32 →
       stride mod 32 = 0 ∧ width ≤ stride < width + 32).
Proof.
  intros address base_format width Hpass Hother Hconvert.
  exists (stride_in_pixels texture base_format (u16 width)). split_and!.
  - rewrite (sync_texture_resolved _ _ _ _ _ _ Hpass). cbv zeta.
    fold address base_format. simpl.
    pose proof (set_shader_hint_keeps context index (get_format texture))
      as (_ & Haddr & _).
    unfold resolve_surface. rewrite Haddr.
    apply Z.eqb_neq in Hother. rewrite Hother.
    destruct (resolve_alias_lookup state
                (set_shader_hint context index (get_format texture)) mem index texture
                base_format address) as [rest ->].
    unfold lookup_color_surface. rewrite Hconvert.
    destruct (retrieve_color_surface_texture_handle _ _ _ _ _ _) as [[hc swz] stc].
    simpl. right. left.
  - intros Htype Hstride Hbits. by apply stride_linear_strided.
  - intros Htype Hwidth.
    rewrite (u16_small width) by lia.
    apply (stride_aligned texture base_format width 8); [by left | lia].
  - intros Htype Hwidth.
    rewrite (u16_small width) by lia.
    apply (stride_aligned texture base_format width 32); [by right | lia].
Qed.

(** C8: when the colour-surface lookup yields no surface (or is not made
    because the base format has no colour base format) and the
    depth-stencil lookup at the texture's address returns a surface, that
    surface is bound and its minifying and magnifying filters are both
    set to nearest. *)
Theorem depth_stencil_alias_forces_nearest state context mem index texture config :
  let address := u32 (Z.shiftl (data_addr texture) 2) in
  let base_format := get_base_format (get_format texture) in
  let width := u16 (get_width texture) in
  let height := u16 (get_height texture) in
  let colour := lookup_color_surface state texture base_format address width height in
  let depth :=
    retrieve_depth_stencil_texture_handle colour.1.1 mem address width height true in
  aborts_early mem texture = false →
  color_surface_address context ≠ address →
  texture_as_surface colour.1.2 = 0 →
  depth.1 ≠ 0 →
  ∃ before after,
    (sync_texture state context mem index texture config).2
    = before
      ++ [surface_cache_depth_stencil_lookup address width height true;
          glBindTexture GL_TEXTURE_2D (u32 depth.1);
          glTexParameteri GL_TEXTURE_2D GL_TEXTURE_MIN_FILTER GL_NEAREST;
          glTexParameteri GL_TEXTURE_2D GL_TEXTURE_MAG_FILTER GL_NEAREST]
      ++ after.
Proof.
  intros address base_format width height colour depth Hpass Hother Hmiss Hhit.
  rewrite (sync_texture_resolved _ _ _ _ _ _ Hpass). cbv zeta.
  fold address base_format. simpl.
  pose proof (set_shader_hint_keeps context index (get_format texture))
    as (_ & Haddr & _).
  unfold resolve_surface. rewrite Haddr.
  apply Z.eqb_neq in Hother. rewrite Hother.
  unfold resolve_alias. fold width height colour.
  subst depth. destruct colour as [[state1 r] lookups]. simpl in *.
  rewrite Hmiss. simpl.
  destruct (retrieve_depth_stencil_texture_handle state1 mem address width height true)
    as [handle state2].
  simpl in *. unfold bind_resolved. simpl.
  apply Z.eqb_neq in Hhit. rewrite Hhit. simpl.
  exists (glActiveTexture (u32 (GL_TEXTURE0 + index)) :: lookups). eexists.
  rewrite <- !app_assoc. simpl. reflexivity.
Qed.
End SurfaceAlias.

Lemma alias_lookup_stride_witness :
  let texture := Fixture.texture 0x800 0 Fixture.U8U8U8U8 SCE_GXM_TEXTURE_LINEAR in
  ∃ stride,
    surface_cache_color_lookup (u16 (@get_width Fixture.textures texture))
      (u16 (@get_height Fixture.textures texture)) stride 0
      (u32 (Z.shiftl (data_addr texture) 2))
    ∈ (@sync_texture Fixture.textures Fixture.cache (Fixture.context 5 []) 0x100000 3
         texture Fixture.config).2
    ∧ (texture_type texture = SCE_GXM_TEXTURE_LINEAR_STRIDED →
       0 ≤ @get_stride_in_bytes Fixture.textures texture < 2 ^ 16 →
       0 < @bits_per_pixel Fixture.textures
             (@get_base_format Fixture.textures (@get_format Fixture.textures texture)) →
       stride
       = @get_stride_in_bytes Fixture.textures texture
         / ((@bits_per_pixel Fixture.textures
               (@get_base_format Fixture.textures (@get_format Fixture.textures texture))
             + 7) / 8))
    ∧ (texture_type texture = SCE_GXM_TEXTURE_LINEAR →
       0 ≤ @get_width Fixture.textures texture ≤ 2 ^ 16 - 8 →
       stride mod 8 = 0
       ∧ @get_width Fixture.textures texture ≤ stride
         < @get_width Fixture.textures texture + 8)
    ∧ (texture_type texture = SCE_GXM_TEXTURE_TILED →
       0 ≤ @get_width Fixture.textures texture ≤ 2 ^ 16 - 32 →
       stride mod 32 = 0
       ∧ @get_width Fixture.textures texture ≤ stride
         < @get_width Fixture.textures texture + 32).
Proof.
  apply (@alias_lookup_stride Fixture.textures Fixture.cache (Fixture.context 5 [])
           0x100000 3 _ Fixture.config 0);
    [reflexivity | vm_compute; discriminate | reflexivity].
Defined.

Lemma depth_stencil_alias_forces_nearest_witness :
  let texture := Fixture.texture 0xC00 0 Fixture.U8U8U8U8 SCE_GXM_TEXTURE_TILED in
  ∃ before after,
    (@sync_texture Fixture.textures Fixture.cache (Fixture.context 5 []) 0x100000 3
       texture Fixture.config).2
    = before
      ++ [surface_cache_depth_stencil_lookup 0x3000 60 30 true;
          glBindTexture GL_TEXTURE_2D 12;
          glTexParameteri GL_TEXTURE_2D GL_TEXTURE_MIN_FILTER GL_NEAREST;
          glTexParameteri GL_TEXTURE_2D GL_TEXTURE_MAG_FILTER GL_NEAREST]
      ++ after.
Proof.
  apply (@depth_stencil_alias_forces_nearest Fixture.textures Fixture.cache
           (Fixture.context 5 []) 0x100000 3
           (Fixture.texture 0xC00 0 Fixture.U8U8U8U8 SCE_GXM_TEXTURE_TILED)
           Fixture.config);
    [reflexivity | vm_compute; discriminate | reflexivity | vm_compute; discriminate].
Defined.

(** ** Staging of the vertex streams *)

Section Staging.
Context {V : VertexCollaborators}.
Implicit Types (ring : RingBuffer) (s : VertexStreamData).
Implicit Types (vertex_streams : list VertexStreamData).

Lemma stage_streams_cons ring s rest :
  stage_streams ring (s :: rest)
  = let one := stage_stream ring s in
    let more := stage_streams one.1.1.1 rest in
    (more.1.1.1, one.1.1.2 :: more.1.1.2, one.1.2 :: more.1.2, one.2 ++ more.2).
Proof.
  simpl. destruct (stage_stream ring s) as [[[ring1 s1] entry] calls]. simpl.
  by destruct (stage_streams ring1 rest) as [[[ring2 rest2] offsets] calls2].
Qed.

Lemma stage_stream_idle ring s :
  data s = 0 → stage_stream ring s = (ring, s, Some 0, []).
Proof. intros Hnull. unfold stage_stream. by rewrite Hnull. Qed.

Lemma stage_stream_pending ring s :
  data s ≠ 0 →
  stage_stream ring s
  = ((allocate ring (size s)).2, {| data := 0; size := 0 |}, (allocate ring (size s)).1,
     ring_buffer_allocate (size s)
     :: match (allocate ring (size s)).1 with
        | None => [LOG_ERROR "Failed to allocate vertex stream data from GPU!"]
        | Some off => [memcpy_to_ring off (data s) (size s)]
        end).
Proof.
  intros Hdata. unfold stage_stream. apply Z.eqb_neq in Hdata. rewrite Hdata. simpl.
  by destruct (allocate ring (size s)) as [result ring1].
Qed.

(** Entry [i] of the results comes from the loop body run on stream [i],
    with the ring as the streams before it left it. *)
Lemma stage_streams_lookup ring vertex_streams (i : nat) s :
  vertex_streams !! i = Some s →
  let ring_i := (stage_streams ring (take i vertex_streams)).1.1.1 in
  (stage_streams ring vertex_streams).1.1.2 !! i = Some (stage_stream ring_i s).1.1.2
  ∧ (stage_streams ring vertex_streams).1.2 !! i = Some (stage_stream ring_i s).1.2.
Proof.
  revert ring i. induction vertex_streams as [|s0 rest IH]; intros ring i Hi; [done|].
  destruct i as [|i].
  - injection Hi as ->. rewrite stage_streams_cons. done.
  - simpl in Hi. rewrite firstn_cons, !stage_streams_cons. cbv zeta. simpl.
    by apply IH.
Qed.

Lemma stage_streams_cleared ring vertex_streams :
  Forall (λ s, data s = 0) (stage_streams ring vertex_streams).1.1.2.
Proof.
  revert ring. induction vertex_streams as [|s rest IH]; intros ring; [constructor|].
  rewrite stage_streams_cons. cbv zeta. simpl. constructor; [|apply IH].
  unfold stage_stream. destruct (Z.eqb_spec (data s) 0) as [Hnull|Hdata]; simpl; [done|].
  by destruct (allocate ring (size s)).
Qed.

Lemma stage_streams_idle ring vertex_streams :
  Forall (λ s, data s = 0) vertex_streams →
  stage_streams ring vertex_streams
  = (ring, vertex_streams, replicate (length vertex_streams) (Some 0), []).
Proof.
  induction 1 as [|s rest Hnull _ IH]; [done|].
  rewrite stage_streams_cons, (stage_stream_idle _ _ Hnull). cbv zeta. simpl.
  by rewrite IH.
Qed.

(** The staging loop: a stream with a non-null data pointer comes out of
    the loop with a null pointer and size 0 whether or not its allocation
    succeeded, and its entry of the offset array is the allocation's result:
    the offset on success, nothing written when the write pointer is null;
    a stream without data keeps its fields and gets offset 0. As every
    stream is then without data, staging the same streams again asks the
    allocator for nothing. *)
Theorem stage_streams_clears_pending ring vertex_streams :
  let staged := stage_streams ring vertex_streams in
  (∀ (i : nat) s,
     vertex_streams !! i = Some s →
     let ring_i := (stage_streams ring (take i vertex_streams)).1.1.1 in
     (data s ≠ 0 →
      staged.1.1.2 !! i = Some {| data := 0; size := 0 |}
      ∧ staged.1.2 !! i = Some (allocate ring_i (size s)).1
      ∧ ((allocate ring_i (size s)).1 = None → staged.1.2 !! i = Some None))
     ∧ (data s = 0 →
        staged.1.1.2 !! i = Some s ∧ staged.1.2 !! i = Some (Some 0)))
  ∧ (∀ ring',
       stage_streams ring' staged.1.1.2
       = (ring', staged.1.1.2, replicate (length staged.1.1.2) (Some 0), [])).
Proof.
  intros staged. subst staged. split.
  - intros i s Hi ring_i.
    destruct (stage_streams_lookup ring vertex_streams i s Hi) as [Hstream Hentry].
    fold ring_i in Hstream, Hentry. split.
    + intros Hdata. rewrite (stage_stream_pending _ _ Hdata) in Hstream, Hentry.
      simpl in *. split_and!; [done | done |].
      intros Hfail. by rewrite Hentry, Hfail.
    + intros Hnull. by rewrite (stage_stream_idle _ _ Hnull) in Hstream, Hentry.
  - intros ring'. apply stage_streams_idle, stage_streams_cleared.
Qed.
End Staging.

Lemma stage_streams_clears_pending_witness :
  let staged := @stage_streams Fixture.vertices (1000, 1024) Fixture.vertex_streams in
  staged.1.1.2 !! 1%nat = Some {| data := 0; size := 0 |}
  ∧ staged.1.2 !! 1%nat = Some None
  ∧ staged.1.2 !! 2%nat = Some (Some 0).
Proof.
  pose proof (@stage_streams_clears_pending Fixture.vertices (1000, 1024)
                Fixture.vertex_streams) as [Hentries _].
  split_and!.
  - apply (proj1 (Hentries 1%nat {| data := 0x6000; size := 56 |} eq_refl)). discriminate.
  - apply (proj1 (Hentries 1%nat {| data := 0x6000; size := 56 |} eq_refl));
      [discriminate | reflexivity].
  - apply (proj2 (Hentries 2%nat {| data := 0; size := 0 |} eq_refl)). reflexivity.
Defined.

(** ** Attribute layout and binding *)

Lemma flat_map_agree {A B} (f g : A → list B) (l : list A) :
  Forall (λ x, f x = g x) l → flat_map f l = flat_map g l.
Proof. induction 1 as [|x l Hx _ IH]; simpl; [done | by rewrite Hx, IH]. Qed.

Section Attributes.
Context {V : VertexCollaborators}.
Implicit Types (info : AttributeInformation) (attribute : SceGxmVertexAttribute).
Implicit Types (stream : SceGxmVertexStream) (glvert : GLVertexProgram).
Implicit Types (vertex_program : SceGxmVertexProgram).

Lemma u8_range x : 0 ≤ u8 x < 256.
Proof. apply (wrap_range 8 x). lia. Qed.

Lemma attribute_layout_bounds info attribute :
  let l := attribute_layout info attribute in
  1 ≤ array_size l ≤ 64 ∧ 0 ≤ array_element_size l ≤ 16.
Proof.
  unfold attribute_layout. destruct (regformat info); simpl; [|lia].
  pose proof (u8_range ((attribute_format_size (format attribute)
                         * componentCount attribute + 3) ÷ 4)) as Hc.
  set (count := u8 _) in *.
  destruct (Z.ltb_spec 4 count) as [Hmany|Hfew]; simpl; [|lia].
  rewrite Z.quot_div_nonneg by lia.
  assert (2 ≤ (count + 3) / 4 < 65) as Hsize.
  { split; [apply Z.div_le_lower_bound | apply Z.div_lt_upper_bound]; lia. }
  rewrite u32_small by lia. lia.
Qed.

Lemma bind_location_in_range info attribute stream base l i :
  attribute_in_range attribute →
  info_in_range info →
  base_in_range base →
  0 ≤ array_element_size l ≤ 16 →
  0 ≤ i < 64 →
  bind_location info attribute stream base l i
  = [ set_attribute_pointer attribute stream l (location info + i)
        ((λ b, i * array_element_size l + offset attribute + b) <$> base);
      glEnableVertexAttribArray (location info + i);
      glVertexAttribDivisor (location info + i)
        (if is_stream_instancing (indexSource stream) then 1 else 0) ].
Proof.
  intros [Hoffset _] Hinfo Hbase Hsize Hi. unfold info_in_range in Hinfo.
  unfold bind_location.
  rewrite (u32_small (location info + i)) by lia.
  assert (0 ≤ i * array_element_size l ≤ 1008) as Hscaled by nia.
  destruct base as [b|]; simpl; [|done].
  pose proof (Hbase b eq_refl) as Hb.
  rewrite (u32_small (i * array_element_size l)) by lia.
  rewrite (u32_small (i * array_element_size l + offset attribute)) by lia.
  unfold u64. rewrite wrap_small; [done|]. lia.
Qed.

(** The calls for an attribute with a known location, free of wrap-around
    for field values within their types. *)
Lemma bind_attribute_known glvert vertex_program offset_in_buffer attribute
    info stream base :
  attribute_infos glvert !! regIndex attribute = Some info →
  streams vertex_program !! Z.to_nat (streamIndex attribute) = Some stream →
  offset_in_buffer !! Z.to_nat (streamIndex attribute) = Some base →
  attribute_in_range attribute →
  info_in_range info →
  base_in_range base →
  let l := attribute_layout info attribute in
  bind_attribute glvert vertex_program offset_in_buffer attribute
  = Some (flat_map
            (λ i, [ set_attribute_pointer attribute stream l (location info + i)
                      ((λ b, i * array_element_size l + offset attribute + b) <$> base);
                    glEnableVertexAttribArray (location info + i);
                    glVertexAttribDivisor (location info + i)
                      (if is_stream_instancing (indexSource stream) then 1 else 0) ])
            (seqZ 0 (array_size l))).
Proof.
  intros Hinfo Hstream Hbase Hattr Hloc Hrange l.
  unfold bind_attribute. rewrite Hinfo, Hstream. simpl. rewrite Hbase. simpl.
  fold l. f_equal. apply flat_map_agree, Forall_seqZ. intros i Hi.
  pose proof (attribute_layout_bounds info attribute) as [Hsize Helement].
  fold l in Hsize, Helement.
  apply bind_location_in_range; [done | done | done | done | lia].
Qed.

(** One attribute: an attribute whose register index has no entry in
    [attribute_infos] produces no call at all; one that has an entry produces, for each
    element [i] of its array, a pointer-setting call for location
    [location + i] at byte offset [i * elementStride + attribute.offset +
    base] (base being the stream's entry of the offset array; the offset is
    indeterminate when that entry is), then the enable call and the divisor
    call for that location, the divisor being 1 for an instanced stream and
    0 otherwise. *)
Theorem bind_attribute_locations glvert vertex_program offset_in_buffer attribute :
  (attribute_infos glvert !! regIndex attribute = None →
   bind_attribute glvert vertex_program offset_in_buffer attribute = Some [])
  ∧ (∀ info stream base,
       attribute_infos glvert !! regIndex attribute = Some info →
       streams vertex_program !! Z.to_nat (streamIndex attribute) = Some stream →
       offset_in_buffer !! Z.to_nat (streamIndex attribute) = Some base →
       base_in_range base →
       attribute_in_range attribute →
       info_in_range info →
       let l := attribute_layout info attribute in
       bind_attribute glvert vertex_program offset_in_buffer attribute
       = Some (flat_map
                 (λ i, [ set_attribute_pointer attribute stream l (location info + i)
                           ((λ b, i * array_element_size l + offset attribute + b)
                              <$> base);
                         glEnableVertexAttribArray (location info + i);
                         glVertexAttribDivisor (location info + i)
                           (if is_stream_instancing (indexSource stream) then 1 else 0) ])
                 (seqZ 0 (array_size l)))
       ∧ 1 ≤ array_size l
       ∧ ∀ loc p,
           pointer_of (set_attribute_pointer attribute stream l loc p) = Some (loc, p)).
Proof.
  split.
  - intros Hunknown. unfold bind_attribute. by rewrite Hunknown.
  - intros info stream base Hinfo Hstream Hbase Hb Hattr Hloc l. split_and!.
    + by apply bind_attribute_known.
    + apply (attribute_layout_bounds info attribute).
    + intros loc p. unfold set_attribute_pointer. by destruct (_ || _).
Qed.

(** One register-formatted attribute: the effective component count
    is the byte size of a component times the declared count, divided by 4
    and rounded up. Up to 4 it is the size of a single GL_INT attribute at
    the attribute's location; above 4 the attribute takes the effective
    count divided by 4 and rounded up consecutive locations, each of 4
    GL_INT components, element [i] lying [16 * i] bytes after the first. *)
Theorem regformat_attribute_binding glvert vertex_program offset_in_buffer attribute
    info stream base :
  let bytes := attribute_format_size (format attribute) * componentCount attribute in
  let effective := (bytes + 3) / 4 in
  let divisor := if is_stream_instancing (indexSource stream) then 1 else 0 in
  regformat info = true →
  attribute_infos glvert !! regIndex attribute = Some info →
  streams vertex_program !! Z.to_nat (streamIndex attribute) = Some stream →
  offset_in_buffer !! Z.to_nat (streamIndex attribute) = Some base →
  attribute_in_range attribute →
  info_in_range info →
  base_in_range base →
  0 ≤ attribute_format_size (format attribute) ≤ 4 →
  4 * (effective - 1) < bytes ∧ bytes ≤ 4 * effective
  ∧ (effective ≤ 4 →
     bind_attribute glvert vertex_program offset_in_buffer attribute
     = Some [ glVertexAttribIPointer (location info) effective GL_INT (stride stream)
                ((λ b, offset attribute + b) <$> base);
              glEnableVertexAttribArray (location info);
              glVertexAttribDivisor (location info) divisor ])
  ∧ (4 < effective →
     bind_attribute glvert vertex_program offset_in_buffer attribute
     = Some (flat_map
               (λ i, [ glVertexAttribIPointer (location info + i) 4 GL_INT (stride stream)
                         ((λ b, i * 16 + offset attribute + b) <$> base);
                       glEnableVertexAttribArray (location info + i);
                       glVertexAttribDivisor (location info + i) divisor ])
               (seqZ 0 ((effective + 3) / 4)))).
Proof.
  intros bytes effective divisor Hreg Hinfo Hstream Hbase Hattr Hloc Hrange Hsize.
  pose proof Hattr as [_ Hcount].
  assert (0 ≤ bytes ≤ 1020) as Hbytes by (subst bytes; nia).
  assert (0 ≤ effective < 256) as Heffective.
  { subst effective. split; [apply Z.div_pos | apply Z.div_lt_upper_bound]; lia. }
  pose proof (Z.div_mod (bytes + 3) 4 ltac:(lia)) as Hdiv.
  pose proof (Z.mod_pos_bound (bytes + 3) 4 ltac:(lia)) as Hmod.
  fold effective in Hdiv.
  split; [lia|]. split; [lia|].
  pose proof (bind_attribute_known glvert vertex_program offset_in_buffer attribute
                info stream base Hinfo Hstream Hbase Hattr Hloc Hrange) as Hbind.
  cbv zeta in Hbind. rewrite Hbind. clear Hbind.
  unfold attribute_layout, set_attribute_pointer. rewrite Hreg.
  fold bytes. rewrite Z.quot_div_nonneg by lia. fold effective.
  unfold u8. rewrite (wrap_small 8 effective) by lia.
  split.
  - intros Hfew. apply Z.ltb_ge in Hfew. rewrite Hfew. simpl.
    by rewrite Z.add_0_r.
  - intros Hmany. apply Z.ltb_lt in Hmany. rewrite Hmany. simpl.
    rewrite Z.quot_div_nonneg by lia.
    rewrite u32_small; [done|].
    split; [apply Z.div_pos | apply Z.div_lt_upper_bound]; lia.
Qed.
End Attributes.

Lemma bind_attribute_locations_witness :
  @bind_attribute Fixture.vertices Fixture.glvert Fixture.vertex_program
    [Some 64; Some 160; Some 0; Some 0] Fixture.undeclared = Some []
  ∧ @bind_attribute Fixture.vertices Fixture.glvert Fixture.vertex_program
      [Some 64; Some 160; Some 0; Some 0] Fixture.position
    = Some [ glVertexAttribPointer 0 3 0x1409 false 32 (Some 68);
             glEnableVertexAttribArray 0;
             glVertexAttribDivisor 0 0 ].
Proof.
  split.
  - apply (proj1 (@bind_attribute_locations Fixture.vertices Fixture.glvert
                    Fixture.vertex_program [Some 64; Some 160; Some 0; Some 0]
                    Fixture.undeclared)).
    vm_compute. reflexivity.
  - destruct (proj2 (@bind_attribute_locations Fixture.vertices Fixture.glvert
                       Fixture.vertex_program [Some 64; Some 160; Some 0; Some 0]
                       Fixture.position)
                Fixture.position_info {| stride := 32; indexSource := 0 |} (Some 64))
      as [Hcalls _].
    + vm_compute. reflexivity.
    + reflexivity.
    + reflexivity.
    + intros b [= <-]. lia.
    + unfold attribute_in_range. simpl. lia.
    + unfold info_in_range. simpl. lia.
    + rewrite Hcalls. reflexivity.
Defined.

Lemma regformat_attribute_binding_witness :
  @bind_attribute Fixture.vertices Fixture.glvert Fixture.vertex_program
    [Some 64; Some 160; Some 0; Some 0] Fixture.matrix
  = Some [ glVertexAttribIPointer 1 4 GL_INT 28 (Some 168);
           glEnableVertexAttribArray 1;
           glVertexAttribDivisor 1 1;
           glVertexAttribIPointer 2 4 GL_INT 28 (Some 184);
           glEnableVertexAttribArray 2;
           glVertexAttribDivisor 2 1 ].
Proof.
  destruct (@regformat_attribute_binding Fixture.vertices Fixture.glvert
              Fixture.vertex_program [Some 64; Some 160; Some 0; Some 0] Fixture.matrix
              Fixture.matrix_info {| stride := 28; indexSource := 2 |} (Some 160))
    as (_ & _ & _ & Hmatrix).
  - reflexivity.
  - vm_compute. reflexivity.
  - reflexivity.
  - reflexivity.
  - unfold attribute_in_range. simpl. lia.
  - unfold info_in_range. simpl. lia.
  - intros b [= <-]. lia.
  - simpl. lia.
  - rewrite Hmatrix; [reflexivity|]. vm_compute. reflexivity.
Defined.

(** ** Order of staging and streams without data *)

Section StagingOrder.
Context {V : VertexCollaborators}.
Implicit Types (ring : RingBuffer) (s : VertexStreamData).
Implicit Types (vertex_streams : list VertexStreamData).

Lemma allocations_app (calls calls' : list Call) :
  allocations (calls ++ calls') = allocations calls ++ allocations calls'.
Proof. apply omap_app. Qed.

Lemma copies_app (calls calls' : list Call) :
  copies (calls ++ calls') = copies calls ++ copies calls'.
Proof. apply omap_app. Qed.

Lemma stage_stream_calls ring s :
  let calls := (stage_stream ring s).2 in
  allocations calls = (if pending s then [size s] else [])
  ∧ copies calls `sublist_of` (if pending s then [(data s, size s)] else []).
Proof.
  unfold stage_stream, pending.
  destruct (negb (data s =? 0)); simpl; [|done].
  destruct (allocate ring (size s)) as [[off|] ring1]; simpl; split; try done.
  by apply sublist_nil_l.
Qed.

Lemma stage_streams_calls ring vertex_streams :
  let calls := (stage_streams ring vertex_streams).2 in
  allocations calls = size <$> List.filter pending vertex_streams
  ∧ copies calls `sublist_of` ((λ s, (data s, size s)) <$> List.filter pending vertex_streams).
Proof.
  revert ring. induction vertex_streams as [|s rest IH]; intros ring; [done|].
  rewrite stage_streams_cons. cbv zeta. simpl.
  destruct (stage_stream_calls ring s) as [Halloc Hcopy].
  destruct (IH (stage_stream ring s).1.1.1) as [Hallocs Hcopies].
  rewrite allocations_app, copies_app, Halloc, Hallocs.
  destruct (pending s); simpl in *; split; try done.
  - by apply (sublist_app _ [(data s, size s)]).
  - by apply (sublist_app _ []).
Qed.

(** The staging loop and one attribute: the allocator is asked, in
    stream-index order,
    for exactly the streams whose data pointer is not null, and a copy is
    made only for such a stream; a stream without data this draw gets base
    offset 0, so every attribute on it is bound at its own offset from the
    start of the ring (element [i] at [i * elementStride +
    attribute.offset]), not at the offset of an earlier allocation. *)
Theorem staging_follows_stream_order ring vertex_streams vertex_program glvert :
  let staged := stage_streams ring vertex_streams in
  allocations staged.2 = size <$> List.filter pending vertex_streams
  ∧ copies staged.2
    `sublist_of` ((λ s, (data s, size s)) <$> List.filter pending vertex_streams)
  ∧ ∀ attribute s info stream,
      vertex_streams !! Z.to_nat (streamIndex attribute) = Some s →
      pending s = false →
      attribute_infos glvert !! regIndex attribute = Some info →
      streams vertex_program !! Z.to_nat (streamIndex attribute) = Some stream →
      attribute_in_range attribute →
      info_in_range info →
      let l := attribute_layout info attribute in
      bind_attribute glvert vertex_program staged.1.2 attribute
      = Some (flat_map
                (λ i, [ set_attribute_pointer attribute stream l (location info + i)
                          (Some (i * array_element_size l + offset attribute));
                        glEnableVertexAttribArray (location info + i);
                        glVertexAttribDivisor (location info + i)
                          (if is_stream_instancing (indexSource stream) then 1 else 0) ])
                (seqZ 0 (array_size l))).
Proof.
  intros staged. subst staged.
  destruct (stage_streams_calls ring vertex_streams) as [Hallocs Hcopies].
  split_and!; [done | done |].
  intros attribute s info stream Hs Hidle Hinfo Hstream Hattr Hloc l.
  destruct (stage_streams_lookup ring vertex_streams _ s Hs) as [_ Hentry].
  assert (data s = 0) as Hnull.
  { unfold pending in Hidle. apply negb_false_iff in Hidle. by apply Z.eqb_eq. }
  rewrite (stage_stream_idle _ _ Hnull) in Hentry. simpl in Hentry.
  rewrite (bind_attribute_known glvert vertex_program _ attribute info stream (Some 0)
             Hinfo Hstream Hentry Hattr Hloc).
  - f_equal. apply List.flat_map_ext. intros i. simpl. by rewrite Z.add_0_r.
  - intros b [= <-]. lia.
Qed.
End StagingOrder.

Lemma staging_follows_stream_order_witness :
  @bind_attribute Fixture.vertices Fixture.glvert Fixture.vertex_program
    (@stage_streams Fixture.vertices Fixture.ring
       [ {| data := 0; size := 0 |}; {| data := 0x6000; size := 56 |} ]).1.2
    Fixture.position
  = Some [ glVertexAttribPointer 0 3 0x1409 false 32 (Some 4);
           glEnableVertexAttribArray 0;
           glVertexAttribDivisor 0 0 ].
Proof.
  destruct (@staging_follows_stream_order Fixture.vertices Fixture.ring
              [ {| data := 0; size := 0 |}; {| data := 0x6000; size := 56 |} ]
              Fixture.vertex_program Fixture.glvert) as (_ & _ & Hidle).
  rewrite (Hidle Fixture.position {| data := 0; size := 0 |} Fixture.position_info
             {| stride := 32; indexSource := 0 |}).
  - reflexivity.
  - reflexivity.
  - reflexivity.
  - vm_compute. reflexivity.
  - reflexivity.
  - unfold attribute_in_range. simpl. lia.
  - unfold info_in_range. simpl. lia.
Defined.

(** C3 as stated fails on two draws in a row. The first stages stream 0 at
    ring offset 64 and binds the position attribute at 64 + 4. The second
    finds the stream without data, allocates nothing, and binds the same
    attribute at 0 + 4, not at the offset of the earlier allocation. *)
Lemma idle_stream_is_rebound_at_zero :
  let draw1 :=
    @sync_vertex_streams_and_attributes Fixture.vertices Fixture.ring
      Fixture.vertex_streams Fixture.vertex_program Fixture.glvert in
  let draw2 :=
    draw1 ≫= λ '(ring, vertex_streams, glvert, _),
      @sync_vertex_streams_and_attributes Fixture.vertices ring vertex_streams
        Fixture.vertex_program glvert in
  (λ r, (copies r.2, omap pointer_of r.2)) <$> draw1
  = Some ([(0x5000, 96); (0x6000, 56)],
          [(0, Some 68); (1, Some 168); (2, Some 184)])
  ∧ (λ r, (allocations r.2, omap pointer_of r.2)) <$> draw2
    = Some ([], [(0, Some 4); (1, Some 8); (2, Some 24)]).
Proof. vm_compute. split; reflexivity. Qed.

(** ** The vertex routine as a whole *)

(** The routine is the check of stripped symbols, the staging loop and the
    attribute loop in sequence, between the two buffer bindings. *)
Lemma sync_vertex_streams_and_attributes_stages {V : VertexCollaborators}
    (ring : RingBuffer) (vertex_streams : list VertexStreamData)
    (vertex_program : SceGxmVertexProgram) (glvert : GLVertexProgram) :
  let glvert' := check_stripped_symbols vertex_program glvert in
  let staged := stage_streams ring vertex_streams in
  sync_vertex_streams_and_attributes ring vertex_streams vertex_program glvert
  = (λ calls,
       (staged.1.1.1, staged.1.1.2, glvert',
        staged.2 ++ [glBindBuffer GL_ARRAY_BUFFER (handle staged.1.1.1)] ++ calls
        ++ [glBindBuffer GL_ARRAY_BUFFER 0]))
    <$> bind_attributes glvert' vertex_program staged.1.2 (attributes vertex_program).
Proof.
  intros glvert' staged. unfold sync_vertex_streams_and_attributes.
  fold glvert'. subst staged.
  destruct (stage_streams ring vertex_streams) as [[[ring1 streams1] offsets] calls1].
  simpl. by destruct (bind_attributes glvert' vertex_program offsets _).
Qed.

(** * Further properties *)

(** ** The stages of a texture resolution *)

Lemma count_app kind (calls calls' : list Call) :
  count kind (calls ++ calls') = (count kind calls + count kind calls')%nat.
Proof. unfold count. by rewrite List.filter_app, length_app. Qed.

Lemma count_cons kind (c : Call) (calls : list Call) :
  count kind (c :: calls) = ((if kind c then 1 else 0) + count kind calls)%nat.
Proof. unfold count. simpl. by destruct (kind c). Qed.

Lemma count_none kind (calls : list Call) :
  Forall (λ c, kind c = false) calls → count kind calls = 0%nat.
Proof.
  unfold count. induction 1 as [|c calls Hc _ IH]; simpl; [done|]. by rewrite Hc.
Qed.

Section TextureStages.
Context {X : TextureCollaborators}.
Implicit Types (state : GLState) (context : GLContext) (mem : MemState).
Implicit Types (index : Z) (texture : SceGxmTexture) (config : Config).

Lemma lookup_color_surface_convertible state texture base_format address width height
    target :
  convert_base_texture_format_to_base_color_format base_format = Some target →
  let found :=
    retrieve_color_surface_texture_handle state width height
      (stride_in_pixels texture base_format width) target address in
  lookup_color_surface state texture base_format address width height
  = (found.2,
     {| texture_as_surface := found.1.1;
        swizzle_surface := color_translate_swizzle (Z.lor target found.1.2);
        only_nearest := is_write_surface_non_linearity_filtering target |},
     [surface_cache_color_lookup width height
        (stride_in_pixels texture base_format width) target address]).
Proof.
  intros Hconvert found. subst found. unfold lookup_color_surface. rewrite Hconvert.
  by destruct (retrieve_color_surface_texture_handle _ _ _ _ _ _) as [[hc swz] stc].
Qed.

Lemma lookup_color_surface_calls state texture base_format address width height :
  Forall (λ c, is_surface_cache_lookup c = true)
    (lookup_color_surface state texture base_format address width height).2.
Proof.
  unfold lookup_color_surface.
  destruct (convert_base_texture_format_to_base_color_format base_format); [|constructor].
  destruct (retrieve_color_surface_texture_handle _ _ _ _ _ _) as [[hc swz] stc].
  by repeat constructor.
Qed.

Lemma resolve_alias_run state context mem index texture base_format address :
  let width := u16 (get_width texture) in
  let height := u16 (get_height texture) in
  let colour := lookup_color_surface state texture base_format address width height in
  let depth :=
    retrieve_depth_stencil_texture_handle colour.1.1 mem address width height true in
  let context' :=
    match find_index (u32 index) (self_sampling_indices context) with
    | Some res =>
        set_self_sampling_indices context (erase_at res (self_sampling_indices context))
    | None => context
    end in
  resolve_alias state context mem index texture base_format address
  = if texture_as_surface colour.1.2 =? 0 then
      (depth.2, context',
       {| texture_as_surface := depth.1;
          swizzle_surface := swizzle_surface colour.1.2;
          only_nearest := if depth.1 =? 0 then only_nearest colour.1.2 else true |},
       colour.2 ++ [surface_cache_depth_stencil_lookup address width height true])
    else (colour.1.1, context', colour.1.2, colour.2).
Proof.
  intros width height colour depth context'. subst depth colour.
  unfold resolve_alias. fold width height context'.
  destruct (lookup_color_surface _ _ _ _ _ _) as [[state1 r] lookups]. simpl.
  destruct (texture_as_surface r =? 0); [|done].
  by destruct (retrieve_depth_stencil_texture_handle _ _ _ _ _ _).
Qed.

Lemma resolve_surface_lookups state context mem index texture base_format address :
  Forall (λ c, is_surface_cache_lookup c = true)
    (resolve_surface state context mem index texture base_format address).2.
Proof.
  unfold resolve_surface. destruct (_ =? address).
  - destruct (resolve_self_sample context index). constructor.
  - rewrite resolve_alias_run. cbv zeta.
    pose proof (lookup_color_surface_calls state texture base_format address
                  (u16 (get_width texture)) (u16 (get_height texture))) as Hcolour.
    destruct (texture_as_surface _ =? 0); simpl; [|done].
    apply Forall_app. split; [done | by repeat constructor].
Qed.

(** The resolution touches the context only in its self-sampling vector. *)
Lemma resolve_surface_context state context mem index texture base_format address :
  ∃ indices,
    (resolve_surface state context mem index texture base_format address).1.1.2
    = set_self_sampling_indices context indices.
Proof.
  unfold resolve_surface. destruct (_ =? address).
  - unfold resolve_self_sample. simpl. by eexists.
  - rewrite resolve_alias_context.
    destruct (find_index _ _); [by eexists|].
    exists (self_sampling_indices context). by destruct context.
Qed.

Lemma resolve_surface_indices state context mem index texture base_format address :
  0 ≤ index < 2 ^ 32 →
  let indices := self_sampling_indices context in
  self_sampling_indices
    (resolve_surface state context mem index texture base_format address).1.1.2
  = if color_surface_address context =? address then
      if decide (index ∈ indices) then indices else indices ++ [index]
    else
      match find_index index indices with
      | Some res => erase_at res indices
      | None => indices
      end.
Proof.
  intros Hindex indices. subst indices. unfold resolve_surface.
  destruct (_ =? address).
  - pose proof (resolve_self_sample_indices context index Hindex) as Hset.
    by destruct (resolve_self_sample context index).
  - rewrite resolve_alias_context, (u32_small index Hindex).
    by destruct (find_index _ _).
Qed.

Lemma reconcile_swizzle_settings swizzle surface :
  Forall (λ c, is_texture_setting c = true) (reconcile_swizzle swizzle surface).
Proof.
  unfold reconcile_swizzle. destruct surface as [surface|]; [|by repeat constructor].
  destruct (negb _); [|by repeat constructor].
  simpl. rewrite app_nil_r.
  repeat (apply Forall_app; split); unfold remap_channel;
    destruct (_ || _); try destruct (List.find _ _); by repeat constructor.
Qed.

(** With a surface at hand: the bind, the optional pair of nearest filters
    and the swizzle calls; the renderer state is not touched. *)
Lemma bind_resolved_found state mem texture config format base_format r :
  texture_as_surface r ≠ 0 →
  let filters :=
    if only_nearest r then
      [glTexParameteri GL_TEXTURE_2D GL_TEXTURE_MIN_FILTER GL_NEAREST;
       glTexParameteri GL_TEXTURE_2D GL_TEXTURE_MAG_FILTER GL_NEAREST]
    else [] in
  let swizzles :=
    if negb (base_format =? SCE_GXM_TEXTURE_BASE_FORMAT_X8U24) then
      match texture_translate_swizzle format with
      | Some swizzle => reconcile_swizzle swizzle (swizzle_surface r)
      | None => []
      end
    else [] in
  bind_resolved state mem texture config format base_format r
  = (state, glBindTexture GL_TEXTURE_2D (u32 (texture_as_surface r)) :: filters ++ swizzles)
  ∧ Forall (λ c, is_texture_setting c = true) (filters ++ swizzles).
Proof.
  intros Hfound filters swizzles. unfold bind_resolved.
  apply Z.eqb_neq in Hfound. rewrite Hfound. simpl. split; [done|].
  apply Forall_app. split.
  - subst filters. destruct (only_nearest r); by repeat constructor.
  - subst swizzles. destruct (negb _); [|constructor].
    destruct (texture_translate_swizzle format); [|constructor].
    apply reconcile_swizzle_settings.
Qed.

Lemma bind_resolved_missing state mem texture config format base_format r :
  texture_as_surface r = 0 →
  bind_resolved state mem texture config format base_format r
  = (if texture_cache config then cache_and_bind_texture state texture mem
     else bind_texture state texture mem,
     [texture_cache_upload (texture_cache config) texture]).
Proof.
  intros Hmissing. unfold bind_resolved. rewrite Hmissing. simpl.
  by destruct (texture_cache config).
Qed.

Lemma settings_are_of_no_other_kind (calls : list Call) kind :
  (∀ c, is_texture_setting c = true → kind c = false) →
  Forall (λ c, is_texture_setting c = true) calls →
  Forall (λ c, kind c = false) calls.
Proof. intros Hkind Hall. eapply Forall_impl; [exact Hall | exact Hkind]. Qed.

Lemma lookups_are_of_no_other_kind (calls : list Call) kind :
  (∀ c, is_surface_cache_lookup c = true → kind c = false) →
  Forall (λ c, is_surface_cache_lookup c = true) calls →
  Forall (λ c, kind c = false) calls.
Proof. intros Hkind Hall. eapply Forall_impl; [exact Hall | exact Hkind]. Qed.
End TextureStages.

(** ** What every texture resolution does *)

Section TextureOutcome.
Context {X : TextureCollaborators}.
Implicit Types (state : GLState) (context : GLContext) (mem : MemState).
Implicit Types (index : Z) (texture : SceGxmTexture) (config : Config).

Lemma count_resolved kind state context mem index texture config :
  (∀ unit, kind (glActiveTexture unit) = false) →
  (∀ c, is_surface_cache_lookup c = true → kind c = false) →
  (∀ t i, kind (texture_dump t i) = false) →
  aborts_early mem texture = false →
  let format := get_format texture in
  let base_format := get_base_format format in
  let resolved :=
    resolve_surface state (set_shader_hint context index format) mem index texture
      base_format (u32 (Z.shiftl (data_addr texture) 2)) in
  count kind (sync_texture state context mem index texture config).2
  = count kind
      (bind_resolved resolved.1.1.1 mem texture config format base_format resolved.1.2).2.
Proof.
  intros Hactive Hlookup Hdump Hpass format base_format resolved.
  rewrite (sync_texture_resolved _ _ _ _ _ _ Hpass). cbv zeta.
  fold format base_format resolved. simpl snd.
  rewrite count_cons, Hactive, !count_app.
  rewrite (count_none kind resolved.2).
  2:{ eapply lookups_are_of_no_other_kind; [exact Hlookup|].
      apply resolve_surface_lookups. }
  rewrite (count_none kind (if dump_textures config then _ else _)).
  2:{ destruct (dump_textures config); repeat constructor. apply Hdump. }
  rewrite (count_cons kind _ []), Hactive. unfold count at 2. simpl. lia.
Qed.

(** One binding source per resolution: past the guards, the trace holds
    either one [glBindTexture] (a surface was found) or one upload through
    the texture cache, never both and never neither; a resolution stopped
    by a guard holds none. *)
Theorem sync_texture_one_binding_source state context mem index texture config :
  let calls := (sync_texture state context mem index texture config).2 in
  (aborts_early mem texture = true →
   count is_bind_texture calls = 0%nat ∧ count is_texture_upload calls = 0%nat)
  ∧ (aborts_early mem texture = false →
     (count is_bind_texture calls + count is_texture_upload calls = 1)%nat).
Proof.
  intros calls. subst calls. split.
  - intros Habort.
    destruct (sync_texture_aborted state context mem index texture config Habort)
      as [msg ->].
    done.
  - intros Hpass.
    rewrite (count_resolved is_bind_texture), (count_resolved is_texture_upload);
      try done; try (by intros [] Hc).
    set (resolved := resolve_surface _ _ _ _ _ _ _).
    destruct (decide (texture_as_surface resolved.1.2 = 0)) as [Hmissing|Hfound].
    + by rewrite bind_resolved_missing.
    + destruct (bind_resolved_found resolved.1.1.1 mem texture config
                  (get_format texture) (get_base_format (get_format texture))
                  resolved.1.2 Hfound) as [-> Hsettings].
      simpl snd. rewrite !count_cons.
      rewrite (count_none is_bind_texture (_ ++ _)).
      2:{ eapply settings_are_of_no_other_kind; [|exact Hsettings]. by intros []. }
      rewrite (count_none is_texture_upload (_ ++ _)).
      2:{ eapply settings_are_of_no_other_kind; [|exact Hsettings]. by intros []. }
      done.
Qed.

(** Past the guards the resolution selects the unit first and unit 0 last,
    and selects no unit in between. *)
Theorem sync_texture_restores_unit state context mem index texture config :
  aborts_early mem texture = false →
  ∃ middle,
    (sync_texture state context mem index texture config).2
    = glActiveTexture (u32 (GL_TEXTURE0 + index)) :: middle ++ [glActiveTexture GL_TEXTURE0]
    ∧ Forall (λ c, is_active_texture c = false) middle.
Proof.
  intros Hpass. rewrite (sync_texture_resolved _ _ _ _ _ _ Hpass). cbv zeta.
  set (resolved := resolve_surface _ _ _ _ _ _ _). simpl snd.
  eexists. split.
  - simpl. f_equal. rewrite !app_assoc. reflexivity.
  - repeat (apply Forall_app; split).
    + eapply lookups_are_of_no_other_kind; [|apply resolve_surface_lookups]. by intros [].
    + destruct (decide (texture_as_surface resolved.1.2 = 0)) as [Hmissing|Hfound].
      * rewrite bind_resolved_missing by done. by repeat constructor.
      * destruct (bind_resolved_found resolved.1.1.1 mem texture config
                    (get_format texture) (get_base_format (get_format texture))
                    resolved.1.2 Hfound) as [-> Hsettings].
        simpl. constructor; [done|].
        eapply settings_are_of_no_other_kind; [|exact Hsettings]. by intros [].
    + destruct (dump_textures config); by repeat constructor.
Qed.

(** No resolution, stopped by a guard or not, changes the colour surface's
    address and format, the current colour attachment or the sizes of the
    two arrays of shader hints. *)
Theorem sync_texture_context_frame state context mem index texture config :
  let context' := (sync_texture state context mem index texture config).1.2 in
  color_surface_address context' = color_surface_address context
  ∧ color_surface_colorFormat context' = color_surface_colorFormat context
  ∧ current_color_attachment context' = current_color_attachment context
  ∧ length (fragment_textures context') = length (fragment_textures context)
  ∧ length (vertex_textures context') = length (vertex_textures context).
Proof.
  intros context'. subst context'.
  destruct (aborts_early mem texture) eqn:Hguard.
  - destruct (sync_texture_aborted state context mem index texture config Hguard)
      as [msg ->].
    done.
  - rewrite (sync_texture_resolved _ _ _ _ _ _ Hguard). cbv zeta. simpl.
    destruct (resolve_surface_context state
                (set_shader_hint context index (get_format texture)) mem index texture
                (get_base_format (get_format texture))
                (u32 (Z.shiftl (data_addr texture) 2))) as [indices ->].
    unfold set_shader_hint. destruct (_ <=? index); simpl; by rewrite ?length_insert.
Qed.

(** Past the guards, a fragment unit (index below the number of texture
    units) has the descriptor's format recorded in its slot of the fragment
    hints, a vertex unit in slot [index - units] of the vertex hints; all
    other slots and the other array stay as they were. *)
Theorem sync_texture_records_format state context mem index texture config :
  let context' := (sync_texture state context mem index texture config).1.2 in
  let format := get_format texture in
  aborts_early mem texture = false →
  0 ≤ index →
  (index < SCE_GXM_MAX_TEXTURE_UNITS →
   (Z.to_nat index < length (fragment_textures context))%nat →
   fragment_textures context' !! Z.to_nat index = Some format
   ∧ (∀ j, j ≠ Z.to_nat index →
           fragment_textures context' !! j = fragment_textures context !! j)
   ∧ vertex_textures context' = vertex_textures context)
  ∧ (SCE_GXM_MAX_TEXTURE_UNITS ≤ index →
     let slot := Z.to_nat (index - SCE_GXM_MAX_TEXTURE_UNITS) in
     (slot < length (vertex_textures context))%nat →
     vertex_textures context' !! slot = Some format
     ∧ (∀ j, j ≠ slot → vertex_textures context' !! j = vertex_textures context !! j)
     ∧ fragment_textures context' = fragment_textures context).
Proof.
  intros context' format Hpass Hindex. subst context'.
  rewrite (sync_texture_resolved _ _ _ _ _ _ Hpass). cbv zeta. simpl. fold format.
  destruct (resolve_surface_context state (set_shader_hint context index format) mem
              index texture (get_base_format format)
              (u32 (Z.shiftl (data_addr texture) 2))) as [indices ->].
  unfold set_shader_hint. split.
  - intros Hfragment Hslot.
    destruct (Z.leb_spec SCE_GXM_MAX_TEXTURE_UNITS index) as [?|_]; [lia|]. simpl.
    split_and!; [by apply list_lookup_insert_eq | | done].
    intros j Hj. by apply list_lookup_insert_ne.
  - intros Hvertex Hslot.
    destruct (Z.leb_spec SCE_GXM_MAX_TEXTURE_UNITS index) as [_|?]; [|lia]. simpl.
    split_and!; [by apply list_lookup_insert_eq | | done].
    intros j Hj. by apply list_lookup_insert_ne.
Qed.
End TextureOutcome.

Lemma sync_texture_one_binding_source_witness :
  let calls :=
    (@sync_texture Fixture.textures Fixture.cache (Fixture.context 5 []) 0x100000 3
       (Fixture.texture 0x1000 0 Fixture.U8U8U8U8 SCE_GXM_TEXTURE_LINEAR)
       Fixture.config).2 in
  (count is_bind_texture calls + count is_texture_upload calls = 1)%nat.
Proof.
  apply (@sync_texture_one_binding_source Fixture.textures). reflexivity.
Defined.

Lemma sync_texture_restores_unit_witness :
  ∃ middle,
    (@sync_texture Fixture.textures Fixture.cache (Fixture.context 5 []) 0x100000 3
       (Fixture.texture 0x1000 0 Fixture.U8U8U8U8 SCE_GXM_TEXTURE_LINEAR)
       Fixture.config).2
    = glActiveTexture (u32 (GL_TEXTURE0 + 3)) :: middle ++ [glActiveTexture GL_TEXTURE0]
    ∧ Forall (λ c, is_active_texture c = false) middle.
Proof.
  apply (@sync_texture_restores_unit Fixture.textures). reflexivity.
Defined.

Lemma sync_texture_records_format_witness :
  let context := Fixture.context 5 [] in
  let texture := Fixture.texture 0x1000 0 Fixture.U8U8U8U8 SCE_GXM_TEXTURE_LINEAR in
  let context' :=
    (@sync_texture Fixture.textures Fixture.cache context 0x100000 17 texture
       Fixture.config).1.2 in
  vertex_textures context' !! 1%nat = Some Fixture.U8U8U8U8
  ∧ (∀ j, j ≠ 1%nat → vertex_textures context' !! j = vertex_textures context !! j)
  ∧ fragment_textures context' = fragment_textures context.
Proof.
  apply (@sync_texture_records_format Fixture.textures Fixture.cache
           (Fixture.context 5 []) 0x100000 17
           (Fixture.texture 0x1000 0 Fixture.U8U8U8U8 SCE_GXM_TEXTURE_LINEAR)
           Fixture.config);
    [reflexivity | lia | simpl; lia | simpl; lia].
Defined.

(** ** The three outcomes of a resolution away from the colour surface *)

Section TextureAlias.
Context {X : TextureCollaborators}.
Implicit Types (state : GLState) (context : GLContext) (mem : MemState).
Implicit Types (index : Z) (texture : SceGxmTexture) (config : Config).

Lemma sync_texture_away state context mem index texture config :
  aborts_early mem texture = false →
  let address := u32 (Z.shiftl (data_addr texture) 2) in
  let format := get_format texture in
  let base_format := get_base_format format in
  color_surface_address context ≠ address →
  let resolved :=
    resolve_alias state (set_shader_hint context index format) mem index texture
      base_format address in
  let bound :=
    bind_resolved resolved.1.1.1 mem texture config format base_format resolved.1.2 in
  sync_texture state context mem index texture config
  = (bound.1, resolved.1.1.2,
     [glActiveTexture (u32 (GL_TEXTURE0 + index))]
     ++ resolved.2 ++ bound.2
     ++ (if dump_textures config then [texture_dump texture index] else [])
     ++ [glActiveTexture GL_TEXTURE0]).
Proof.
  intros Hpass address format base_format Hother resolved bound.
  rewrite (sync_texture_resolved _ _ _ _ _ _ Hpass). cbv zeta.
  fold address format base_format. unfold resolve_surface.
  pose proof (set_shader_hint_keeps context index format) as (_ & -> & _).
  apply Z.eqb_neq in Hother. by rewrite Hother.
Qed.

Lemma reconcile_swizzle_no_filter swizzle surface :
  Forall (λ c, is_filter_parameter c = false) (reconcile_swizzle swizzle surface).
Proof.
  unfold reconcile_swizzle. destruct surface as [surface|]; [|by repeat constructor].
  destruct (negb _); [|by repeat constructor].
  simpl. rewrite app_nil_r.
  repeat (apply Forall_app; split); unfold remap_channel;
    destruct (_ || _); try destruct (List.find _ _); by repeat constructor.
Qed.

(** External upload: when the colour-surface lookup and the depth-stencil
    lookup both come back empty, the only calls between the two unit
    selections are the lookups, one upload through the texture cache (the
    caching path or the direct one, as configured) and the optional dump:
    nothing is bound by handle and no filter or swizzle is set. *)
Theorem sync_texture_external_upload state context mem index texture config :
  let address := u32 (Z.shiftl (data_addr texture) 2) in
  let base_format := get_base_format (get_format texture) in
  let width := u16 (get_width texture) in
  let height := u16 (get_height texture) in
  let colour := lookup_color_surface state texture base_format address width height in
  let depth :=
    retrieve_depth_stencil_texture_handle colour.1.1 mem address width height true in
  let out := sync_texture state context mem index texture config in
  aborts_early mem texture = false →
  color_surface_address context ≠ address →
  texture_as_surface colour.1.2 = 0 →
  depth.1 = 0 →
  out.1.1
  = (if texture_cache config then cache_and_bind_texture depth.2 texture mem
     else bind_texture depth.2 texture mem)
  ∧ out.2
    = [glActiveTexture (u32 (GL_TEXTURE0 + index))]
      ++ colour.2
      ++ [surface_cache_depth_stencil_lookup address width height true;
          texture_cache_upload (texture_cache config) texture]
      ++ (if dump_textures config then [texture_dump texture index] else [])
      ++ [glActiveTexture GL_TEXTURE0].
Proof.
  intros address base_format width height colour depth out Hpass Hother Hmiss Hnone.
  subst out. rewrite (sync_texture_away _ _ _ _ _ _ Hpass Hother). cbv zeta.
  rewrite resolve_alias_run. cbv zeta.
  fold address base_format width height colour depth.
  rewrite Hmiss. simpl. rewrite Hnone. simpl.
  rewrite bind_resolved_missing by done. simpl.
  split; [done|]. by rewrite <- !app_assoc.
Qed.

(** Colour-surface alias: when the cache returns a colour surface, the
    depth-stencil cache is not consulted, the renderer state is the one the
    lookup left, the surface is bound right after the lookup, and the two
    filters are set to nearest exactly when the surface's format is marked
    for non-linear filtering (none of the later calls sets a filter). *)
Theorem sync_texture_colour_alias state context mem index texture config target :
  let address := u32 (Z.shiftl (data_addr texture) 2) in
  let base_format := get_base_format (get_format texture) in
  let width := u16 (get_width texture) in
  let height := u16 (get_height texture) in
  let stride := stride_in_pixels texture base_format width in
  let found :=
    retrieve_color_surface_texture_handle state width height stride target address in
  let out := sync_texture state context mem index texture config in
  aborts_early mem texture = false →
  color_surface_address context ≠ address →
  convert_base_texture_format_to_base_color_format base_format = Some target →
  found.1.1 ≠ 0 →
  out.1.1 = found.2
  ∧ ∃ rest,
      out.2
      = [glActiveTexture (u32 (GL_TEXTURE0 + index));
         surface_cache_color_lookup width height stride target address;
         glBindTexture GL_TEXTURE_2D (u32 found.1.1)]
        ++ (if is_write_surface_non_linearity_filtering target then
              [glTexParameteri GL_TEXTURE_2D GL_TEXTURE_MIN_FILTER GL_NEAREST;
               glTexParameteri GL_TEXTURE_2D GL_TEXTURE_MAG_FILTER GL_NEAREST]
            else [])
        ++ rest
      ∧ Forall (λ c, is_filter_parameter c = false ∧ is_surface_cache_lookup c = false)
          rest.
Proof.
  intros address base_format width height stride found out Hpass Hother Hconvert Hfound.
  subst out. rewrite (sync_texture_away _ _ _ _ _ _ Hpass Hother). cbv zeta.
  rewrite resolve_alias_run. cbv zeta.
  fold address base_format width height.
  rewrite (lookup_color_surface_convertible _ _ _ _ _ _ _ Hconvert). cbv zeta.
  fold stride found. simpl.
  apply Z.eqb_neq in Hfound as Hfound'. rewrite Hfound'. simpl.
  unfold bind_resolved. simpl. rewrite Hfound'. simpl.
  split; [done|]. eexists. split.
  - rewrite <- !app_assoc. reflexivity.
  - repeat (apply Forall_app; split).
    + destruct (negb _); [|constructor].
      destruct (texture_translate_swizzle _); [|constructor].
      pose proof (reconcile_swizzle_no_filter s
                    (color_translate_swizzle (Z.lor target found.1.2))) as Hnf.
      pose proof (reconcile_swizzle_settings s
                    (color_translate_swizzle (Z.lor target found.1.2))) as Hset.
      apply Forall_forall. intros c Hc. split.
      * by apply (proj1 (Forall_forall _ _) Hnf).
      * apply (proj1 (Forall_forall _ _) Hset) in Hc. by destruct c.
    + destruct (dump_textures config); by repeat constructor.
    + by repeat constructor.
Qed.

(** Depth-stencil alias of a format without a colour base format: no colour
    lookup is made and no surface swizzle exists, so after the bind and the
    two nearest filters the texture's declared swizzle is applied as it is
    (unless the base format is X8U24 or the format has no swizzle). *)
Theorem sync_texture_depth_alias_declared_swizzle state context mem index texture config
    swizzle :
  let address := u32 (Z.shiftl (data_addr texture) 2) in
  let format := get_format texture in
  let base_format := get_base_format format in
  let width := u16 (get_width texture) in
  let height := u16 (get_height texture) in
  let depth := retrieve_depth_stencil_texture_handle state mem address width height true in
  aborts_early mem texture = false →
  color_surface_address context ≠ address →
  convert_base_texture_format_to_base_color_format base_format = None →
  depth.1 ≠ 0 →
  base_format ≠ SCE_GXM_TEXTURE_BASE_FORMAT_X8U24 →
  texture_translate_swizzle format = Some swizzle →
  (sync_texture state context mem index texture config).2
  = [glActiveTexture (u32 (GL_TEXTURE0 + index));
     surface_cache_depth_stencil_lookup address width height true;
     glBindTexture GL_TEXTURE_2D (u32 depth.1);
     glTexParameteri GL_TEXTURE_2D GL_TEXTURE_MIN_FILTER GL_NEAREST;
     glTexParameteri GL_TEXTURE_2D GL_TEXTURE_MAG_FILTER GL_NEAREST;
     LOG_TRACE "No surface swizzle found, use default texture swizzle";
     glTexParameteriv GL_TEXTURE_2D GL_TEXTURE_SWIZZLE_RGBA swizzle]
    ++ (if dump_textures config then [texture_dump texture index] else [])
    ++ [glActiveTexture GL_TEXTURE0].
Proof.
  intros address format base_format width height depth Hpass Hother Hconvert Hfound
    Hbase Hswizzle.
  rewrite (sync_texture_away _ _ _ _ _ _ Hpass Hother). cbv zeta.
  rewrite resolve_alias_run. cbv zeta.
  fold address format base_format width height.
  unfold lookup_color_surface. rewrite Hconvert. simpl. fold depth.
  apply Z.eqb_neq in Hfound. rewrite Hfound.
  unfold bind_resolved. simpl. rewrite Hfound. simpl.
  apply Z.eqb_neq in Hbase. rewrite Hbase. simpl. by rewrite Hswizzle.
Qed.

(** A texture whose base format is X8U24 never has its swizzle set,
    whichever way the resolution goes. *)
Theorem sync_texture_x8u24_keeps_swizzle state context mem index texture config :
  get_base_format (get_format texture) = SCE_GXM_TEXTURE_BASE_FORMAT_X8U24 →
  Forall (λ c, is_swizzle_parameter c = false)
    (sync_texture state context mem index texture config).2.
Proof.
  intros Hbase. destruct (aborts_early mem texture) eqn:Hguard.
  - destruct (sync_texture_aborted state context mem index texture config Hguard)
      as [msg ->].
    by repeat constructor.
  - rewrite (sync_texture_resolved _ _ _ _ _ _ Hguard). cbv zeta. simpl snd.
    set (resolved := resolve_surface _ _ _ _ _ _ _).
    constructor; [done|]. repeat (apply Forall_app; split).
    + eapply lookups_are_of_no_other_kind; [|apply resolve_surface_lookups]. by intros [].
    + unfold bind_resolved. rewrite Hbase, Z.eqb_refl. simpl.
      destruct (negb _); [|destruct (texture_cache config); by repeat constructor].
      constructor; [done|]. rewrite app_nil_r.
      destruct (only_nearest _); by repeat constructor.
    + destruct (dump_textures config); by repeat constructor.
    + by repeat constructor.
Qed.
End TextureAlias.

Lemma sync_texture_external_upload_witness :
  let texture := Fixture.texture 0x1400 0 Fixture.U8U8U8U8 SCE_GXM_TEXTURE_LINEAR in
  (@sync_texture Fixture.textures Fixture.cache (Fixture.context 5 []) 0x100000 3 texture
     Fixture.config).2
  = [glActiveTexture (u32 (GL_TEXTURE0 + 3))]
    ++ [surface_cache_color_lookup 60 30 64 0 0x5000]
    ++ [surface_cache_depth_stencil_lookup 0x5000 60 30 true;
        texture_cache_upload true texture]
    ++ []
    ++ [glActiveTexture GL_TEXTURE0].
Proof.
  apply (@sync_texture_external_upload Fixture.textures Fixture.cache
           (Fixture.context 5 []) 0x100000 3
           (Fixture.texture 0x1400 0 Fixture.U8U8U8U8 SCE_GXM_TEXTURE_LINEAR)
           Fixture.config);
    [reflexivity | vm_compute; discriminate | reflexivity | reflexivity].
Defined.

Lemma sync_texture_colour_alias_witness :
  let texture := Fixture.texture 0x800 0 Fixture.U8U8U8U8 SCE_GXM_TEXTURE_LINEAR in
  let out :=
    @sync_texture Fixture.textures Fixture.cache (Fixture.context 5 []) 0x100000 3
      texture Fixture.config in
  out.1.1 = Fixture.cache
  ∧ ∃ rest,
      out.2
      = [glActiveTexture (u32 (GL_TEXTURE0 + 3));
         surface_cache_color_lookup 60 30 64 0 0x2000;
         glBindTexture GL_TEXTURE_2D (u32 11)]
        ++ [] ++ rest
      ∧ Forall (λ c, is_filter_parameter c = false ∧ is_surface_cache_lookup c = false)
          rest.
Proof.
  apply (@sync_texture_colour_alias Fixture.textures Fixture.cache
           (Fixture.context 5 []) 0x100000 3
           (Fixture.texture 0x800 0 Fixture.U8U8U8U8 SCE_GXM_TEXTURE_LINEAR)
           Fixture.config 0);
    [reflexivity | vm_compute; discriminate | reflexivity | vm_compute; discriminate].
Defined.

Lemma sync_texture_depth_alias_declared_swizzle_witness :
  (@sync_texture Fixture.textures Fixture.cache (Fixture.context 5 []) 0x100000 3
     (Fixture.texture 0xC00 0 0x07000000 SCE_GXM_TEXTURE_LINEAR) Fixture.config).2
  = [glActiveTexture (u32 (GL_TEXTURE0 + 3));
     surface_cache_depth_stencil_lookup 0x3000 60 30 true;
     glBindTexture GL_TEXTURE_2D (u32 12);
     glTexParameteri GL_TEXTURE_2D GL_TEXTURE_MIN_FILTER GL_NEAREST;
     glTexParameteri GL_TEXTURE_2D GL_TEXTURE_MAG_FILTER GL_NEAREST;
     LOG_TRACE "No surface swizzle found, use default texture swizzle";
     glTexParameteriv GL_TEXTURE_2D GL_TEXTURE_SWIZZLE_RGBA
       (Swizzle GL_RED GL_GREEN GL_BLUE GL_ALPHA)]
    ++ [] ++ [glActiveTexture GL_TEXTURE0].
Proof.
  apply (@sync_texture_depth_alias_declared_swizzle Fixture.textures Fixture.cache
           (Fixture.context 5 []) 0x100000 3
           (Fixture.texture 0xC00 0 0x07000000 SCE_GXM_TEXTURE_LINEAR) Fixture.config
           (Swizzle GL_RED GL_GREEN GL_BLUE GL_ALPHA));
    [reflexivity | vm_compute; discriminate | reflexivity | vm_compute; discriminate
    | vm_compute; discriminate | reflexivity].
Defined.

Lemma sync_texture_x8u24_keeps_swizzle_witness :
  Forall (λ c, is_swizzle_parameter c = false)
    (@sync_texture Fixture.textures Fixture.cache (Fixture.context 5 []) 0x100000 3
       (Fixture.texture 0xC00 0 0x15000000 SCE_GXM_TEXTURE_LINEAR) Fixture.config).2.
Proof.
  apply (@sync_texture_x8u24_keeps_swizzle Fixture.textures). reflexivity.
Defined.

(** ** Repeated resolutions *)

Section TextureRepeated.
Context {X : TextureCollaborators}.
Implicit Types (state : GLState) (context : GLContext) (mem : MemState).
Implicit Types (index : Z) (texture : SceGxmTexture) (config : Config).

Lemma sync_texture_indices state context mem index texture config :
  aborts_early mem texture = false →
  0 ≤ index < 2 ^ 32 →
  let context' := (sync_texture state context mem index texture config).1.2 in
  let indices := self_sampling_indices context in
  color_surface_address context' = color_surface_address context
  ∧ self_sampling_indices context'
    = if color_surface_address context =? u32 (Z.shiftl (data_addr texture) 2) then
        if decide (index ∈ indices) then indices else indices ++ [index]
      else
        match find_index index indices with
        | Some res => erase_at res indices
        | None => indices
        end.
Proof.
  intros Hpass Hindex context' indices. subst context' indices.
  rewrite (sync_texture_resolved _ _ _ _ _ _ Hpass). cbv zeta. simpl.
  pose proof (set_shader_hint_keeps context index (get_format texture))
    as (Hkeep & Haddr & _).
  split.
  - destruct (resolve_surface_context state
                (set_shader_hint context index (get_format texture)) mem index texture
                (get_base_format (get_format texture))
                (u32 (Z.shiftl (data_addr texture) 2))) as [indices ->].
    done.
  - rewrite resolve_surface_indices by done. cbv zeta. by rewrite Hkeep, Haddr.
Qed.

(** Resolving a unit a second time with the same descriptor, from any
    renderer state and with any configuration, leaves the self-sampling
    vector as the first resolution left it: the unit is neither added twice
    nor, vector being free of duplicates, removed twice. *)
Theorem sync_texture_twice_same_indices state context mem index texture config
    state' config' :
  let once := (sync_texture state context mem index texture config).1.2 in
  let twice := (sync_texture state' once mem index texture config').1.2 in
  NoDup (self_sampling_indices context) →
  0 ≤ index < 2 ^ 32 →
  self_sampling_indices twice = self_sampling_indices once.
Proof.
  intros once twice Hnodup Hindex. subst twice.
  destruct (aborts_early mem texture) eqn:Hguard.
  - destruct (sync_texture_aborted state' once mem index texture config' Hguard)
      as [msg ->].
    done.
  - destruct (sync_texture_indices state context mem index texture config Hguard Hindex)
      as [Haddr Honce].
    destruct (sync_texture_indices state' once mem index texture config' Hguard Hindex)
      as [_ Htwice].
    fold once in Haddr, Honce. rewrite Htwice, Haddr. clear Htwice.
    destruct (_ =? _).
    + rewrite decide_True; [done|]. rewrite Honce.
      destruct (decide (index ∈ self_sampling_indices context)); [done|].
      apply elem_of_app. right. by left.
    + assert (index ∉ self_sampling_indices once) as Hgone.
      { rewrite Honce.
        destruct (find_index index (self_sampling_indices context)) as [res|] eqn:Hfind.
        - apply find_index_Some in Hfind. by apply (erase_at_gone _ res index).
        - by apply find_index_None. }
      apply find_index_None in Hgone. by rewrite Hgone.
Qed.
End TextureRepeated.

Lemma sync_texture_twice_same_indices_witness :
  let texture := Fixture.texture 0x800 0 Fixture.U8U8U8U8 SCE_GXM_TEXTURE_LINEAR in
  let once :=
    (@sync_texture Fixture.textures Fixture.cache (Fixture.context 5 [3; 1]) 0x100000 3
       texture Fixture.config).1.2 in
  let twice :=
    (@sync_texture Fixture.textures Fixture.cache once 0x100000 3 texture
       Fixture.config).1.2 in
  self_sampling_indices twice = self_sampling_indices once.
Proof.
  apply (@sync_texture_twice_same_indices Fixture.textures); [|lia].
  vm_compute. apply NoDup_cons. split.
  - intros Hin. apply list_elem_of_singleton in Hin. discriminate.
  - apply NoDup_singleton.
Defined.

(** ** Soundness of the reversed swizzle *)

Lemma find_position_sound v surface j :
  List.find (λ j, v =? sw_at surface j) [0; 1; 2; 3] = Some j →
  0 ≤ j < 4 ∧ sw_at surface j = v.
Proof.
  intros Hfind. apply List.find_some in Hfind as [Hin Heq].
  apply Z.eqb_eq in Heq. split; [|done].
  simpl in Hin. lia.
Qed.

Lemma find_position_none v surface :
  (∀ j, 0 ≤ j < 4 → sw_at surface j ≠ v) →
  List.find (λ j, v =? sw_at surface j) [0; 1; 2; 3] = None.
Proof.
  intros Habsent.
  assert (∀ j, 0 ≤ j < 4 → (v =? sw_at surface j) = false) as Hmiss.
  { intros j Hj. apply Z.eqb_neq. intros ->. by apply (Habsent j). }
  cbn [List.find]. by rewrite (Hmiss 0), (Hmiss 1), (Hmiss 2), (Hmiss 3) by lia.
Qed.

(** Each call of the reversed swizzle sets one output channel [i]; the
    value is either the declared selector itself, when that is a constant,
    or RED plus a position of the surface swizzle that holds the declared
    selector. A colour selector that the surface swizzle does not hold sets
    nothing: that channel keeps the swizzle the surface had before. *)
Theorem remap_channel_sound (swizzle surface : swizzle4) (i : Z) :
  Forall
    (λ c, ∃ value,
       c = glTexParameteri GL_TEXTURE_2D (GL_TEXTURE_SWIZZLE_R + i) value
       ∧ (value = sw_at swizzle i ∧ ¬ (GL_RED ≤ value ≤ GL_ALPHA)
          ∨ GL_RED ≤ value < GL_RED + 4
            ∧ sw_at surface (value - GL_RED) = sw_at swizzle i))
    (remap_channel swizzle surface i)
  ∧ (GL_RED ≤ sw_at swizzle i ≤ GL_ALPHA →
     (∀ j, 0 ≤ j < 4 → sw_at surface j ≠ sw_at swizzle i) →
     remap_channel swizzle surface i = []).
Proof.
  unfold remap_channel. split.
  - destruct (_ || _) eqn:Hfixed.
    + repeat constructor. eexists. split; [done|]. left. split; [done|].
      apply orb_true_iff in Hfixed. rewrite !Z.ltb_lt in Hfixed. lia.
    + destruct (List.find _ _) as [j|] eqn:Hfind; [|constructor].
      apply find_position_sound in Hfind as [Hj Hat].
      repeat constructor. eexists. split; [done|]. right.
      replace (GL_RED + j - GL_RED) with j by lia. split; [lia | done].
  - intros Hcolour Habsent.
    assert ((sw_at swizzle i <? GL_RED) || (GL_ALPHA <? sw_at swizzle i) = false) as ->.
    { apply orb_false_iff. rewrite !Z.ltb_ge. lia. }
    by rewrite find_position_none.
Qed.

(** When the surface swizzle holds each of the four colours and differs
    from the declared swizzle, the reversed swizzle sets every output
    channel exactly once, in the order R, G, B, A. *)
Theorem reconcile_swizzle_sets_all_channels (swizzle surface : swizzle4) :
  surface ≠ swizzle →
  (∀ v, GL_RED ≤ v ≤ GL_ALPHA → ∃ j, 0 ≤ j < 4 ∧ sw_at surface j = v) →
  omap parameter_name (reconcile_swizzle swizzle (Some surface))
  = [GL_TEXTURE_SWIZZLE_R; GL_TEXTURE_SWIZZLE_R + 1; GL_TEXTURE_SWIZZLE_R + 2;
     GL_TEXTURE_SWIZZLE_R + 3]
  ∧ length (reconcile_swizzle swizzle (Some surface)) = 4%nat.
Proof.
  intros Hdiff Hfull.
  assert (memcmp16_equal surface swizzle = false) as Hcmp.
  { apply not_true_iff_false. by rewrite memcmp16_equal_spec. }
  assert (∀ i, ∃ value,
            remap_channel swizzle surface i
            = [glTexParameteri GL_TEXTURE_2D (GL_TEXTURE_SWIZZLE_R + i) value])
    as Hchannel.
  { intros i. unfold remap_channel. destruct (_ || _) eqn:Hfixed; [by eexists|].
    apply orb_false_iff in Hfixed. rewrite !Z.ltb_ge in Hfixed.
    destruct (List.find _ _) as [j|] eqn:Hfind; [by eexists|].
    destruct (Hfull (sw_at swizzle i) ltac:(lia)) as (j & Hj & Hat).
    eapply List.find_none with (x := j) in Hfind.
    - apply Z.eqb_neq in Hfind. by rewrite Hat in Hfind.
    - simpl. lia. }
  unfold reconcile_swizzle. rewrite Hcmp. simpl. rewrite app_nil_r.
  destruct (Hchannel 0) as [v0 ->], (Hchannel 1) as [v1 ->],
    (Hchannel 2) as [v2 ->], (Hchannel 3) as [v3 ->].
  split; [|done]. simpl. by rewrite Z.add_0_r.
Qed.

Lemma remap_channel_sound_witness :
  remap_channel (Swizzle GL_BLUE GL_GREEN GL_RED GL_ONE)
    (Swizzle GL_RED GL_GREEN GL_GREEN GL_ALPHA) 0 = [].
Proof.
  apply (proj2 (remap_channel_sound (Swizzle GL_BLUE GL_GREEN GL_RED GL_ONE)
                  (Swizzle GL_RED GL_GREEN GL_GREEN GL_ALPHA) 0)).
  - simpl. unfold GL_RED, GL_BLUE, GL_ALPHA. lia.
  - intros j Hj. assert (j = 0 ∨ j = 1 ∨ j = 2 ∨ j = 3) as [-> | [-> | [-> | ->]]] by lia;
      discriminate.
Defined.

Lemma reconcile_swizzle_sets_all_channels_witness :
  omap parameter_name
    (reconcile_swizzle (Swizzle GL_BLUE GL_GREEN GL_RED GL_ONE)
       (Some (Swizzle GL_RED GL_GREEN GL_BLUE GL_ALPHA)))
  = [GL_TEXTURE_SWIZZLE_R; GL_TEXTURE_SWIZZLE_R + 1; GL_TEXTURE_SWIZZLE_R + 2;
     GL_TEXTURE_SWIZZLE_R + 3]
  ∧ length (reconcile_swizzle (Swizzle GL_BLUE GL_GREEN GL_RED GL_ONE)
              (Some (Swizzle GL_RED GL_GREEN GL_BLUE GL_ALPHA))) = 4%nat.
Proof.
  apply reconcile_swizzle_sets_all_channels; [discriminate|].
  intros v Hv. unfold GL_RED, GL_ALPHA in Hv.
  assert (v = GL_RED ∨ v = GL_GREEN ∨ v = GL_BLUE ∨ v = GL_ALPHA)
    as [-> | [-> | [-> | ->]]]
    by (unfold GL_RED, GL_GREEN, GL_BLUE, GL_ALPHA; lia).
  - exists 0. split; [lia | reflexivity].
  - exists 1. split; [lia | reflexivity].
  - exists 2. split; [lia | reflexivity].
  - exists 3. split; [lia | reflexivity].
Defined.

(** ** Stripped symbols *)

Lemma emplace_lookup k v (m : gmap Z AttributeInformation) k' :
  emplace k v m !! k'
  = match m !! k' with
    | Some w => Some w
    | None => if decide (k = k') then Some v else None
    end.
Proof.
  unfold emplace. destruct (m !! k) as [w|] eqn:Hk.
  - destruct (m !! k') as [w'|] eqn:Hk'; [done|].
    destruct (decide (k = k')) as [->|]; [congruence | done].
  - destruct (decide (k = k')) as [->|Hne].
    + by rewrite lookup_insert_eq, Hk.
    + rewrite lookup_insert_ne by done. by destruct (m !! k').
Qed.

Lemma first_attribute_Some k attrs j :
  first_attribute k attrs = Some j →
  0 ≤ j < Z.of_nat (length attrs)
  ∧ ∃ a, attrs !! Z.to_nat j = Some a ∧ regIndex a = k.
Proof.
  revert j. induction attrs as [|a attrs IH]; intros j; simpl; [done|].
  destruct (Z.eqb_spec (regIndex a) k) as [Hk|Hne].
  - intros [= <-]. split; [lia|]. by exists a.
  - destruct (first_attribute k attrs) as [j'|]; simpl; [|done].
    intros [= <-]. destruct (IH j' eq_refl) as [Hj' (a' & Ha' & Hk')].
    split; [lia|]. exists a'. split; [|done].
    replace (Z.to_nat (Z.succ j')) with (S (Z.to_nat j')) by lia. done.
Qed.

Lemma first_attribute_None k attrs :
  first_attribute k attrs = None ↔ ∀ a, a ∈ attrs → regIndex a ≠ k.
Proof.
  induction attrs as [|a attrs IH]; simpl.
  - split; [|done]. intros _ a Ha. by apply elem_of_nil in Ha.
  - destruct (Z.eqb_spec (regIndex a) k) as [Hk|Hne].
    + split; [done|]. intros Hall. exfalso. apply (Hall a); [left | done].
    + destruct (first_attribute k attrs) as [j|]; simpl.
      * split; [done|]. intros Hall.
        assert (Some j = None) as Habsurd; [|done].
        apply IH. intros a' Ha'. apply Hall. by right.
      * split; [|done]. intros _ a' Ha'. apply elem_of_cons in Ha' as [->|Ha']; [done|].
        by apply (proj1 IH).
Qed.

Section StrippedSymbols.
Context {V : VertexCollaborators}.
Implicit Types (vertex_program : SceGxmVertexProgram) (glvert : GLVertexProgram).

Lemma emplace_stripped_lookup i attrs (m : gmap Z AttributeInformation) k :
  emplace_stripped i attrs m !! k
  = match m !! k with
    | Some info => Some info
    | None => (λ j, stripped_entry (i + j)) <$> first_attribute k attrs
    end.
Proof.
  revert i m. induction attrs as [|a attrs IH]; intros i m; simpl.
  - by destruct (m !! k).
  - rewrite IH, emplace_lookup. destruct (m !! k) as [info|]; [done|].
    destruct (decide (regIndex a = k)) as [Hk|Hne].
    + apply Z.eqb_eq in Hk. rewrite Hk. simpl. by rewrite Z.add_0_r.
    + apply Z.eqb_neq in Hne. rewrite Hne.
      destruct (first_attribute k attrs) as [j|]; simpl; [|done].
      do 2 f_equal. lia.
Qed.

(** The first draw of a program with a body that uses primary registers
    gives every register read by an attribute an entry: an entry that is
    already there is kept, and a new one has the position of the first
    attribute reading that register as location, type F32 and no register
    format. Registers that no attribute reads get nothing. *)
Theorem check_stripped_symbols_entries vertex_program glvert primary_reg_count k :
  stripped_symbols_checked glvert = false →
  program_primary_reg_count vertex_program = Some primary_reg_count →
  primary_reg_count ≠ 0 →
  attribute_infos (check_stripped_symbols vertex_program glvert) !! k
  = match attribute_infos glvert !! k with
    | Some info => Some info
    | None => stripped_entry <$> first_attribute k (attributes vertex_program)
    end
  ∧ Forall (known (check_stripped_symbols vertex_program glvert))
      (attributes vertex_program).
Proof.
  intros Hfresh Hbody Hcount.
  assert (attribute_infos (check_stripped_symbols vertex_program glvert)
          = emplace_stripped 0 (attributes vertex_program) (attribute_infos glvert))
    as Hinfos.
  { unfold check_stripped_symbols. rewrite Hfresh, Hbody. simpl.
    apply Z.eqb_neq in Hcount. by rewrite Hcount. }
  split.
  - rewrite Hinfos, emplace_stripped_lookup. done.
  - apply Forall_forall. intros a Ha. unfold known.
    rewrite Hinfos, emplace_stripped_lookup.
    destruct (attribute_infos glvert !! regIndex a); [by eexists|].
    destruct (first_attribute (regIndex a) (attributes vertex_program)) as [j|] eqn:Hfirst;
      [by eexists|].
    exfalso. by apply (proj1 (first_attribute_None _ _) Hfirst a Ha).
Qed.

(** The check runs once: it always leaves the flag set, a second run
    changes nothing, and when the flag was set, the program has no body or
    the body uses no primary register, the entries are left as they were. *)
Theorem check_stripped_symbols_once vertex_program glvert :
  let checked := check_stripped_symbols vertex_program glvert in
  stripped_symbols_checked checked = true
  ∧ (∀ vertex_program', check_stripped_symbols vertex_program' checked = checked)
  ∧ (stripped_symbols_checked glvert = true
     ∨ program_primary_reg_count vertex_program = None
     ∨ program_primary_reg_count vertex_program = Some 0 →
     attribute_infos checked = attribute_infos glvert).
Proof.
  intros checked.
  assert (stripped_symbols_checked checked = true) as Hset.
  { subst checked. unfold check_stripped_symbols.
    by destruct (stripped_symbols_checked glvert) eqn:Hflag. }
  split_and!; [done | |].
  - intros vertex_program'. unfold check_stripped_symbols at 1. by rewrite Hset.
  - subst checked. unfold check_stripped_symbols.
    intros [-> | [-> | ->]]; [done | |]; by destruct (stripped_symbols_checked glvert).
Qed.

(** Starting from no entries, with at most 65536 attributes, two different
    registers never get the same location. *)
Theorem check_stripped_symbols_distinct_locations vertex_program glvert
    primary_reg_count k1 k2 info1 info2 :
  let checked := check_stripped_symbols vertex_program glvert in
  attribute_infos glvert = ∅ →
  stripped_symbols_checked glvert = false →
  program_primary_reg_count vertex_program = Some primary_reg_count →
  primary_reg_count ≠ 0 →
  Z.of_nat (length (attributes vertex_program)) ≤ 2 ^ 16 →
  attribute_infos checked !! k1 = Some info1 →
  attribute_infos checked !! k2 = Some info2 →
  k1 ≠ k2 →
  location info1 ≠ location info2.
Proof.
  intros checked Hempty Hfresh Hbody Hcount Hfew H1 H2 Hdiff Hsame. subst checked.
  apply Hdiff.
  assert (∀ k info,
            attribute_infos (check_stripped_symbols vertex_program glvert) !! k = Some info →
            ∃ j, first_attribute k (attributes vertex_program) = Some j
                 ∧ location info = j) as Hentry.
  { intros k info Hk.
    assert (attribute_infos (check_stripped_symbols vertex_program glvert)
            = emplace_stripped 0 (attributes vertex_program) (attribute_infos glvert))
      as Hinfos.
    { unfold check_stripped_symbols. rewrite Hfresh, Hbody. simpl.
      apply Z.eqb_neq in Hcount. by rewrite Hcount. }
    rewrite Hinfos, emplace_stripped_lookup, Hempty, lookup_empty in Hk.
    destruct (first_attribute k (attributes vertex_program)) as [j|] eqn:Hfirst;
      [|done].
    injection Hk as <-. exists j. split; [done|]. simpl.
    apply first_attribute_Some in Hfirst as [Hj _].
    apply u16_small. lia. }
  destruct (Hentry k1 info1 H1) as (j1 & Hfirst1 & Hloc1).
  destruct (Hentry k2 info2 H2) as (j2 & Hfirst2 & Hloc2).
  assert (j1 = j2) as -> by congruence.
  apply first_attribute_Some in Hfirst1 as (_ & a1 & Ha1 & <-).
  apply first_attribute_Some in Hfirst2 as (_ & a2 & Ha2 & <-).
  congruence.
Qed.
End StrippedSymbols.

Lemma check_stripped_symbols_entries_witness :
  attribute_infos (check_stripped_symbols Samples.program Samples.unchecked) !! 4
  = match attribute_infos Samples.unchecked !! 4 with
    | Some info => Some info
    | None => stripped_entry <$> first_attribute 4 (attributes Samples.program)
    end
  ∧ Forall (known (check_stripped_symbols Samples.program Samples.unchecked))
      (attributes Samples.program).
Proof.
  apply (check_stripped_symbols_entries Samples.program Samples.unchecked 3 4);
    [reflexivity | reflexivity | lia].
Defined.

Lemma check_stripped_symbols_once_witness :
  attribute_infos (check_stripped_symbols Fixture.vertex_program Samples.unchecked)
  = attribute_infos Samples.unchecked.
Proof.
  apply (check_stripped_symbols_once Fixture.vertex_program Samples.unchecked).
  right. right. reflexivity.
Defined.

Lemma check_stripped_symbols_distinct_locations_witness :
  location (stripped_entry 0) ≠ location (stripped_entry 1).
Proof.
  apply (check_stripped_symbols_distinct_locations Samples.program Samples.unchecked 3
           0 4 (stripped_entry 0) (stripped_entry 1));
    [reflexivity | reflexivity | reflexivity | lia | simpl; lia
    | vm_compute; reflexivity | vm_compute; reflexivity | lia].
Defined.

(** ** Definedness and shape of the vertex routine *)

Section VertexRoutine.
Context {V : VertexCollaborators}.
Implicit Types (ring : RingBuffer) (glvert : GLVertexProgram).
Implicit Types (vertex_streams : list VertexStreamData).
Implicit Types (vertex_program : SceGxmVertexProgram).
Implicit Types (info : AttributeInformation) (attribute : SceGxmVertexAttribute).

Lemma stage_streams_lengths ring vertex_streams :
  length (stage_streams ring vertex_streams).1.1.2 = length vertex_streams
  ∧ length (stage_streams ring vertex_streams).1.2 = length vertex_streams.
Proof.
  revert ring. induction vertex_streams as [|s rest IH]; intros ring; [done|].
  rewrite stage_streams_cons. cbv zeta. simpl.
  destruct (IH (stage_stream ring s).1.1.1) as [-> ->]. done.
Qed.

Lemma stage_streams_kinds ring vertex_streams :
  Forall (λ c, is_vertex_attribute_call c = false) (stage_streams ring vertex_streams).2.
Proof.
  revert ring. induction vertex_streams as [|s rest IH]; intros ring; [constructor|].
  rewrite stage_streams_cons. cbv zeta. simpl. apply Forall_app. split; [|apply IH].
  unfold stage_stream. destruct (negb _); [|constructor].
  destruct (allocate ring (size s)) as [[off|] ring1]; by repeat constructor.
Qed.

Lemma bind_attribute_defined glvert vertex_program offset_in_buffer attribute :
  is_Some (bind_attribute glvert vertex_program offset_in_buffer attribute)
  ↔ (known glvert attribute →
     (Z.to_nat (streamIndex attribute) < length (streams vertex_program))%nat
     ∧ (Z.to_nat (streamIndex attribute) < length offset_in_buffer)%nat).
Proof.
  unfold bind_attribute, known. rewrite <- !lookup_lt_is_Some.
  destruct (attribute_infos glvert !! regIndex attribute) as [info|].
  - destruct (streams vertex_program !! _) as [stream|]; simpl.
    + destruct (offset_in_buffer !! _) as [base|]; simpl.
      * split; [by intros _ _; split; eexists | by intros _; eexists].
      * split; [by intros [? ?] | ].
        intros Hboth. destruct Hboth as [_ [? ?]]; [by eexists | done].
    + split; [by intros [? ?] | ].
      intros Hboth. destruct Hboth as [[? ?] _]; [by eexists | done].
  - split; [by intros _ [? ?] | by intros _; eexists].
Qed.

Lemma bind_attribute_kinds glvert vertex_program offset_in_buffer attribute calls :
  bind_attribute glvert vertex_program offset_in_buffer attribute = Some calls →
  Forall (λ c, is_vertex_attribute_call c = true) calls.
Proof.
  unfold bind_attribute.
  destruct (attribute_infos glvert !! regIndex attribute) as [info|];
    [|intros [= <-]; constructor].
  destruct (streams vertex_program !! _) as [stream|]; simpl; [|done].
  destruct (offset_in_buffer !! _) as [base|]; simpl; [|done].
  intros [= <-]. induction (seqZ 0 _) as [|i l IH]; simpl; [constructor|].
  repeat constructor; [|exact IH].
  unfold set_attribute_pointer. by destruct (_ || _).
Qed.

Lemma bind_attributes_defined glvert vertex_program offset_in_buffer attrs :
  is_Some (bind_attributes glvert vertex_program offset_in_buffer attrs)
  ↔ Forall (λ a, known glvert a →
                 (Z.to_nat (streamIndex a) < length (streams vertex_program))%nat
                 ∧ (Z.to_nat (streamIndex a) < length offset_in_buffer)%nat) attrs.
Proof.
  induction attrs as [|a attrs IH]; simpl.
  - split; [constructor | by eexists].
  - rewrite Forall_cons, <- IH, <- bind_attribute_defined.
    destruct (bind_attribute glvert vertex_program offset_in_buffer a); simpl.
    + destruct (bind_attributes glvert vertex_program offset_in_buffer attrs); simpl.
      * split; [by intros _; split; eexists | by intros _; eexists].
      * split; [by intros [? ?] | by intros [_ [? ?]]].
    + split; [by intros [? ?] | by intros [[? ?] _]].
Qed.

Lemma bind_attributes_kinds glvert vertex_program offset_in_buffer attrs calls :
  bind_attributes glvert vertex_program offset_in_buffer attrs = Some calls →
  Forall (λ c, is_vertex_attribute_call c = true) calls.
Proof.
  revert calls. induction attrs as [|a attrs IH]; intros calls; simpl.
  - intros [= <-]. constructor.
  - destruct (bind_attribute glvert vertex_program offset_in_buffer a) as [first|] eqn:Ha;
      simpl; [|done].
    destruct (bind_attributes glvert vertex_program offset_in_buffer attrs) as [rest|];
      simpl; [|done].
    intros [= <-]. apply Forall_app. split.
    + by eapply bind_attribute_kinds.
    + by apply IH.
Qed.

(** The routine is defined exactly when every attribute that has an entry
    in [attribute_infos] (after the check of stripped symbols) names a
    stream that exists both in the program's streams and in the per-draw
    stream array; other inputs index an array past its end. *)
Theorem sync_vertex_streams_and_attributes_defined ring vertex_streams vertex_program
    glvert :
  is_Some (sync_vertex_streams_and_attributes ring vertex_streams vertex_program glvert)
  ↔ Forall
      (λ a, known (check_stripped_symbols vertex_program glvert) a →
            (Z.to_nat (streamIndex a) < length (streams vertex_program))%nat
            ∧ (Z.to_nat (streamIndex a) < length vertex_streams)%nat)
      (attributes vertex_program).
Proof.
  rewrite sync_vertex_streams_and_attributes_stages. cbv zeta.
  rewrite fmap_is_Some, bind_attributes_defined.
  by rewrite (proj2 (stage_streams_lengths ring vertex_streams)).
Qed.

(** When the routine is defined, it leaves every stream without data, the
    host program checked, and a trace made of the staging calls, the
    binding of the ring's buffer, calls that set, enable or give a divisor
    to an attribute, and the unbinding of the buffer, in this order. *)
Theorem sync_vertex_streams_and_attributes_result ring vertex_streams vertex_program
    glvert ring' vertex_streams' glvert' calls :
  sync_vertex_streams_and_attributes ring vertex_streams vertex_program glvert
  = Some (ring', vertex_streams', glvert', calls) →
  Forall (λ s, data s = 0) vertex_streams'
  ∧ length vertex_streams' = length vertex_streams
  ∧ stripped_symbols_checked glvert' = true
  ∧ ∃ staging attribute_calls,
      calls = staging ++ [glBindBuffer GL_ARRAY_BUFFER (handle ring')] ++ attribute_calls
              ++ [glBindBuffer GL_ARRAY_BUFFER 0]
      ∧ staging = (stage_streams ring vertex_streams).2
      ∧ Forall (λ c, is_vertex_attribute_call c = false) staging
      ∧ Forall (λ c, is_vertex_attribute_call c = true) attribute_calls.
Proof.
  rewrite sync_vertex_streams_and_attributes_stages. cbv zeta.
  destruct (bind_attributes _ _ _ _) as [attribute_calls|] eqn:Hbind; simpl; [|done].
  intros [= <- <- <- <-]. split_and!.
  - apply stage_streams_cleared.
  - apply stage_streams_lengths.
  - unfold check_stripped_symbols. by destruct (stripped_symbols_checked glvert) eqn:Hf.
  - exists (stage_streams ring vertex_streams).2, attribute_calls.
    split_and!; [done | done | apply stage_streams_kinds |].
    by eapply bind_attributes_kinds.
Qed.

(** A register-formatted attribute is always handed to the backend as GL_INT
    data of at most 4 components per location, on at most 64 locations,
    whatever the component size and count are; more than one location means
    4 components each, 16 bytes apart. *)
Theorem regformat_layout_within_backend_limits info attribute :
  regformat info = true →
  let l := attribute_layout info attribute in
  0 ≤ component_count l ≤ 4
  ∧ gl_type l = GL_INT
  ∧ upload_integral l = true
  ∧ 1 ≤ array_size l ≤ 64
  ∧ (1 < array_size l → component_count l = 4 ∧ array_element_size l = 16).
Proof.
  intros Hreg l. pose proof (attribute_layout_bounds info attribute) as [Hsize _].
  fold l in Hsize. subst l. unfold attribute_layout in *. rewrite Hreg in *.
  pose proof (u8_range ((attribute_format_size (format attribute)
                         * componentCount attribute + 3) ÷ 4)) as Hc.
  set (count := u8 _) in *.
  destruct (Z.ltb_spec 4 count) as [Hmany|Hfew]; simpl in *.
  - split_and!; try done; try lia.
  - split_and!; try done; try lia.
Qed.

(** An attribute that is not register-formatted takes one location with its
    declared component count and the GL type of its format; it is set as
    integer data when the shader's parameter type is an integer type or the
    format is untyped, and otherwise as floating-point data with the
    format's normalisation flag. *)
Theorem typed_attribute_binding glvert vertex_program offset_in_buffer attribute
    info stream base :
  regformat info = false →
  attribute_infos glvert !! regIndex attribute = Some info →
  streams vertex_program !! Z.to_nat (streamIndex attribute) = Some stream →
  offset_in_buffer !! Z.to_nat (streamIndex attribute) = Some base →
  attribute_in_range attribute →
  info_in_range info →
  base_in_range base →
  let pointer := (λ b, offset attribute + b) <$> base in
  let type := attribute_format_to_gl_type (format attribute) in
  bind_attribute glvert vertex_program offset_in_buffer attribute
  = Some [ if is_integer_type (gxm_type info)
              || (format attribute =? SCE_GXM_ATTRIBUTE_FORMAT_UNTYPED) then
             glVertexAttribIPointer (location info) (componentCount attribute) type
               (stride stream) pointer
           else
             glVertexAttribPointer (location info) (componentCount attribute) type
               (attribute_format_normalised (format attribute)) (stride stream) pointer;
           glEnableVertexAttribArray (location info);
           glVertexAttribDivisor (location info)
             (if is_stream_instancing (indexSource stream) then 1 else 0) ].
Proof.
  intros Hreg Hinfo Hstream Hbase Hattr Hloc Hrange pointer type.
  rewrite (bind_attribute_known glvert vertex_program offset_in_buffer attribute
             info stream base Hinfo Hstream Hbase Hattr Hloc Hrange).
  unfold attribute_layout, set_attribute_pointer. rewrite Hreg. simpl.
  rewrite Z.add_0_r. subst pointer type.
  by destruct (gxm_type info).
Qed.
End VertexRoutine.

Lemma sync_vertex_streams_and_attributes_defined_witness :
  is_Some (@sync_vertex_streams_and_attributes Fixture.vertices Fixture.ring
             Fixture.vertex_streams Fixture.vertex_program Fixture.glvert)
  ∧ @sync_vertex_streams_and_attributes Fixture.vertices Fixture.ring
      Fixture.vertex_streams Samples.stray_program Fixture.glvert = None.
Proof.
  split.
  - apply (@sync_vertex_streams_and_attributes_defined Fixture.vertices).
    repeat constructor; simpl; lia.
  - apply eq_None_not_Some. intros Hdefined.
    apply (@sync_vertex_streams_and_attributes_defined Fixture.vertices) in Hdefined.
    apply Forall_cons in Hdefined as [_ Hstray].
    apply Forall_cons in Hstray as [Hstray _].
    destruct Hstray as [Hstream _]; [by eexists|].
    simpl in Hstream. lia.
Defined.

Lemma sync_vertex_streams_and_attributes_result_witness :
  Forall (λ s, data s = 0) (replicate 4 {| data := 0; size := 0 |})
  ∧ length (replicate 4 {| data := 0; size := 0 |}) = length Fixture.vertex_streams.
Proof.
  destruct (@sync_vertex_streams_and_attributes_result Fixture.vertices Fixture.ring
              Fixture.vertex_streams Fixture.vertex_program Fixture.glvert
              (216, 1024) (replicate 4 {| data := 0; size := 0 |}) Fixture.glvert
              [ ring_buffer_allocate 96; memcpy_to_ring 64 0x5000 96;
                ring_buffer_allocate 56; memcpy_to_ring 160 0x6000 56;
                glBindBuffer GL_ARRAY_BUFFER 7;
                glVertexAttribPointer 0 3 0x1409 false 32 (Some 68);
                glEnableVertexAttribArray 0; glVertexAttribDivisor 0 0;
                glVertexAttribIPointer 1 4 GL_INT 28 (Some 168);
                glEnableVertexAttribArray 1; glVertexAttribDivisor 1 1;
                glVertexAttribIPointer 2 4 GL_INT 28 (Some 184);
                glEnableVertexAttribArray 2; glVertexAttribDivisor 2 1;
                glBindBuffer GL_ARRAY_BUFFER 0 ])
    as (Hcleared & Hlength & _).
  - vm_compute. reflexivity.
  - split; [exact Hcleared | exact Hlength].
Defined.

Lemma regformat_layout_within_backend_limits_witness :
  let l := @attribute_layout Fixture.vertices Fixture.matrix_info Fixture.matrix in
  0 ≤ component_count l ≤ 4
  ∧ gl_type l = GL_INT
  ∧ upload_integral l = true
  ∧ 1 ≤ array_size l ≤ 64
  ∧ (1 < array_size l → component_count l = 4 ∧ array_element_size l = 16).
Proof.
  apply (@regformat_layout_within_backend_limits Fixture.vertices). reflexivity.
Defined.

Lemma typed_attribute_binding_witness :
  @bind_attribute Fixture.vertices Fixture.glvert Fixture.vertex_program
    [Some 64; Some 160; Some 0; Some 0] Fixture.position
  = Some [ glVertexAttribPointer 0 3 0x1409 false 32 (Some 68);
           glEnableVertexAttribArray 0;
           glVertexAttribDivisor 0 0 ].
Proof.
  rewrite (@typed_attribute_binding Fixture.vertices Fixture.glvert
             Fixture.vertex_program [Some 64; Some 160; Some 0; Some 0]
             Fixture.position Fixture.position_info
             {| stride := 32; indexSource := 0 |} (Some 64)).
  - reflexivity.
  - reflexivity.
  - vm_compute. reflexivity.
  - reflexivity.
  - reflexivity.
  - unfold attribute_in_range. simpl. lia.
  - unfold info_in_range. simpl. lia.
  - intros b [= <-]. lia.
Defined.

(** ** Comparison functions and stencil operations *)

(** Depth function: state of the back face issues nothing; state of the
    front face issues one [glDepthFunc] whose argument is one of the eight
    GL comparison functions, and two different named guest functions never
    give the same one. *)
Theorem sync_depth_func_faithful (f : SceGxmDepthFunc) :
  sync_depth_func f false = []
  ∧ (∃ g, sync_depth_func f true = [glDepthFunc g] ∧ GL_NEVER ≤ g ≤ GL_ALWAYS)
  ∧ ∀ f', f ≠ SCE_GXM_DEPTH_FUNC_unnamed →
          f' ≠ SCE_GXM_DEPTH_FUNC_unnamed →
          f ≠ f' →
          sync_depth_func f true ≠ sync_depth_func f' true.
Proof.
  split_and!.
  - done.
  - exists (translate_depth_func f). split; [done|].
    destruct f; unfold translate_depth_func, GL_NEVER, GL_LESS, GL_EQUAL, GL_LEQUAL,
      GL_GREATER, GL_NOTEQUAL, GL_GEQUAL, GL_ALWAYS; lia.
  - intros f' Hf Hf' Hdiff Hsame. unfold sync_depth_func in Hsame.
    injection Hsame as Hsame. by destruct f, f'.
Qed.

Lemma translate_stencil_op_injective (a b : SceGxmStencilOp) :
  a ≠ SCE_GXM_STENCIL_OP_unnamed →
  b ≠ SCE_GXM_STENCIL_OP_unnamed →
  translate_stencil_op a = translate_stencil_op b →
  a = b.
Proof. intros Ha Hb Hsame. by destruct a, b. Qed.

Lemma translate_stencil_func_injective (a b : SceGxmStencilFunc) :
  a ≠ SCE_GXM_STENCIL_FUNC_unnamed →
  b ≠ SCE_GXM_STENCIL_FUNC_unnamed →
  translate_stencil_func a = translate_stencil_func b →
  a = b.
Proof. intros Ha Hb Hsame. by destruct a, b. Qed.

(** Stencil state: the three calls carry the whole guest state. Two states
    made of named functions and operations that give the same calls are the
    same state, with the same values, for the same face. *)
Theorem sync_stencil_func_injective (op op' : GxmStencilStateOp)
    (vals vals' : GxmStencilStateValues) (back back' : bool) :
  func op ≠ SCE_GXM_STENCIL_FUNC_unnamed →
  func op' ≠ SCE_GXM_STENCIL_FUNC_unnamed →
  Forall (λ o, o ≠ SCE_GXM_STENCIL_OP_unnamed)
    [stencil_fail op; depth_fail op; depth_pass op;
     stencil_fail op'; depth_fail op'; depth_pass op'] →
  sync_stencil_func op vals back = sync_stencil_func op' vals' back' →
  op = op' ∧ vals = vals' ∧ back = back'.
Proof.
  intros Hfunc Hfunc' Hops Hsame.
  apply Forall_cons in Hops as [Hsf Hops]. apply Forall_cons in Hops as [Hdf Hops].
  apply Forall_cons in Hops as [Hdp Hops]. apply Forall_cons in Hops as [Hsf' Hops].
  apply Forall_cons in Hops as [Hdf' Hops]. apply Forall_cons in Hops as [Hdp' _].
  unfold sync_stencil_func in Hsame.
  injection Hsame as Hface Hsfail Hdfail Hdpass _ Hfn Href Hcmp _ Hwrite.
  apply translate_stencil_op_injective in Hsfail, Hdfail, Hdpass; try done.
  apply translate_stencil_func_injective in Hfn; try done.
  destruct op, op', vals, vals'. simpl in *. subst.
  split_and!; [done | done |]. by destruct back, back'.
Qed.

(** Culling: the four cull modes give four different call sequences, and
    the face to cull is only ever set right after culling is enabled. *)
Theorem sync_cull_faithful (mode mode' : SceGxmCullMode) :
  (sync_cull mode = sync_cull mode' → mode = mode')
  ∧ (∀ face, glCullFace face ∈ sync_cull mode →
             sync_cull mode = [glEnable GL_CULL_FACE; glCullFace face]
             ∧ (face = GL_BACK ∨ face = GL_FRONT)).
Proof.
  split.
  - by destruct mode, mode'.
  - intros face Hin. destruct mode; simpl in *.
    + apply list_elem_of_singleton in Hin. done.
    + apply elem_of_cons in Hin as [?|Hin]; [done|].
      apply list_elem_of_singleton in Hin. injection Hin as ->. split; [done | by right].
    + apply elem_of_cons in Hin as [?|Hin]; [done|].
      apply list_elem_of_singleton in Hin. injection Hin as ->. split; [done | by left].
    + by apply elem_of_nil in Hin.
Qed.

Lemma sync_depth_func_faithful_witness :
  sync_depth_func SCE_GXM_DEPTH_FUNC_LESS true
  ≠ sync_depth_func SCE_GXM_DEPTH_FUNC_LESS_EQUAL true.
Proof.
  apply (proj2 (proj2 (sync_depth_func_faithful SCE_GXM_DEPTH_FUNC_LESS)));
    discriminate.
Defined.

Lemma sync_stencil_func_injective_witness :
  let op :=
    {| func := SCE_GXM_STENCIL_FUNC_LESS; stencil_fail := SCE_GXM_STENCIL_OP_KEEP;
       depth_fail := SCE_GXM_STENCIL_OP_ZERO; depth_pass := SCE_GXM_STENCIL_OP_INVERT |} in
  let vals := {| ref := 1; compare_mask := 255; write_mask := 15 |} in
  op = op ∧ vals = vals ∧ true = true.
Proof.
  apply sync_stencil_func_injective;
    [discriminate | discriminate | repeat constructor; discriminate | reflexivity].
Defined.

Lemma sync_cull_faithful_witness :
  sync_cull SCE_GXM_CULL_CCW = [glEnable GL_CULL_FACE; glCullFace GL_BACK]
  ∧ (GL_BACK = GL_BACK ∨ GL_BACK = GL_FRONT).
Proof.
  apply (proj2 (sync_cull_faithful SCE_GXM_CULL_CCW SCE_GXM_CULL_CCW) GL_BACK).
  simpl. apply elem_of_cons. right. apply list_elem_of_singleton. reflexivity.
Defined.

(** * The claims on the routines as a whole *)

(** ** The self-sampling vector along a run of resolutions *)

Section SelfSamplingHistory.
Context {X : TextureCollaborators}.
Implicit Types (state : GLState) (context : GLContext) (mem : MemState).
Implicit Types (index : Z) (texture : SceGxmTexture) (config : Config).
Implicit Types (bound : gmap Z Z).

Lemma self_sampling_consistent_step state context bound mem index texture config :
  0 ≤ index < 2 ^ 32 →
  self_sampling_consistent context bound →
  self_sampling_consistent (sync_texture state context mem index texture config).1.2
    (bound_after bound mem index texture).
Proof.
  intros Hindex [Hnodup Hbound]. unfold bound_after.
  destruct (aborts_early mem texture) eqn:Hguard.
  - destruct (sync_texture_aborted state context mem index texture config Hguard)
      as [msg ->].
    by split.
  - destruct (sync_texture_indices state context mem index texture config Hguard Hindex)
      as [Haddr Hindices].
    unfold self_sampling_consistent. rewrite Haddr, Hindices. clear Haddr Hindices.
    set (address := u32 (Z.shiftl (data_addr texture) 2)).
    destruct (Z.eqb_spec (color_surface_address context) address) as [Hsame|Hother].
    + destruct (decide (index ∈ self_sampling_indices context)) as [Hin|Hnew].
      * split; [done|]. intros j Hj.
        destruct (decide (j = index)) as [->|Hne].
        -- by rewrite lookup_insert_eq, Hsame.
        -- rewrite lookup_insert_ne by done. by apply Hbound.
      * split.
        -- apply NoDup_app. split_and!; [done | | apply NoDup_singleton].
           intros j Hj Hj'. apply list_elem_of_singleton in Hj'. by subst.
        -- intros j Hj. apply elem_of_app in Hj as [Hj|Hj].
           ++ destruct (decide (j = index)) as [->|Hne]; [done|].
              rewrite lookup_insert_ne by done. by apply Hbound.
           ++ apply list_elem_of_singleton in Hj as ->.
              by rewrite lookup_insert_eq, Hsame.
    + destruct (find_index index (self_sampling_indices context)) as [res|] eqn:Hfind.
      * apply find_index_Some in Hfind. split; [by apply erase_at_NoDup|].
        intros j Hj.
        destruct (decide (j = index)) as [->|Hne].
        -- by apply (erase_at_gone _ res index Hnodup Hfind) in Hj.
        -- rewrite lookup_insert_ne by done. apply Hbound.
           by apply (erase_at_other _ res index j Hfind Hne).
      * apply find_index_None in Hfind. split; [done|]. intros j Hj.
        destruct (decide (j = index)) as [->|Hne]; [done|].
        rewrite lookup_insert_ne by done. by apply Hbound.
Qed.

(** C2: along any run of texture unit resolutions, whether they pass the
    guards or return early on an invalid address range or a null palette,
    the self-sampling vector only ever holds units whose bound texture is
    at the colour surface's address (and holds each of them once), provided
    it did so at the start of the run, as the empty vector does. *)
Theorem self_sampling_consistent_always state context bound config
    (units : list (MemState * Z * SceGxmTexture)) :
  Forall (λ u, 0 ≤ u.1.2 < 2 ^ 32) units →
  self_sampling_consistent context bound →
  let out := resolve_units state context bound config units in
  self_sampling_consistent out.1.2 out.2.
Proof.
  intros Hunits. revert state context bound.
  induction Hunits as [|[[mem index] texture] units Hindex _ IH];
    intros state context bound Hstart; [done|].
  simpl. apply IH. by apply self_sampling_consistent_step.
Qed.
End SelfSamplingHistory.

Lemma self_sampling_consistent_always_witness :
  let rejected := Fixture.texture 0xC00 0 Fixture.U8U8U8U8 SCE_GXM_TEXTURE_TILED in
  let moved := Fixture.texture 0x800 0 Fixture.U8U8U8U8 SCE_GXM_TEXTURE_LINEAR in
  let out :=
    @resolve_units Fixture.textures Fixture.cache (Fixture.context 5 [3])
      {[ 3 := 0x1000 ]} Fixture.config [(0x100, 3, rejected); (0x100000, 3, moved)] in
  self_sampling_consistent out.1.2 out.2.
Proof.
  apply (@self_sampling_consistent_always Fixture.textures).
  - repeat constructor; simpl; lia.
  - split; [apply NoDup_singleton|].
    intros j Hj. apply list_elem_of_singleton in Hj as ->. reflexivity.
Defined.

(** ** Swizzle reconciliation within a resolution *)


Section SwizzleInResolution.
Context {X : TextureCollaborators}.
Implicit Types (state : GLState) (context : GLContext) (mem : MemState).
Implicit Types (index : Z) (texture : SceGxmTexture) (config : Config).


End SwizzleInResolution.


(** ** The trace of the vertex routine, attribute by attribute *)

Section VertexTrace.
Context {V : VertexCollaborators}.
Implicit Types (ring : RingBuffer) (glvert : GLVertexProgram).
Implicit Types (vertex_streams : list VertexStreamData).
Implicit Types (vertex_program : SceGxmVertexProgram).
Implicit Types (info : AttributeInformation) (attribute : SceGxmVertexAttribute).

Lemma bind_attributes_blocks glvert vertex_program offset_in_buffer attrs calls :
  bind_attributes glvert vertex_program offset_in_buffer attrs = Some calls →
  ∃ blocks,
    Forall2 (λ a block,
               bind_attribute glvert vertex_program offset_in_buffer a = Some block)
      attrs blocks
    ∧ calls = concat blocks.
Proof.
  revert calls. induction attrs as [|a attrs IH]; intros calls; simpl.
  - intros [= <-]. exists []. by split; [constructor|].
  - destruct (bind_attribute glvert vertex_program offset_in_buffer a) as [first|] eqn:Ha;
      simpl; [|done].
    destruct (bind_attributes glvert vertex_program offset_in_buffer attrs) as [rest|];
      simpl; [|done].
    intros [= <-]. destruct (IH rest eq_refl) as (blocks & Hblocks & ->).
    exists (first :: blocks). split; [by constructor | done].
Qed.

(** The routine, when it indexes in range, is the staging calls, the
    binding of the ring's buffer, one block of calls per attribute in the
    order of the program's attributes, and the unbinding. *)
Lemma sync_vertex_trace ring vertex_streams vertex_program glvert :
  let glvert' := check_stripped_symbols vertex_program glvert in
  let staged := stage_streams ring vertex_streams in
  Forall
    (λ a, known glvert' a →
          (Z.to_nat (streamIndex a) < length (streams vertex_program))%nat
          ∧ (Z.to_nat (streamIndex a) < length vertex_streams)%nat)
    (attributes vertex_program) →
  ∃ blocks,
    sync_vertex_streams_and_attributes ring vertex_streams vertex_program glvert
    = Some (staged.1.1.1, staged.1.1.2, glvert',
            staged.2 ++ [glBindBuffer GL_ARRAY_BUFFER (handle staged.1.1.1)]
            ++ concat blocks ++ [glBindBuffer GL_ARRAY_BUFFER 0])
    ∧ Forall2 (λ a block,
                 bind_attribute glvert' vertex_program staged.1.2 a = Some block)
        (attributes vertex_program) blocks
    ∧ Forall (λ c, is_vertex_attribute_call c = true) (concat blocks).
Proof.
  intros glvert' staged Hrange.
  rewrite sync_vertex_streams_and_attributes_stages. cbv zeta. fold glvert' staged.
  assert (is_Some (bind_attributes glvert' vertex_program staged.1.2
                     (attributes vertex_program))) as [calls Hcalls].
  { apply bind_attributes_defined.
    subst staged. by rewrite (proj2 (stage_streams_lengths ring vertex_streams)). }
  rewrite Hcalls. simpl.
  destruct (bind_attributes_blocks _ _ _ _ _ Hcalls) as (blocks & Hblocks & ->).
  exists blocks. split_and!; [done | done |].
  by eapply bind_attributes_kinds.
Qed.

(** The entry of the offset array for a stream: the result of its
    allocation when it has data, 0 when it has none. *)
Lemma staged_entry ring vertex_streams (i : nat) base :
  (stage_streams ring vertex_streams).1.2 !! i = Some base →
  ∃ s, vertex_streams !! i = Some s
       ∧ (stage_streams ring vertex_streams).1.1.2 !! i
         = Some (if pending s then {| data := 0; size := 0 |} else s)
       ∧ (data s ≠ 0 →
          base = (allocate (stage_streams ring (take i vertex_streams)).1.1.1 (size s)).1)
       ∧ (data s = 0 → base = Some 0).
Proof.
  intros Hbase.
  assert (is_Some (vertex_streams !! i)) as [s Hs].
  { apply lookup_lt_is_Some.
    rewrite <- (proj2 (stage_streams_lengths ring vertex_streams)).
    apply lookup_lt_is_Some. by eexists. }
  destruct (stage_streams_lookup ring vertex_streams i s Hs) as [Hstream Hentry].
  rewrite Hbase in Hentry. injection Hentry as ->.
  exists s. split; [done|]. unfold pending.
  destruct (Z.eqb_spec (data s) 0) as [Hnull|Hdata]; simpl.
  - rewrite (stage_stream_idle _ _ Hnull) in Hstream |- *. by split_and!.
  - rewrite (stage_stream_pending _ _ Hdata) in Hstream |- *. by split_and!.
Qed.

(** A block of a known attribute comes from the stream it names and from
    that stream's entry of the offset array of this draw. *)
Lemma bind_attribute_staged ring vertex_streams vertex_program glvert attribute info
    block :
  bind_attribute glvert vertex_program (stage_streams ring vertex_streams).1.2 attribute
  = Some block →
  attribute_infos glvert !! regIndex attribute = Some info →
  ∃ stream s base,
    streams vertex_program !! Z.to_nat (streamIndex attribute) = Some stream
    ∧ vertex_streams !! Z.to_nat (streamIndex attribute) = Some s
    ∧ (stage_streams ring vertex_streams).1.2 !! Z.to_nat (streamIndex attribute)
      = Some base
    ∧ (data s ≠ 0 →
       base = (allocate (stage_streams ring
                           (take (Z.to_nat (streamIndex attribute)) vertex_streams)).1.1.1
                 (size s)).1)
    ∧ (data s = 0 → base = Some 0)
    ∧ block
      = flat_map (bind_location info attribute stream base (attribute_layout info attribute))
          (seqZ 0 (array_size (attribute_layout info attribute))).
Proof.
  intros Hbind Hinfo. unfold bind_attribute in Hbind. rewrite Hinfo in Hbind.
  destruct (streams vertex_program !! _) as [stream|] eqn:Hstream; simpl in Hbind; [|done].
  destruct ((stage_streams ring vertex_streams).1.2 !! _) as [base|] eqn:Hbase;
    simpl in Hbind; [|done].
  injection Hbind as <-.
  destruct (staged_entry ring vertex_streams _ base Hbase) as (s & Hs & _ & Hdata & Hnull).
  exists stream, s, base. by split_and!.
Qed.

Lemma bind_attribute_unknown glvert vertex_program offset_in_buffer attribute block :
  bind_attribute glvert vertex_program offset_in_buffer attribute = Some block →
  attribute_infos glvert !! regIndex attribute = None →
  block = [].
Proof. unfold bind_attribute. intros Hbind Hinfo. rewrite Hinfo in Hbind. congruence. Qed.

Lemma attribute_calls_stage_nothing (calls : list Call) :
  Forall (λ c, is_vertex_attribute_call c = true) calls →
  allocations calls = [] ∧ copies calls = [].
Proof.
  unfold allocations, copies. induction 1 as [|c calls Hc _ IH]; [done|].
  by destruct c.
Qed.

Lemma pointers_bind_location info attribute stream base l (positions : list Z) :
  pointers (flat_map (bind_location info attribute stream base l) positions)
  = (λ i, (λ b, u64 (u32 (u32 (i * array_element_size l) + offset attribute) + b))
            <$> base) <$> positions.
Proof.
  unfold pointers. induction positions as [|i positions IH]; [done|].
  cbn [flat_map]. rewrite omap_app, IH, fmap_cons.
  assert (omap (λ c, snd <$> pointer_of c) (bind_location info attribute stream base l i)
          = [(λ b, u64 (u32 (u32 (i * array_element_size l) + offset attribute) + b))
               <$> base]) as ->; [|done].
  unfold bind_location, set_attribute_pointer. by destruct (_ || _).
Qed.

Lemma staging_calls_set_no_pointer (calls : list Call) :
  Forall (λ c, is_vertex_attribute_call c = false) calls → pointers calls = [].
Proof.
  unfold pointers. induction 1 as [|c calls Hc _ IH]; [done|].
  by destruct c.
Qed.

Lemma check_stripped_symbols_again vertex_program vertex_program' glvert :
  check_stripped_symbols vertex_program' (check_stripped_symbols vertex_program glvert)
  = check_stripped_symbols vertex_program glvert.
Proof.
  assert (stripped_symbols_checked (check_stripped_symbols vertex_program glvert) = true)
    as Hset.
  { unfold check_stripped_symbols. by destruct (stripped_symbols_checked glvert) eqn:Hf. }
  unfold check_stripped_symbols at 1. by rewrite Hset.
Qed.
End VertexTrace.

(** ** The claims on the vertex routine *)

Section VertexClaims.
Context {V : VertexCollaborators}.
Implicit Types (ring : RingBuffer) (glvert : GLVertexProgram).
Implicit Types (vertex_streams : list VertexStreamData).
Implicit Types (vertex_program : SceGxmVertexProgram).

(** C9: when every attribute with a known location names a stream that
    exists, the routine's trace is the staging calls, the binding of the
    ring's buffer, one block of calls per attribute of the program, in
    order, and the unbinding. The block of an attribute without an entry in
    [attribute_infos] is empty. The block of an attribute with an entry
    holds, for each element [i] of its array, the pointer-setting call for
    location [location + i] at byte offset [i * elementStride +
    attribute.offset + base], then the enable call and the divisor call for
    that location, the divisor being 1 for an instanced stream and 0
    otherwise; base is the entry of this draw's offset array for the
    attribute's stream: what the ring allocator returned for the stream
    when it has data, 0 when it has none. *)
Theorem sync_vertex_binds_locations ring vertex_streams vertex_program glvert :
  let glvert' := check_stripped_symbols vertex_program glvert in
  let staged := stage_streams ring vertex_streams in
  Forall
    (λ a, known glvert' a →
          (Z.to_nat (streamIndex a) < length (streams vertex_program))%nat
          ∧ (Z.to_nat (streamIndex a) < length vertex_streams)%nat)
    (attributes vertex_program) →
  ∃ blocks,
    sync_vertex_streams_and_attributes ring vertex_streams vertex_program glvert
    = Some (staged.1.1.1, staged.1.1.2, glvert',
            staged.2 ++ [glBindBuffer GL_ARRAY_BUFFER (handle staged.1.1.1)]
            ++ concat blocks ++ [glBindBuffer GL_ARRAY_BUFFER 0])
    ∧ Forall2
        (λ attribute block,
           match attribute_infos glvert' !! regIndex attribute with
           | None => block = []
           | Some info =>
               ∃ stream s base,
                 streams vertex_program !! Z.to_nat (streamIndex attribute) = Some stream
                 ∧ vertex_streams !! Z.to_nat (streamIndex attribute) = Some s
                 ∧ (data s ≠ 0 →
                    base
                    = (allocate
                         (stage_streams ring
                            (take (Z.to_nat (streamIndex attribute)) vertex_streams)).1.1.1
                         (size s)).1)
                 ∧ (data s = 0 → base = Some 0)
                 ∧ let l := attribute_layout info attribute in
                   1 ≤ array_size l
                   ∧ (∀ loc p,
                        pointer_of (set_attribute_pointer attribute stream l loc p)
                        = Some (loc, p))
                   ∧ (attribute_in_range attribute →
                      info_in_range info →
                      base_in_range base →
                      block
                      = flat_map
                          (λ i, [ set_attribute_pointer attribute stream l
                                    (location info + i)
                                    ((λ b, i * array_element_size l + offset attribute + b)
                                       <$> base);
                                  glEnableVertexAttribArray (location info + i);
                                  glVertexAttribDivisor (location info + i)
                                    (if is_stream_instancing (indexSource stream)
                                     then 1 else 0) ])
                          (seqZ 0 (array_size l)))
           end)
        (attributes vertex_program) blocks.
Proof.
  intros glvert' staged Hrange.
  destruct (sync_vertex_trace ring vertex_streams vertex_program glvert Hrange)
    as (blocks & Hrun & Hblocks & _).
  exists blocks. split; [exact Hrun|].
  eapply Forall2_impl; [exact Hblocks|]. intros attribute block Hbind. simpl in Hbind.
  fold glvert' in Hbind.
  destruct (attribute_infos glvert' !! regIndex attribute) as [info|] eqn:Hinfo.
  - destruct (bind_attribute_staged ring vertex_streams vertex_program glvert' attribute
                info block Hbind Hinfo)
      as (stream & s & base & Hstream & Hs & Hbase & Hdata & Hnull & _).
    exists stream, s, base. split_and!; try done.
    pose proof (attribute_layout_bounds info attribute) as [Hsize _].
    cbv zeta in Hsize |- *. split_and!.
    + lia.
    + intros loc p. unfold set_attribute_pointer. by destruct (_ || _).
    + intros Hattr Hloc Hbaserange.
      pose proof (bind_attribute_known glvert' vertex_program _ attribute info stream base
                    Hinfo Hstream Hbase Hattr Hloc Hbaserange) as Hknown.
      cbv zeta in Hknown. congruence.
  - by eapply bind_attribute_unknown.
Qed.

(** C4: in the routine's trace, the block of a register-formatted attribute
    is decided by the effective component count, the byte size of a
    component times the declared count, divided by 4 and rounded up. Up to
    4 the block is one GL_INT pointer call of that many components at the
    attribute's location, with its enable and divisor calls; above 4 it has
    the effective count divided by 4 and rounded up consecutive locations,
    each of 4 GL_INT components, element [i] lying [16 * i] bytes after the
    first. *)
Theorem sync_vertex_binds_regformat ring vertex_streams vertex_program glvert :
  let glvert' := check_stripped_symbols vertex_program glvert in
  let staged := stage_streams ring vertex_streams in
  Forall
    (λ a, known glvert' a →
          (Z.to_nat (streamIndex a) < length (streams vertex_program))%nat
          ∧ (Z.to_nat (streamIndex a) < length vertex_streams)%nat)
    (attributes vertex_program) →
  ∃ blocks,
    sync_vertex_streams_and_attributes ring vertex_streams vertex_program glvert
    = Some (staged.1.1.1, staged.1.1.2, glvert',
            staged.2 ++ [glBindBuffer GL_ARRAY_BUFFER (handle staged.1.1.1)]
            ++ concat blocks ++ [glBindBuffer GL_ARRAY_BUFFER 0])
    ∧ Forall2
        (λ attribute block,
           ∀ info,
             attribute_infos glvert' !! regIndex attribute = Some info →
             regformat info = true →
             ∃ stream s base,
               streams vertex_program !! Z.to_nat (streamIndex attribute) = Some stream
               ∧ vertex_streams !! Z.to_nat (streamIndex attribute) = Some s
               ∧ (data s ≠ 0 →
                  base
                  = (allocate
                       (stage_streams ring
                          (take (Z.to_nat (streamIndex attribute)) vertex_streams)).1.1.1
                       (size s)).1)
               ∧ (data s = 0 → base = Some 0)
               ∧ let bytes :=
                   attribute_format_size (format attribute) * componentCount attribute in
                 let effective := (bytes + 3) / 4 in
                 let divisor :=
                   if is_stream_instancing (indexSource stream) then 1 else 0 in
                 attribute_in_range attribute →
                 info_in_range info →
                 base_in_range base →
                 0 ≤ attribute_format_size (format attribute) ≤ 4 →
                 4 * (effective - 1) < bytes ∧ bytes ≤ 4 * effective
                 ∧ (effective ≤ 4 →
                    block
                    = [ glVertexAttribIPointer (location info) effective GL_INT
                          (stride stream) ((λ b, offset attribute + b) <$> base);
                        glEnableVertexAttribArray (location info);
                        glVertexAttribDivisor (location info) divisor ])
                 ∧ (4 < effective →
                    block
                    = flat_map
                        (λ i, [ glVertexAttribIPointer (location info + i) 4 GL_INT
                                  (stride stream)
                                  ((λ b, i * 16 + offset attribute + b) <$> base);
                                glEnableVertexAttribArray (location info + i);
                                glVertexAttribDivisor (location info + i) divisor ])
                        (seqZ 0 ((effective + 3) / 4))))
        (attributes vertex_program) blocks.
Proof.
  intros glvert' staged Hrange.
  destruct (sync_vertex_trace ring vertex_streams vertex_program glvert Hrange)
    as (blocks & Hrun & Hblocks & _).
  exists blocks. split; [exact Hrun|].
  eapply Forall2_impl; [exact Hblocks|]. intros attribute block Hbind info Hinfo Hreg.
  simpl in Hbind. fold glvert' in Hbind.
  destruct (bind_attribute_staged ring vertex_streams vertex_program glvert' attribute
              info block Hbind Hinfo)
    as (stream & s & base & Hstream & Hs & Hbase & Hdata & Hnull & _).
  exists stream, s, base. split_and!; try done.
  intros bytes effective divisor Hattr Hloc Hbaserange Hsize.
  destruct (regformat_attribute_binding glvert' vertex_program _ attribute info stream
              base Hreg Hinfo Hstream Hbase Hattr Hloc Hbaserange Hsize)
    as (Hlow & Hhigh & Hfew & Hmany).
  split_and!; [done | done | |].
  - intros Hle. rewrite (Hfew Hle) in Hbind. by injection Hbind as <-.
  - intros Hgt. rewrite (Hmany Hgt) in Hbind. by injection Hbind as <-.
Qed.

(** C10: a stream with a non-null data pointer comes out of the routine
    with a null pointer and size 0 whether or not its allocation succeeded
    (a stream without data comes out as it was), so running the routine
    again on the streams and ring it returned asks the allocator for nothing
    and copies nothing. The entry of the offset array shows in the pointers
    of the attributes on the stream: they are computed from the allocation's
    result, so they are indeterminate when the allocation failed and the
    entry was not written, and they are computed from 0 for a stream
    without data. *)
Theorem sync_vertex_clears_pending ring vertex_streams vertex_program glvert :
  let glvert' := check_stripped_symbols vertex_program glvert in
  Forall
    (λ a, known glvert' a →
          (Z.to_nat (streamIndex a) < length (streams vertex_program))%nat
          ∧ (Z.to_nat (streamIndex a) < length vertex_streams)%nat)
    (attributes vertex_program) →
  ∃ ring' vertex_streams' staging blocks,
    sync_vertex_streams_and_attributes ring vertex_streams vertex_program glvert
    = Some (ring', vertex_streams', glvert',
            staging ++ [glBindBuffer GL_ARRAY_BUFFER (handle ring')]
            ++ concat blocks ++ [glBindBuffer GL_ARRAY_BUFFER 0])
    ∧ pointers staging = []
    ∧ (∀ (i : nat) s,
         vertex_streams !! i = Some s →
         (data s ≠ 0 → vertex_streams' !! i = Some {| data := 0; size := 0 |})
         ∧ (data s = 0 → vertex_streams' !! i = Some s))
    ∧ Forall2
        (λ attribute block,
           ∀ info,
             attribute_infos glvert' !! regIndex attribute = Some info →
             ∃ s base,
               vertex_streams !! Z.to_nat (streamIndex attribute) = Some s
               ∧ (data s ≠ 0 →
                  base
                  = (allocate
                       (stage_streams ring
                          (take (Z.to_nat (streamIndex attribute)) vertex_streams)).1.1.1
                       (size s)).1)
               ∧ (data s = 0 → base = Some 0)
               ∧ let l := attribute_layout info attribute in
                 1 ≤ array_size l
                 ∧ pointers block
                   = (λ i, (λ b, u64 (u32 (u32 (i * array_element_size l)
                                           + offset attribute) + b)) <$> base)
                     <$> seqZ 0 (array_size l)
                 ∧ (base = None → pointers block ≠ []
                                  ∧ Forall (λ p, p = None) (pointers block)))
        (attributes vertex_program) blocks
    ∧ ∃ calls,
        sync_vertex_streams_and_attributes ring' vertex_streams' vertex_program glvert'
        = Some (ring', vertex_streams', glvert', calls)
        ∧ allocations calls = []
        ∧ copies calls = [].
Proof.
  intros glvert' Hrange.
  destruct (sync_vertex_trace ring vertex_streams vertex_program glvert Hrange)
    as (blocks & Hrun & Hblocks & _).
  set (staged := stage_streams ring vertex_streams) in *.
  exists staged.1.1.1, staged.1.1.2, staged.2, blocks.
  split_and!; [exact Hrun | | | |].
  - apply staging_calls_set_no_pointer, stage_streams_kinds.
  - intros i s Hs.
    destruct (stage_streams_lookup ring vertex_streams i s Hs) as [Hstream _].
    fold staged in Hstream. split.
    + intros Hdata. by rewrite (stage_stream_pending _ _ Hdata) in Hstream.
    + intros Hnull. by rewrite (stage_stream_idle _ _ Hnull) in Hstream.
  - eapply Forall2_impl; [exact Hblocks|]. intros attribute block Hbind info Hinfo.
    simpl in Hbind. fold glvert' in Hbind.
    destruct (bind_attribute_staged ring vertex_streams vertex_program glvert' attribute
                info block Hbind Hinfo)
      as (stream & s & base & Hstream & Hs & Hbase & Hdata & Hnull & ->).
    exists s, base. split_and!; try done.
    pose proof (attribute_layout_bounds info attribute) as [Hsize _].
    cbv zeta. split_and!; [lia | apply pointers_bind_location |].
    intros ->. rewrite pointers_bind_location.
    rewrite seqZ_cons by lia. split; [done|].
    apply Forall_fmap, Forall_forall. by intros i _.
  - pose proof (stage_streams_cleared ring vertex_streams) as Hcleared.
    pose proof (stage_streams_lengths ring vertex_streams) as [Hlength _].
    fold staged in Hcleared, Hlength.
    assert (Forall
              (λ a, known (check_stripped_symbols vertex_program glvert') a →
                    (Z.to_nat (streamIndex a) < length (streams vertex_program))%nat
                    ∧ (Z.to_nat (streamIndex a) < length staged.1.1.2)%nat)
              (attributes vertex_program)) as Hrange'.
    { subst glvert'. rewrite check_stripped_symbols_again, Hlength. exact Hrange. }
    destruct (sync_vertex_trace staged.1.1.1 staged.1.1.2 vertex_program glvert' Hrange')
      as (blocks' & Hrun' & _ & Hkinds').
    rewrite (stage_streams_idle _ _ Hcleared) in Hrun'. simpl in Hrun'.
    subst glvert'. rewrite check_stripped_symbols_again in Hrun'.
    eexists. split; [exact Hrun'|].
    destruct (attribute_calls_stage_nothing _ Hkinds') as [Hallocs Hcopies].
    unfold allocations, copies in *. simpl. rewrite !omap_app, Hallocs, Hcopies. done.
Qed.

(** C3, as the code has it: in the routine's trace, the allocator is
    asked, in stream-index order, for exactly the streams whose data pointer
    is not null, and a copy is made only for such a stream; a stream without
    data this draw gets base offset 0, so the block of every attribute on it
    binds element [i] at [i * elementStride + attribute.offset] from the
    start of the ring, not at the offset of an earlier allocation. *)
Theorem sync_vertex_stages_in_order ring vertex_streams vertex_program glvert :
  let glvert' := check_stripped_symbols vertex_program glvert in
  let staged := stage_streams ring vertex_streams in
  Forall
    (λ a, known glvert' a →
          (Z.to_nat (streamIndex a) < length (streams vertex_program))%nat
          ∧ (Z.to_nat (streamIndex a) < length vertex_streams)%nat)
    (attributes vertex_program) →
  ∃ blocks calls,
    sync_vertex_streams_and_attributes ring vertex_streams vertex_program glvert
    = Some (staged.1.1.1, staged.1.1.2, glvert', calls)
    ∧ calls
      = staged.2 ++ [glBindBuffer GL_ARRAY_BUFFER (handle staged.1.1.1)]
        ++ concat blocks ++ [glBindBuffer GL_ARRAY_BUFFER 0]
    ∧ allocations calls = size <$> List.filter pending vertex_streams
    ∧ copies calls
      `sublist_of` ((λ s, (data s, size s)) <$> List.filter pending vertex_streams)
    ∧ Forall2
        (λ attribute block,
           ∀ info s stream,
             attribute_infos glvert' !! regIndex attribute = Some info →
             vertex_streams !! Z.to_nat (streamIndex attribute) = Some s →
             streams vertex_program !! Z.to_nat (streamIndex attribute) = Some stream →
             pending s = false →
             attribute_in_range attribute →
             info_in_range info →
             let l := attribute_layout info attribute in
             block
             = flat_map
                 (λ i, [ set_attribute_pointer attribute stream l (location info + i)
                           (Some (i * array_element_size l + offset attribute));
                         glEnableVertexAttribArray (location info + i);
                         glVertexAttribDivisor (location info + i)
                           (if is_stream_instancing (indexSource stream) then 1 else 0) ])
                 (seqZ 0 (array_size l)))
        (attributes vertex_program) blocks.
Proof.
  intros glvert' staged Hrange.
  destruct (sync_vertex_trace ring vertex_streams vertex_program glvert Hrange)
    as (blocks & Hrun & Hblocks & Hkinds).
  fold glvert' staged in Hrun, Hblocks.
  destruct (staging_follows_stream_order ring vertex_streams vertex_program glvert')
    as (Hallocs & Hcopies & Hidle).
  fold staged in Hallocs, Hcopies, Hidle.
  destruct (attribute_calls_stage_nothing _ Hkinds) as [Hnoalloc Hnocopy].
  eexists blocks, _. split_and!; [exact Hrun | done | | |].
  - rewrite !allocations_app, Hallocs, Hnoalloc. simpl. by rewrite app_nil_r.
  - rewrite !copies_app, Hnocopy. simpl. by rewrite app_nil_r.
  - eapply Forall2_impl; [exact Hblocks|].
    intros attribute block Hbind info s stream Hinfo Hs Hstream Hpending Hattr Hloc l.
    simpl in Hbind.
    pose proof (Hidle attribute s info stream Hs Hpending Hinfo Hstream Hattr Hloc)
      as Hexpected.
    cbv zeta in Hexpected. subst l. congruence.
Qed.

(** In the routine's trace, the block of an attribute that is not
    register-formatted is one pointer call at the attribute's location with
    its declared component count and the GL type of its format, then the
    enable and divisor calls; the pointer call is the integer one when the
    shader's parameter type is an integer type or the format is untyped, and
    otherwise the floating-point one with the format's normalisation flag. *)
Theorem sync_vertex_binds_typed ring vertex_streams vertex_program glvert :
  let glvert' := check_stripped_symbols vertex_program glvert in
  let staged := stage_streams ring vertex_streams in
  Forall
    (λ a, known glvert' a →
          (Z.to_nat (streamIndex a) < length (streams vertex_program))%nat
          ∧ (Z.to_nat (streamIndex a) < length vertex_streams)%nat)
    (attributes vertex_program) →
  ∃ blocks,
    sync_vertex_streams_and_attributes ring vertex_streams vertex_program glvert
    = Some (staged.1.1.1, staged.1.1.2, glvert',
            staged.2 ++ [glBindBuffer GL_ARRAY_BUFFER (handle staged.1.1.1)]
            ++ concat blocks ++ [glBindBuffer GL_ARRAY_BUFFER 0])
    ∧ Forall2
        (λ attribute block,
           ∀ info,
             attribute_infos glvert' !! regIndex attribute = Some info →
             regformat info = false →
             ∃ stream s base,
               streams vertex_program !! Z.to_nat (streamIndex attribute) = Some stream
               ∧ vertex_streams !! Z.to_nat (streamIndex attribute) = Some s
               ∧ (data s ≠ 0 →
                  base
                  = (allocate
                       (stage_streams ring
                          (take (Z.to_nat (streamIndex attribute)) vertex_streams)).1.1.1
                       (size s)).1)
               ∧ (data s = 0 → base = Some 0)
               ∧ let pointer := (λ b, offset attribute + b) <$> base in
                 let type := attribute_format_to_gl_type (format attribute) in
                 attribute_in_range attribute →
                 info_in_range info →
                 base_in_range base →
                 block
                 = [ if is_integer_type (gxm_type info)
                        || (format attribute =? SCE_GXM_ATTRIBUTE_FORMAT_UNTYPED) then
                       glVertexAttribIPointer (location info) (componentCount attribute)
                         type (stride stream) pointer
                     else
                       glVertexAttribPointer (location info) (componentCount attribute)
                         type (attribute_format_normalised (format attribute))
                         (stride stream) pointer;
                     glEnableVertexAttribArray (location info);
                     glVertexAttribDivisor (location info)
                       (if is_stream_instancing (indexSource stream) then 1 else 0) ])
        (attributes vertex_program) blocks.
Proof.
  intros glvert' staged Hrange.
  destruct (sync_vertex_trace ring vertex_streams vertex_program glvert Hrange)
    as (blocks & Hrun & Hblocks & _).
  exists blocks. split; [exact Hrun|].
  eapply Forall2_impl; [exact Hblocks|]. intros attribute block Hbind info Hinfo Hreg.
  simpl in Hbind. fold glvert' in Hbind.
  destruct (bind_attribute_staged ring vertex_streams vertex_program glvert' attribute
              info block Hbind Hinfo)
    as (stream & s & base & Hstream & Hs & Hbase & Hdata & Hnull & _).
  exists stream, s, base. split_and!; try done.
  intros pointer type Hattr Hloc Hbaserange.
  pose proof (typed_attribute_binding glvert' vertex_program _ attribute info stream base
                Hreg Hinfo Hstream Hbase Hattr Hloc Hbaserange) as Htyped.
  cbv zeta in Htyped. subst pointer type. congruence.
Qed.
End VertexClaims.

Lemma sync_vertex_binds_locations_witness :
  let staged := @stage_streams Fixture.vertices Fixture.ring Fixture.vertex_streams in
  ∃ blocks,
    @sync_vertex_streams_and_attributes Fixture.vertices Fixture.ring
      Fixture.vertex_streams Fixture.vertex_program Fixture.glvert
    = Some (staged.1.1.1, staged.1.1.2,
            check_stripped_symbols Fixture.vertex_program Fixture.glvert,
            staged.2 ++ [glBindBuffer GL_ARRAY_BUFFER 7] ++ concat blocks
            ++ [glBindBuffer GL_ARRAY_BUFFER 0])
    ∧ length blocks = 3%nat.
Proof.
  destruct (@sync_vertex_binds_locations Fixture.vertices Fixture.ring
              Fixture.vertex_streams Fixture.vertex_program Fixture.glvert)
    as (blocks & Hrun & Hblocks).
  - repeat constructor; simpl; lia.
  - exists blocks. split; [exact Hrun|].
    by rewrite <- (Forall2_length _ _ _ Hblocks).
Defined.

Lemma sync_vertex_binds_regformat_witness :
  let staged := @stage_streams Fixture.vertices Fixture.ring Fixture.vertex_streams in
  ∃ blocks,
    @sync_vertex_streams_and_attributes Fixture.vertices Fixture.ring
      Fixture.vertex_streams Fixture.vertex_program Fixture.glvert
    = Some (staged.1.1.1, staged.1.1.2,
            check_stripped_symbols Fixture.vertex_program Fixture.glvert,
            staged.2 ++ [glBindBuffer GL_ARRAY_BUFFER 7] ++ concat blocks
            ++ [glBindBuffer GL_ARRAY_BUFFER 0])
    ∧ length blocks = 3%nat.
Proof.
  destruct (@sync_vertex_binds_regformat Fixture.vertices Fixture.ring
              Fixture.vertex_streams Fixture.vertex_program Fixture.glvert)
    as (blocks & Hrun & Hblocks).
  - repeat constructor; simpl; lia.
  - exists blocks. split; [exact Hrun|].
    by rewrite <- (Forall2_length _ _ _ Hblocks).
Defined.

Lemma sync_vertex_clears_pending_witness :
  ∃ ring' vertex_streams' calls calls',
    @sync_vertex_streams_and_attributes Fixture.vertices (1000, 1024)
      Fixture.vertex_streams Fixture.vertex_program Fixture.glvert
    = Some (ring', vertex_streams',
            check_stripped_symbols Fixture.vertex_program Fixture.glvert, calls)
    ∧ vertex_streams' !! 1%nat = Some {| data := 0; size := 0 |}
    ∧ @sync_vertex_streams_and_attributes Fixture.vertices ring' vertex_streams'
        Fixture.vertex_program
        (check_stripped_symbols Fixture.vertex_program Fixture.glvert)
      = Some (ring', vertex_streams',
              check_stripped_symbols Fixture.vertex_program Fixture.glvert, calls')
    ∧ allocations calls' = [].
Proof.
  destruct (@sync_vertex_clears_pending Fixture.vertices (1000, 1024)
              Fixture.vertex_streams Fixture.vertex_program Fixture.glvert)
    as (ring' & vertex_streams' & staging & blocks & Hrun & _ & Hcleared & _
        & calls' & Hagain & Hallocs & _).
  - repeat constructor; simpl; lia.
  - exists ring', vertex_streams'. eexists. exists calls'.
    split_and!; [exact Hrun | | exact Hagain | done].
    apply (proj1 (Hcleared 1%nat {| data := 0x6000; size := 56 |} eq_refl)).
    discriminate.
Defined.

Lemma sync_vertex_stages_in_order_witness :
  ∃ calls,
    @sync_vertex_streams_and_attributes Fixture.vertices Fixture.ring
      Fixture.vertex_streams Fixture.vertex_program Fixture.glvert
    = Some ((@stage_streams Fixture.vertices Fixture.ring Fixture.vertex_streams).1.1.1,
            (@stage_streams Fixture.vertices Fixture.ring Fixture.vertex_streams).1.1.2,
            check_stripped_symbols Fixture.vertex_program Fixture.glvert, calls)
    ∧ allocations calls = size <$> List.filter pending Fixture.vertex_streams.
Proof.
  destruct (@sync_vertex_stages_in_order Fixture.vertices Fixture.ring
              Fixture.vertex_streams Fixture.vertex_program Fixture.glvert)
    as (blocks & calls & Hrun & _ & Hallocs & _).
  - repeat constructor; simpl; lia.
  - exists calls. by split.
Defined.

Lemma sync_vertex_binds_typed_witness :
  let staged := @stage_streams Fixture.vertices Fixture.ring Fixture.vertex_streams in
  ∃ blocks,
    @sync_vertex_streams_and_attributes Fixture.vertices Fixture.ring
      Fixture.vertex_streams Fixture.vertex_program Fixture.glvert
    = Some (staged.1.1.1, staged.1.1.2,
            check_stripped_symbols Fixture.vertex_program Fixture.glvert,
            staged.2 ++ [glBindBuffer GL_ARRAY_BUFFER 7] ++ concat blocks
            ++ [glBindBuffer GL_ARRAY_BUFFER 0])
    ∧ length blocks = 3%nat.
Proof.
  destruct (@sync_vertex_binds_typed Fixture.vertices Fixture.ring
              Fixture.vertex_streams Fixture.vertex_program Fixture.glvert)
    as (blocks & Hrun & Hblocks).
  - repeat constructor; simpl; lia.
  - exists blocks. split; [exact Hrun|].
    by rewrite <- (Forall2_length _ _ _ Hblocks).
Defined.
